(** * Ban detection, domain reputation, recovery planning and proxy health

    A shallow embedding of [ban_detector.py] (class [BanDetector]) and of
    the health registry of [smart_proxy_manager.py] (class
    [SmartProxyManager]), with the properties the specification states
    about them.

    Conventions of the embedding.
    - Python [float] values (scores, confidences, wait times, time stamps)
      are exact rationals [Q]; decimal literals are the source's.  Rounding
      is outside the model.  Where binary64 arithmetic and exact arithmetic
      part ways for good, the statements below carry the bound under which
      they agree: the conversion of [5 * 2 ** attempt] to a [float]
      ([overflow_attempt]), and the bottom of the binary64 range, where a
      product by [0.9] or [0.95] rounds back to its argument (module
      [Binary64], which computes the score in binary64 itself).
    - Python [int] counters are [nat]; a status code and the attempt number
      are [Z].
    - [str] is [string], restricted to ASCII; [str.lower] is ASCII lower
      casing.
    - A [defaultdict] is a [gmap] together with the default value: reading a
      missing key inserts the default, which the functions below make
      explicit ([touch]).
    - Clock readings ([time.time()], [datetime.now()]) and the random jitter
      are arguments of the function that draws them. *)

From Stdlib Require Import QArith Qminmax Qpower Lqa ZArith String Ascii List Lia.
From Stdlib Require Floats.
From stdpp Require Import gmap strings list fin_maps.

Local Open Scope Q_scope.

(** ** Python numerics on [Q] *)

Module PyNum.

(** [a < b] as a boolean. *)
Definition Qltb (a b : Q) : bool := negb (Qle_bool b a).

(** [min(a, b)]: the first argument unless the second is strictly smaller. *)
Definition py_min (a b : Q) : Q := if Qltb b a then b else a.

(** [max(a, b)]: the first argument unless the second is strictly larger. *)
Definition py_max (a b : Q) : Q := if Qltb a b then b else a.

(** Truth value of a number: zero is falsy. *)
Definition truthy (a : Q) : bool := negb (Qeq_bool a 0).

Definition of_nat (n : nat) : Q := inject_Z (Z.of_nat n).

End PyNum.

Import PyNum.

(** ** Strings and the regular expressions of the ban patterns *)

Module PyStr.

Local Open Scope char_scope.

Definition lower_ascii (c : ascii) : ascii :=
  let n := nat_of_ascii c in
  if (65 <=? n)%nat && (n <=? 90)%nat then ascii_of_nat (n + 32) else c.

(** [s.lower()] *)
Fixpoint lower (s : string) : string :=
  match s with
  | EmptyString => EmptyString
  | String c t => String (lower_ascii c) (lower t)
  end.

(** [needle in hay] *)
Fixpoint contains (needle hay : string) : bool :=
  String.prefix needle hay ||
  match hay with
  | EmptyString => false
  | String _ t => contains needle t
  end.

(** The fragment of [re] syntax the patterns use. *)
Inductive regex : Type :=
| REps
| RChr (c : ascii)
| RAny
| ROpt (r : regex)
| RSeq (r1 r2 : regex)
| RAlt (r1 r2 : regex).

(** [rmatch r s k]: some match of [r] at the start of [s] leaves a rest
    that [k] accepts. Literals compare case-insensitively
    ([re.IGNORECASE]); [.] matches any character but a newline. *)
Fixpoint rmatch (r : regex) (s : string) (k : string -> bool) : bool :=
  match r with
  | REps => k s
  | RChr c =>
      match s with
      | String c' t => Ascii.eqb (lower_ascii c) (lower_ascii c') && k t
      | EmptyString => false
      end
  | RAny =>
      match s with
      | String c' t => negb (Ascii.eqb c' "010") && k t
      | EmptyString => false
      end
  | ROpt r1 => rmatch r1 s k || k s
  | RSeq r1 r2 => rmatch r1 s (fun t => rmatch r2 t k)
  | RAlt r1 r2 => rmatch r1 s k || rmatch r2 s k
  end.

(** [re.search(r, s, re.IGNORECASE)] as a truth value. *)
Fixpoint re_search (r : regex) (s : string) : bool :=
  rmatch r s (fun _ => true) ||
  match s with
  | EmptyString => false
  | String _ t => re_search r t
  end.

(** Reads a pattern built from literal characters, [.] and postfix [?]. *)
Fixpoint pat (p : string) : regex :=
  match p with
  | EmptyString => REps
  | String c rest =>
      let atom := if Ascii.eqb c "." then RAny else RChr c in
      match rest with
      | String "?" rest' => RSeq (ROpt atom) (pat rest')
      | _ => RSeq atom (pat rest)
      end
  end.

End PyStr.

Import PyStr.

(** ** [ban_detector.py] *)

Module BanDetector.

Inductive BanType : Type :=
| NONE | RATE_LIMIT | IP_BAN | CAPTCHA | CLOUDFLARE | ACCESS_DENIED
| BEHAVIORAL | GEOGRAPHIC | USER_AGENT | FINGERPRINT | TEMPORARY | PERMANENT.

Inductive RecoveryStrategy : Type :=
| WAIT | ROTATE_PROXY | SOLVE_CAPTCHA | CHANGE_FINGERPRINT | SLOW_DOWN
| CHANGE_PATTERN | BUILD_REPUTATION | ABANDON.

#[global] Instance BanType_eq_dec : EqDecision BanType.
Proof. solve_decision. Defined.

#[global] Instance RecoveryStrategy_eq_dec : EqDecision RecoveryStrategy.
Proof. solve_decision. Defined.

Local Open Scope string_scope.

(** [self.ban_patterns], in insertion order. *)
Definition ban_patterns : list (BanType * list regex) :=
  [ (RATE_LIMIT,
     [ pat "rate.?limit"; pat "too.?many.?requests"; pat "429";
       pat "slow.?down"; pat "throttl"; pat "exceeded.?quota" ]);
    (IP_BAN,
     [ pat "blocked"; pat "banned"; pat "forbidden"; pat "403";
       pat "access.?denied"; pat "unauthorized.?access"; pat "ip.?block" ]);
    (CAPTCHA,
     [ pat "captcha"; pat "recaptcha"; pat "hcaptcha"; pat "challenge";
       pat "verify.?you.?are.?human"; pat "robot.?check";
       pat "security.?check" ]);
    (CLOUDFLARE,
     [ pat "cloudflare"; pat "cf-ray"; pat "checking.?your.?browser";
       pat "ddos.?protection"; pat "please.?wait";
       pat "security.?check.?cloudflare" ]);
    (BEHAVIORAL,
     [ pat "suspicious.?activity"; pat "unusual.?traffic";
       pat "automated.?behavior"; pat "bot.?detected"; pat "non.?human" ]);
    (GEOGRAPHIC,
     [ RSeq (pat "not.?available.?in.?your.?")
            (RAlt (pat "country") (pat "region"));
       pat "geo.?block"; pat "location.?restricted";
       pat "content.?not.?available" ]);
    (USER_AGENT,
     [ pat "unsupported.?browser"; pat "update.?your.?browser";
       pat "browser.?not.?supported"; pat "invalid.?user.?agent" ]) ].

(** [self.recovery_strategies.get(ban_type)] *)
Definition recovery_strategies (b : BanType) : option (list RecoveryStrategy) :=
  match b with
  | RATE_LIMIT => Some [WAIT; SLOW_DOWN; ROTATE_PROXY]
  | IP_BAN => Some [ROTATE_PROXY; WAIT]
  | CAPTCHA => Some [SOLVE_CAPTCHA; ROTATE_PROXY]
  | CLOUDFLARE => Some [WAIT; SOLVE_CAPTCHA; CHANGE_FINGERPRINT]
  | BEHAVIORAL => Some [CHANGE_PATTERN; BUILD_REPUTATION]
  | GEOGRAPHIC => Some [ROTATE_PROXY]
  | USER_AGENT => Some [CHANGE_FINGERPRINT]
  | FINGERPRINT => Some [CHANGE_FINGERPRINT; ROTATE_PROXY]
  | NONE | ACCESS_DENIED | TEMPORARY | PERMANENT => None
  end.

(** [self.recovery_config] *)
Definition max_retry_attempts : nat := 5.
Definition base_wait_time : Q := 5.
Definition max_wait_time : Q := 300.
Definition reputation_threshold : Q := 0.3.
Definition ban_threshold : nat := 10.

(** *** [detect_ban] *)

(** A header value: a string, or an integer (the source lower-cases only
    [str] values and compares [str(value)]). *)
Inductive HeaderValue : Type :=
| HStr (s : string)
| HInt (z : Z).

Definition Headers : Type := list (string * HeaderValue).

(** A point of the function body: returned, or still running with the
    current [(ban_type, confidence)]. *)
Inductive Flow : Type :=
| Return (r : BanType * Q)
| Continue (r : BanType * Q).

(** [if status_code: ...]; zero is falsy. *)
Definition check_status (status_code : option Z) : Flow :=
  match status_code with
  | None => Continue (NONE, 0.0)
  | Some c =>
      if (c =? 0)%Z then Continue (NONE, 0.0)
      else if (c =? 429)%Z then Return (RATE_LIMIT, 0.95)
      else if (c =? 403)%Z then Continue (IP_BAN, 0.8)
      else if (c =? 503)%Z then Continue (CLOUDFLARE, 0.7)
      else if (400 <=? c)%Z then Continue (NONE, 0.5)
      else Continue (NONE, 0.0)
  end.

(** The number of patterns of one category found in the content. *)
Definition count_matches (patterns : list regex) (content_lower : string) : nat :=
  List.length (filter (fun p => re_search p content_lower = true) patterns).

(** One round of the loop over [self.ban_patterns.items()]. *)
Definition scan_category (content_lower : string) (r : BanType * Q)
    (entry : BanType * list regex) : BanType * Q :=
  let '(ban_type_check, patterns) := entry in
  let matches := count_matches patterns content_lower in
  if (0 <? matches)%nat then
    let pattern_confidence := py_min (of_nat matches * 0.3) 0.95 in
    if Qltb (snd r) pattern_confidence
    then (ban_type_check, pattern_confidence)
    else r
  else r.

(** [if html_content: ...]; the empty string is falsy. *)
Definition check_content (html_content : option string) (r : BanType * Q)
    : BanType * Q :=
  match html_content with
  | None | Some EmptyString => r
  | Some h => foldl (scan_category (lower h)) r ban_patterns
  end.

Definition lower_value (v : HeaderValue) : HeaderValue :=
  match v with
  | HStr s => HStr (lower s)
  | HInt z => HInt z
  end.

(** The dict comprehension [headers_lower]; a later key wins. *)
Definition headers_lower (headers : Headers) : gmap string HeaderValue :=
  foldl (fun m kv => <[lower (fst kv) := lower_value (snd kv)]> m) ∅ headers.

(** [str(remaining) == '0'] *)
Definition str_is_zero (v : HeaderValue) : bool :=
  match v with
  | HStr s => String.eqb s "0"
  | HInt z => (z =? 0)%Z
  end.

Definition has_key (k : string) (m : gmap string HeaderValue) : bool :=
  match m !! k with Some _ => true | None => false end.

(** [if headers: ...]; the empty dict is falsy. *)
Definition check_headers (headers : option Headers) (r : BanType * Q) : Flow :=
  match headers with
  | None | Some [] => Continue r
  | Some hs =>
      let hl := headers_lower hs in
      let r1 :=
        if has_key "cf-ray" hl || has_key "cf-cache-status" hl then
          match fst r with
          | NONE => (CLOUDFLARE, py_max (snd r) 0.6)
          | _ => r
          end
        else r in
      if match hl !! "x-ratelimit-remaining" with
         | Some remaining => str_is_zero remaining
         | None => false
         end
      then Return (RATE_LIMIT, 0.99)
      else if has_key "retry-after" hl then Return (RATE_LIMIT, 0.95)
      else Continue r1
  end.

(** The double quote character. *)
Definition dquote : ascii := "034"%char.

Definition error_indicators : list string :=
  [ "<title>access denied</title>";
    "<title>403 forbidden</title>";
    "<title>error</title>";
    "class=" ++ String dquote ("error-page" ++ String dquote EmptyString);
    "id=" ++ String dquote ("challenge-form" ++ String dquote EmptyString) ].

(** [if html_content and ban_type == BanType.NONE: ...] *)
Definition check_error_pages (html_content : option string)
    (r : BanType * Q) : BanType * Q :=
  match html_content, fst r with
  | Some h, NONE =>
      if String.eqb h EmptyString then r
      else if existsb (fun indicator => contains indicator (lower h))
                      error_indicators
      then (ACCESS_DENIED, 0.7)
      else r
  | _, _ => r
  end.

Definition detect_ban (html_content : option string)
    (status_code : option Z) (headers : option Headers) : BanType * Q :=
  match check_status status_code with
  | Return r => r
  | Continue r0 =>
      match check_headers headers (check_content html_content r0) with
      | Return r => r
      | Continue r1 => check_error_pages html_content r1
      end
  end.

(** *** Tracked state *)

(** A ban event of [self.ban_history]; the metadata holds numbers (only
    its [retry_after] entry is ever read). *)
Record BanEvent : Type := {
  ev_timestamp : Q;
  ev_type : BanType;
  ev_metadata : gmap string Q
}.

(** An entry of [self.successful_recoveries]. *)
Record RecoveryRecord : Type := {
  ban_type : BanType;
  strategy : RecoveryStrategy;
  timestamp : Q
}.

(** An entry of [self.domain_reputation]. *)
Record Reputation : Type := {
  requests : nat;
  successes : nat;
  bans : nat;
  last_ban : option Q;
  reputation_score : Q
}.

(** The value the [defaultdict] creates. *)
Definition default_reputation : Reputation :=
  {| requests := 0; successes := 0; bans := 0; last_ban := None;
     reputation_score := 1.0 |}.

Record State : Type := {
  ban_history : gmap string (list BanEvent);
  recovery_attempts : gmap string nat;
  successful_recoveries : gmap string (list RecoveryRecord);
  domain_reputation : gmap string Reputation
}.

(** [BanDetector()] *)
Definition init : State :=
  {| ban_history := ∅; recovery_attempts := ∅;
     successful_recoveries := ∅; domain_reputation := ∅ |}.

(** [self.domain_reputation[domain]], read. *)
Definition reputation_of (st : State) (domain : string) : Reputation :=
  default default_reputation (domain_reputation st !! domain).

Definition set_reputation (domain : string) (r : Reputation) (st : State)
    : State :=
  {| ban_history := ban_history st;
     recovery_attempts := recovery_attempts st;
     successful_recoveries := successful_recoveries st;
     domain_reputation := <[domain := r]> (domain_reputation st) |}.

(** The entry a read of [self.domain_reputation[domain]] leaves behind. *)
Definition touch_reputation (domain : string) (st : State) : State :=
  set_reputation domain (reputation_of st domain) st.

(** [self.ban_history[domain]], read. *)
Definition history_of (st : State) (domain : string) : list BanEvent :=
  default [] (ban_history st !! domain).

Definition set_history (domain : string) (h : list BanEvent) (st : State)
    : State :=
  {| ban_history := <[domain := h]> (ban_history st);
     recovery_attempts := recovery_attempts st;
     successful_recoveries := successful_recoveries st;
     domain_reputation := domain_reputation st |}.

(** [deque(maxlen=n).append(x)]: the oldest element leaves on overflow. *)
Definition deque_append {A : Type} (maxlen : nat) (l : list A) (x : A)
    : list A :=
  let l' := (l ++ [x])%list in drop (List.length l' - maxlen) l'.

(** [l[-n:]] *)
Definition last_n {A : Type} (n : nat) (l : list A) : list A :=
  drop (List.length l - n) l.

(** *** [record_ban]; the two readings of [time.time()] are [t_event]
    and [t_last].  The new score is the exact product; [Binary64.record_ban]
    is the same assignment on binary64 numbers. *)
Definition record_ban (t_event t_last : Q) (domain : string) (b : BanType)
    (metadata : option (gmap string Q)) (st : State) : State :=
  let ban_event :=
    {| ev_timestamp := t_event; ev_type := b;
       ev_metadata := default ∅ metadata |} in
  let st1 :=
    set_history domain (deque_append 100 (history_of st domain) ban_event) st in
  let reputation := reputation_of st1 domain in
  set_reputation domain
    {| requests := requests reputation;
       successes := successes reputation;
       bans := bans reputation + 1;
       last_ban := Some t_last;
       reputation_score := reputation_score reputation * 0.9 |} st1.

(** The first past recovery recorded for the ban type. *)
Definition past_strategy (b : BanType) (l : list RecoveryRecord)
    : option RecoveryStrategy :=
  strategy <$> List.find (fun past => bool_decide (ban_type past = b)) l.

(** *** [get_recovery_strategy] *)
Definition get_recovery_strategy (domain : string) (b : BanType) (st : State)
    : RecoveryStrategy * State :=
  let strategies := default [WAIT] (recovery_strategies b) in
  let reputation := reputation_of st domain in
  let st1 := touch_reputation domain st in
  if Qltb (reputation_score reputation) reputation_threshold then (ABANDON, st1)
  else if (ban_threshold <? bans reputation)%nat then (ABANDON, st1)
  else
    match successful_recoveries st !! domain ≫= past_strategy b with
    | Some s => (s, st1)
    | None =>
        (match strategies with s :: _ => s | [] => WAIT end, st1)
    end.

(** One round of the loop over [recent_bans]. *)
Definition raise_to_retry_after (wait_time : Q) (ban : BanEvent) : Q :=
  match ev_metadata ban !! "retry_after" with
  | Some suggested_wait => py_max wait_time suggested_wait
  | None => wait_time
  end.

(** [base_wait * (2 ** attempt)] is an [int] for an attempt that is not
    negative, and [wait_time += random.uniform(0, base_wait)] converts it
    to a [float]: [5 * 2 ** 1021] is the last one that converts, from
    attempt 1022 on the addition raises [OverflowError]. *)
Definition overflow_attempt : Z := 1022.

(** *** [calculate_wait_time]; [jitter] is the draw of
    [random.uniform(0, base_wait)].  The value is the one the source
    returns for an attempt below [overflow_attempt]; the source returns
    nothing from there on. *)
Definition calculate_wait_time (jitter : Q) (domain : string) (attempt : Z)
    (st : State) : Q * State :=
  let base_wait := base_wait_time in
  let wait_time := base_wait * 2 ^ attempt in
  let wait_time := wait_time + jitter in
  let recent_bans := last_n 5 (history_of st domain) in
  let st1 := set_history domain (history_of st domain) st in
  let wait_time := foldl raise_to_retry_after wait_time recent_bans in
  (py_min wait_time max_wait_time, st1).

(** *** [update_reputation].  The new score is exact;
    [Binary64.update_reputation] is the same assignment on binary64
    numbers. *)
Definition update_reputation (domain : string) (success : bool) (st : State)
    : State :=
  let reputation := reputation_of st domain in
  set_reputation domain
    (if success then
       {| requests := requests reputation + 1;
          successes := successes reputation + 1;
          bans := bans reputation;
          last_ban := last_ban reputation;
          reputation_score := py_min 1.0 (reputation_score reputation * 1.01) |}
     else
       {| requests := requests reputation + 1;
          successes := successes reputation;
          bans := bans reputation;
          last_ban := last_ban reputation;
          reputation_score := reputation_score reputation * 0.95 |}) st.

(** *** [should_proceed]; [now] is the reading of [time.time()]. A stored
    time stamp of zero is falsy, as in the source's [if reputation['last_ban']]. *)
Definition should_proceed (now : Q) (domain : string) (st : State)
    : bool * State :=
  let reputation := reputation_of st domain in
  let st1 := touch_reputation domain st in
  if Qltb (reputation_score reputation) reputation_threshold then (false, st1)
  else if (ban_threshold <? bans reputation)%nat then (false, st1)
  else
    match last_ban reputation with
    | Some t =>
        if truthy t then
          let time_since_ban := now - t in
          if Qltb time_since_ban 60 then (false, st1) else (true, st1)
        else (true, st1)
    | None => (true, st1)
    end.

(** *** [reset_domain] *)
Definition reset_domain (domain : string) (st : State) : State :=
  {| ban_history := <[domain := []]> (ban_history st);
     recovery_attempts := <[domain := 0%nat]> (recovery_attempts st);
     successful_recoveries := <[domain := []]> (successful_recoveries st);
     domain_reputation := <[domain := default_reputation]> (domain_reputation st) |}.

(** *** Runs of the detector. [execute_recovery] writes neither the
    reputation store nor the ban history, and the reporting methods
    [get_domain_health] and [analyze_ban_patterns] only read them, as
    [should_proceed] does; they are left out. *)

Inductive Op : Type :=
| OpRecordBan (t_event t_last : Q) (domain : string) (b : BanType)
    (metadata : option (gmap string Q))
| OpUpdateReputation (domain : string) (success : bool)
| OpShouldProceed (now : Q) (domain : string)
| OpGetRecoveryStrategy (domain : string) (b : BanType)
| OpCalculateWaitTime (jitter : Q) (domain : string) (attempt : Z)
| OpResetDomain (domain : string).

Definition step (st : State) (op : Op) : State :=
  match op with
  | OpRecordBan t_event t_last domain b metadata =>
      record_ban t_event t_last domain b metadata st
  | OpUpdateReputation domain success => update_reputation domain success st
  | OpShouldProceed now domain => snd (should_proceed now domain st)
  | OpGetRecoveryStrategy domain b => snd (get_recovery_strategy domain b st)
  | OpCalculateWaitTime jitter domain attempt =>
      snd (calculate_wait_time jitter domain attempt st)
  | OpResetDomain domain => reset_domain domain st
  end.

Definition run (ops : list Op) (st : State) : State := foldl step st ops.

(** [n] calls of [record_ban] on one domain, with the arguments of each. *)
Definition BanArgs : Type := Q * Q * BanType * option (gmap string Q).

Definition record_bans (domain : string) (calls : list BanArgs) (st : State)
    : State :=
  foldl (fun s '(t_event, t_last, b, metadata) =>
           record_ban t_event t_last domain b metadata s) st calls.

(** *** [execute_recovery] *)

(** A value of the [new_config] dict. *)
Inductive ConfigValue : Type :=
| VBool (b : bool)
| VFloat (q : Q)
| VInt (z : Z).

(** The text of [action_taken]; the formatted wait of
    [f"Waiting {wait_time:.1f} seconds"] is kept as the number it prints. *)
Inductive ActionText : Type :=
| Waiting (wait_time : Q)
| Text (s : string).

(** The dict that [execute_recovery] returns; [new_config] in insertion
    order. *)
Record RecoveryResult : Type := {
  res_success : bool;
  res_strategy : RecoveryStrategy;
  res_action_taken : option ActionText;
  res_wait_time : Q;
  res_new_config : list (string * ConfigValue)
}.

(** [self.recovery_attempts[domain]], read. *)
Definition attempts_of (st : State) (domain : string) : nat :=
  default 0%nat (recovery_attempts st !! domain).

Definition set_attempts (domain : string) (n : nat) (st : State) : State :=
  {| ban_history := ban_history st;
     recovery_attempts := <[domain := n]> (recovery_attempts st);
     successful_recoveries := successful_recoveries st;
     domain_reputation := domain_reputation st |}.

(** [self.successful_recoveries[domain].append(r)] *)
Definition add_recovery (domain : string) (r : RecoveryRecord) (st : State)
    : State :=
  {| ban_history := ban_history st;
     recovery_attempts := recovery_attempts st;
     successful_recoveries :=
       <[domain := (default [] (successful_recoveries st !! domain) ++ [r])%list]>
         (successful_recoveries st);
     domain_reputation := domain_reputation st |}.

(** The branch of [execute_recovery] for the strategy: the result so far
    and the state. Only WAIT touches the state (it reads the attempt
    counter and the ban history) and sleeps, for [res_wait_time]
    seconds. *)
Definition recovery_action (jitter : Q) (domain : string)
    (s : RecoveryStrategy) (st : State) : RecoveryResult * State :=
  match s with
  | WAIT =>
      let attempt := attempts_of st domain in
      let st1 := set_attempts domain attempt st in
      let '(wait_time, st2) :=
        calculate_wait_time jitter domain (Z.of_nat attempt) st1 in
      ({| res_success := true; res_strategy := s;
          res_action_taken := Some (Waiting wait_time);
          res_wait_time := wait_time; res_new_config := [] |}, st2)
  | ROTATE_PROXY =>
      ({| res_success := true; res_strategy := s;
          res_action_taken := Some (Text "Rotate to new proxy");
          res_wait_time := 0;
          res_new_config := [("rotate_proxy", VBool true)] |}, st)
  | SOLVE_CAPTCHA =>
      ({| res_success := true; res_strategy := s;
          res_action_taken := Some (Text "Solve captcha challenge");
          res_wait_time := 0;
          res_new_config := [("solve_captcha", VBool true)] |}, st)
  | CHANGE_FINGERPRINT =>
      ({| res_success := true; res_strategy := s;
          res_action_taken := Some (Text "Change browser fingerprint");
          res_wait_time := 0;
          res_new_config :=
            [("new_fingerprint", VBool true); ("new_user_agent", VBool true)] |},
       st)
  | SLOW_DOWN =>
      ({| res_success := true; res_strategy := s;
          res_action_taken := Some (Text "Reduce request rate");
          res_wait_time := 0;
          res_new_config := [("delay_multiplier", VFloat 3.0)] |}, st)
  | CHANGE_PATTERN =>
      ({| res_success := true; res_strategy := s;
          res_action_taken := Some (Text "Change browsing pattern");
          res_wait_time := 0;
          res_new_config :=
            [("randomize_pattern", VBool true); ("add_referrer", VBool true)] |},
       st)
  | BUILD_REPUTATION =>
      ({| res_success := true; res_strategy := s;
          res_action_taken :=
            Some (Text "Build reputation with normal browsing");
          res_wait_time := 0;
          res_new_config :=
            [("reputation_mode", VBool true); ("visit_count", VInt 10)] |}, st)
  | ABANDON =>
      ({| res_success := false; res_strategy := s;
          res_action_taken := Some (Text "Abandon scraping this domain");
          res_wait_time := 0; res_new_config := [] |}, st)
  end.

(** [execute_recovery(domain, ban_type, strategy)]; [jitter] is the draw
    of the backoff and [now] the reading of [time.time()] that stamps a
    successful recovery. *)
Definition execute_recovery (jitter now : Q) (domain : string) (b : BanType)
    (s : RecoveryStrategy) (st : State) : RecoveryResult * State :=
  let '(result, st1) := recovery_action jitter domain s st in
  let st2 := set_attempts domain (attempts_of st1 domain + 1) st1 in
  if res_success result
  then (result,
        add_recovery domain
          {| ban_type := b; strategy := s; timestamp := now |} st2)
  else (result, st2).

(** *** [get_domain_health] *)

Record DomainHealth : Type := {
  dh_reputation_score : Q;
  dh_total_requests : nat;
  dh_successful_requests : nat;
  dh_success_rate : Q;
  dh_total_bans : nat;
  dh_recent_bans : nat;
  dh_recovery_attempts : nat;
  dh_status : string;
  dh_trend : string
}.

(** The events less than an hour old; [clock i] is the reading of
    [time.time()] when the event at index [i] is looked at. *)
Definition recent_events (clock : nat -> Q) (ban_events : list BanEvent)
    : list BanEvent :=
  snd <$> List.filter (fun ib => Qltb (clock (fst ib) - ev_timestamp (snd ib)) 3600)
                      (imap pair ban_events).

(** The two newest events, oldest first, when there are two. *)
Definition last_two (ban_events : list BanEvent) : option (BanEvent * BanEvent) :=
  match rev ban_events with
  | newest :: previous :: _ => Some (previous, newest)
  | _ => None
  end.

Definition ban_trend (ban_events : list BanEvent) : string :=
  match last_two ban_events with
  | Some (previous, newest) =>
      let recent_interval := ev_timestamp newest - ev_timestamp previous in
      if Qltb recent_interval 60 then "worsening"
      else if Qltb 3600 recent_interval then "improving"
      else "stable"
  | None => "unknown"
  end.

(** [get_domain_health(domain)]; [now] is the reading of [time.time()] in
    [should_proceed]. *)
Definition get_domain_health (clock : nat -> Q) (now : Q) (domain : string)
    (st : State) : DomainHealth * State :=
  let reputation := reputation_of st domain in
  let st1 := touch_reputation domain st in
  let ban_events := history_of st1 domain in
  let st2 := set_history domain ban_events st1 in
  let attempts := attempts_of st2 domain in
  let st3 := set_attempts domain attempts st2 in
  let '(proceed, st4) := should_proceed now domain st3 in
  ({| dh_reputation_score := reputation_score reputation;
      dh_total_requests := requests reputation;
      dh_successful_requests := successes reputation;
      dh_success_rate :=
        of_nat (successes reputation)
        / of_nat (Nat.max (requests reputation) 1);
      dh_total_bans := bans reputation;
      dh_recent_bans := List.length (recent_events clock ban_events);
      dh_recovery_attempts := attempts;
      dh_status := if proceed then "healthy" else "unhealthy";
      dh_trend := ban_trend ban_events |}, st4).

(** *** Runs with every method that writes the detector's state *)

Inductive Call : Type :=
| CallOp (op : Op)
| CallExecuteRecovery (jitter now : Q) (domain : string) (b : BanType)
    (s : RecoveryStrategy)
| CallGetDomainHealth (clock : nat -> Q) (now : Q) (domain : string).

Definition call (st : State) (c : Call) : State :=
  match c with
  | CallOp op => step st op
  | CallExecuteRecovery jitter now domain b s =>
      snd (execute_recovery jitter now domain b s st)
  | CallGetDomainHealth clock now domain =>
      snd (get_domain_health clock now domain st)
  end.

Definition run_calls (calls : list Call) (st : State) : State :=
  foldl call st calls.

(** The calls that reset the domain. *)
Definition resets (domain : string) (c : Call) : bool :=
  match c with
  | CallOp (OpResetDomain d) => bool_decide (d = domain)
  | _ => false
  end.

End BanDetector.

Import BanDetector.

(** ** The reputation score in binary64

    [BanDetector] keeps the score of a domain as an exact rational.  The
    source keeps a [float], and in IEEE binary64 a product by [0.9] or by
    [0.95] is rounded: near the bottom of the range it rounds back to the
    score itself.  The assignments of [record_ban] and [update_reputation]
    to the score, on the kernel's binary64 numbers. *)

Module Binary64.

Import PrimFloat.

Local Open Scope float_scope.

#[local] Set Warnings "-inexact-float".

(** ['reputation_score': 1.0], the score of a domain first seen. *)
Definition default_score : float := 1.0.

(** [min(a, b)]: the first argument unless the second is strictly smaller. *)
Definition py_min (a b : float) : float := if b <? a then b else a.

(** [record_ban]: [reputation['reputation_score'] *= 0.9] *)
Definition record_ban (reputation_score : float) : float :=
  reputation_score * 0.9.

(** [update_reputation]:
    [reputation['reputation_score'] = min(1.0, reputation['reputation_score'] * 1.01)]
    on a success, [reputation['reputation_score'] *= 0.95] otherwise. *)
Definition update_reputation (success : bool) (reputation_score : float)
    : float :=
  if success then py_min 1.0 (reputation_score * 1.01)
  else reputation_score * 0.95.

(** The score of a domain first seen after [n] bans in a row, and after
    [n] failures in a row. *)
Definition after_bans (n : N) : float := N.iter n record_ban default_score.

Definition after_failures (n : N) : float :=
  N.iter n (update_reputation false) default_score.

(** Five times and nine times the smallest positive number of binary64,
    about 2.47e-323 and 4.45e-323. *)
Definition ban_floor : float := 0x5p-1074.

Definition failure_floor : float := 0x9p-1074.

(** The comparisons of the source, as propositions. *)
Definition lt (a b : float) : Prop := (a <? b) = true.

Definition le (a b : float) : Prop := (a <=? b) = true.

(** A score of the unit interval. *)
Definition unit_score (x : float) : Prop := le 0 x /\ le x 1.

End Binary64.

(** ** [smart_proxy_manager.py]: the health registry *)

Module SmartProxyManager.

Local Open Scope string_scope.

#[local] Instance Q_eq_dec : EqDecision Q.
Proof. solve_decision. Defined.

(** A proxy dict; [None] is a missing key. *)
Record Proxy : Type := {
  url : option string;
  type : option string;
  country : option string;
  city : option string;
  id : option string;
  created_at : option Q
}.

#[global] Instance Proxy_eq_dec : EqDecision Proxy.
Proof. solve_decision. Defined.

(** [proxy.get('url', proxy.get('id'))]; [None] is Python's [None]. *)
Definition proxy_id (proxy : Proxy) : option string :=
  match url proxy with
  | Some u => Some u
  | None => id proxy
  end.

(** An entry of [self.proxy_health] (the keys [geolocation], [isp] and
    [asn] stay [None] throughout and are left out). *)
Record Health : Type := {
  success_count : nat;
  failure_count : nat;
  total_requests : nat;
  avg_response_time : list Q;
  last_used : option Q;
  last_success : option Q;
  last_failure : option Q;
  blocked_sites : gset string;
  success_rate : Q
}.

Definition default_health : Health :=
  {| success_count := 0; failure_count := 0; total_requests := 0;
     avg_response_time := []; last_used := None; last_success := None;
     last_failure := None; blocked_sites := ∅; success_rate := 100.0 |}.

(** An entry of [self.site_proxy_performance[url]]; the two counters are
    keys that the first successful report adds. *)
Record SitePerf : Type := {
  site_success_rate : Q;
  site_avg_response_time : Q;
  site_last_used : option Q;
  site_success_count : option nat;
  site_total_count : option nat
}.

Definition default_site_perf : SitePerf :=
  {| site_success_rate := 0; site_avg_response_time := 0;
     site_last_used := None; site_success_count := None;
     site_total_count := None |}.

Record State : Type := {
  proxy_pools : list (string * list Proxy);
  proxy_health : gmap (option string) Health;
  site_proxy_performance : gmap string (gmap (option string) SitePerf);
  total_cost : Q
}.

(** [self.proxy_costs.get(proxy_type)] *)
Definition proxy_costs (proxy_type : string) : option Q :=
  if String.eqb proxy_type "residential" then Some 0.001
  else if String.eqb proxy_type "datacenter" then Some 0.0001
  else if String.eqb proxy_type "mobile" then Some 0.01
  else if String.eqb proxy_type "static" then Some 0.0005
  else None.

(** [SmartProxyManager()], with the proxies loaded into the residential
    pool. *)
Definition init (residential : list Proxy) : State :=
  {| proxy_pools :=
       [ ("residential", residential); ("datacenter", []);
         ("mobile", []); ("static", []) ];
     proxy_health := ∅; site_proxy_performance := ∅; total_cost := 0.0 |}.

Definition health_of (hm : gmap (option string) Health) (pid : option string)
    : Health :=
  default default_health (hm !! pid).

Definition set_health (pid : option string) (h : Health) (st : State) : State :=
  {| proxy_pools := proxy_pools st;
     proxy_health := <[pid := h]> (proxy_health st);
     site_proxy_performance := site_proxy_performance st;
     total_cost := total_cost st |}.

Definition site_of (st : State) (url : string) (pid : option string)
    : SitePerf :=
  default default_site_perf
    (default ∅ (site_proxy_performance st !! url) !! pid).

Definition set_site (url : string) (pid : option string) (sp : SitePerf)
    (st : State) : State :=
  {| proxy_pools := proxy_pools st;
     proxy_health := proxy_health st;
     site_proxy_performance :=
       <[url := <[pid := sp]> (default ∅ (site_proxy_performance st !! url))]>
         (site_proxy_performance st);
     total_cost := total_cost st |}.

(** *** [_update_proxy_usage]; [now] is [datetime.now()].  [total_cost]
    is the exact sum of the unit prices; the [float] sum of the source
    rounds at every addition. *)
Definition _update_proxy_usage (now : Q) (proxy : Proxy) (url : string)
    (st : State) : State :=
  let pid := proxy_id proxy in
  let h := health_of (proxy_health st) pid in
  let st1 :=
    set_health pid
      {| success_count := success_count h;
         failure_count := failure_count h;
         total_requests := total_requests h + 1;
         avg_response_time := avg_response_time h;
         last_used := Some now;
         last_success := last_success h;
         last_failure := last_failure h;
         blocked_sites := blocked_sites h;
         success_rate := success_rate h |} st in
  let proxy_type := default "datacenter" (type proxy) in
  {| proxy_pools := proxy_pools st1;
     proxy_health := proxy_health st1;
     site_proxy_performance := site_proxy_performance st1;
     total_cost := total_cost st1 + default 0.0001 (proxy_costs proxy_type) |}.

(** *** [get_optimal_proxy]. The requirement filter and the rotation
    strategy (random draws, the classifier) only read the registry;
    [selected_proxy] is the proxy the strategy returned. *)
Definition get_optimal_proxy (now : Q) (selected_proxy : option Proxy)
    (url : string) (st : State) : option Proxy * State :=
  match selected_proxy with
  | Some proxy => (Some proxy, _update_proxy_usage now proxy url st)
  | None => (None, st)
  end.

(** [if response_time:] *)
Definition given (response_time : option Q) : option Q :=
  match response_time with
  | Some r => if truthy r then Some r else None
  | None => None
  end.

(** [if error and 'blocked' in error.lower()] *)
Definition is_blocked (error : option string) : bool :=
  match error with
  | Some e => negb (String.eqb e EmptyString) && contains "blocked" (lower e)
  | None => false
  end.

(** The global half of [report_proxy_result]. *)
Definition report_health (now : Q) (url : string) (success : bool)
    (response_time : option Q) (error : option string) (h : Health) : Health :=
  let sc := if success then (success_count h + 1)%nat else success_count h in
  let fc := if success then failure_count h else (failure_count h + 1)%nat in
  let total := (sc + fc)%nat in
  {| success_count := sc;
     failure_count := fc;
     total_requests := total_requests h;
     avg_response_time :=
       match given response_time with
       | Some r => last_n 100 (avg_response_time h ++ [r])%list
       | None => avg_response_time h
       end;
     last_used := last_used h;
     last_success := if success then Some now else last_success h;
     last_failure := if success then last_failure h else Some now;
     blocked_sites :=
       if negb success && is_blocked error
       then {[url]} ∪ blocked_sites h else blocked_sites h;
     success_rate :=
       if (0 <? total)%nat then of_nat sc / of_nat total * 100 else 100.0 |}.

(** The per-site half of [report_proxy_result]. *)
Definition report_site (now : Q) (success : bool) (response_time : option Q)
    (sp : SitePerf) : SitePerf :=
  if success then
    let current_success := (default 0%nat (site_success_count sp) + 1)%nat in
    let current_total := (default 0%nat (site_total_count sp) + 1)%nat in
    {| site_success_rate := of_nat current_success / of_nat current_total;
       site_avg_response_time :=
         match given response_time with
         | Some r =>
             let current_avg := site_avg_response_time sp in
             (current_avg * (of_nat current_total - 1) + r)
             / of_nat current_total
         | None => site_avg_response_time sp
         end;
       site_last_used := Some now;
       site_success_count := Some current_success;
       site_total_count := Some current_total |}
  else
    {| site_success_rate := site_success_rate sp;
       site_avg_response_time := site_avg_response_time sp;
       site_last_used := Some now;
       site_success_count := site_success_count sp;
       site_total_count := site_total_count sp |}.

(** *** [report_proxy_result]; [now_health] and [now_site] are the two
    readings of [datetime.now()]. *)
Definition report_proxy_result (now_health now_site : Q) (proxy : Proxy)
    (url : string) (success : bool) (response_time : option Q)
    (error : option string) (st : State) : State :=
  let pid := proxy_id proxy in
  let st1 :=
    set_health pid
      (report_health now_health url success response_time error
         (health_of (proxy_health st) pid)) st in
  set_site url pid
    (report_site now_site success response_time (site_of st1 url pid)) st1.

(** *** [cleanup_failed_proxies] *)

(** The removal test: enough attempts and a success rate (in percent)
    below the threshold. *)
Definition failing (failure_threshold : Q) (h : Health) : bool :=
  (20 <? total_requests h)%nat
  && Qltb (success_rate h) (failure_threshold * 100).

(** One round of the first loop over a pool: the read of
    [self.proxy_health] leaves an entry behind, a failing proxy joins
    [to_remove]. *)
Definition scan_proxy (failure_threshold : Q)
    (acc : list Proxy * gmap (option string) Health) (proxy : Proxy)
    : list Proxy * gmap (option string) Health :=
  let pid := proxy_id proxy in
  let health := health_of (snd acc) pid in
  let hm1 := <[pid := health]> (snd acc) in
  if failing failure_threshold health
  then ((fst acc ++ [proxy])%list, hm1)
  else (fst acc, hm1).

Definition scan_pool (failure_threshold : Q) (proxies : list Proxy)
    (hm : gmap (option string) Health)
    : list Proxy * gmap (option string) Health :=
  foldl (scan_proxy failure_threshold) ([], hm) proxies.

(** [l.remove(x)]: the first element equal to [x] leaves; [None] is the
    [ValueError] of a missing element. *)
Fixpoint list_remove (x : Proxy) (l : list Proxy) : option (list Proxy) :=
  match l with
  | [] => None
  | y :: t =>
      if decide (y = x) then Some t else cons y <$> list_remove x t
  end.

(** [del d[k]]; [None] is the [KeyError] of a missing key. *)
Definition dict_del (pid : option string) (hm : gmap (option string) Health)
    : option (gmap (option string) Health) :=
  match hm !! pid with
  | Some _ => Some (delete pid hm)
  | None => None
  end.

(** One round of the second loop over a pool; it stops at the first
    exception. *)
Definition remove_proxy
    (acc : option (list Proxy * gmap (option string) Health)) (proxy : Proxy)
    : option (list Proxy * gmap (option string) Health) :=
  '(proxies, hm) ← acc;
  proxies1 ← list_remove proxy proxies;
  hm1 ← dict_del (proxy_id proxy) hm;
  Some (proxies1, hm1).

Definition remove_failed (to_remove : list Proxy) (proxies : list Proxy)
    (hm : gmap (option string) Health)
    : option (list Proxy * gmap (option string) Health) :=
  foldl remove_proxy (Some (proxies, hm)) to_remove.

(** One round of the loop over [self.proxy_pools.items()]: the count so
    far, the pools already treated, and the registry. *)
Definition cleanup_pool (failure_threshold : Q)
    (acc : option (nat * list (string * list Proxy)
                   * gmap (option string) Health))
    (pool : string * list Proxy)
    : option (nat * list (string * list Proxy)
              * gmap (option string) Health) :=
  '(removed_count, pools, hm) ← acc;
  let '(to_remove, hm1) := scan_pool failure_threshold (snd pool) hm in
  '(proxies1, hm2) ← remove_failed to_remove (snd pool) hm1;
  Some ((removed_count + List.length to_remove)%nat,
        (pools ++ [(fst pool, proxies1)])%list, hm2).

(** [cleanup_failed_proxies(failure_threshold)]: the count returned and
    the state left, or [None] when the call raises. *)
Definition cleanup_failed_proxies (failure_threshold : Q) (st : State)
    : option (nat * State) :=
  '(removed_count, pools, hm) ←
    foldl (cleanup_pool failure_threshold)
          (Some (0%nat, [], proxy_health st)) (proxy_pools st);
  Some (removed_count,
        {| proxy_pools := pools;
           proxy_health := hm;
           site_proxy_performance := site_proxy_performance st;
           total_cost := total_cost st |}).

(** *** Runs of the registry *)

Inductive Op : Type :=
| OpGetOptimalProxy (now : Q) (selected_proxy : option Proxy) (url : string)
| OpReportProxyResult (now_health now_site : Q) (proxy : Proxy)
    (url : string) (success : bool) (response_time : option Q)
    (error : option string).

Definition step (st : State) (op : Op) : State :=
  match op with
  | OpGetOptimalProxy now selected_proxy url =>
      snd (get_optimal_proxy now selected_proxy url st)
  | OpReportProxyResult now_health now_site proxy url success
      response_time error =>
      report_proxy_result now_health now_site proxy url success
        response_time error st
  end.

Definition run (ops : list Op) (st : State) : State := foldl step st ops.

(** The selections of the proxy [pid] in a run, and the reports on it. *)
Definition selects (pid : option string) (op : Op) : bool :=
  match op with
  | OpGetOptimalProxy _ (Some proxy) _ => bool_decide (proxy_id proxy = pid)
  | _ => false
  end.

Definition reports (pid : option string) (op : Op) : bool :=
  match op with
  | OpReportProxyResult _ _ proxy _ _ _ _ => bool_decide (proxy_id proxy = pid)
  | _ => false
  end.

(** *** The proxy selector *)

(** The [requirements] dict; [None] is a missing key. *)
Record Requirements : Type := {
  geo : option string;
  min_success_rate : option Q;
  max_response_time : option Q;
  proxy_type : option string;
  avoid_datacenter : option bool
}.

(** [requirements or {}] for a missing argument. *)
Definition no_requirements : Requirements :=
  {| geo := None; min_success_rate := None; max_response_time := None;
     proxy_type := None; avoid_datacenter := None |}.

(** [requirements.get(key)] as a condition: the empty string is falsy. *)
Definition wanted (o : option string) : option string :=
  match o with
  | Some s => if String.eqb s EmptyString then None else Some s
  | None => None
  end.

(** [np.mean(l)] of a non-empty list. *)
Definition mean (l : list Q) : Q :=
  foldl Qplus 0 l / of_nat (List.length l).

(** The entry a read of [self.proxy_health[pid]] leaves behind. *)
Definition touch_health (pid : option string) (st : State) : State :=
  set_health pid (health_of (proxy_health st) pid) st.

(** The entry a read of [self.site_proxy_performance[url][pid]] leaves
    behind. *)
Definition touch_site (url : string) (pid : option string) (st : State)
    : State :=
  set_site url pid (site_of st url pid) st.

(** The tests of [_filter_proxies] on one proxy of an admitted pool;
    [now] is the reading of [datetime.now()] for this proxy. *)
Definition admits (now : Q) (requirements : Requirements) (health : Health)
    (proxy : Proxy) : bool :=
  match given (min_success_rate requirements) with
  | Some m => negb (Qltb (success_rate health) (m * 100))
  | None => true
  end
  && match given (max_response_time requirements), avg_response_time health with
     | Some m, _ :: _ => negb (Qltb m (mean (avg_response_time health)))
     | _, _ => true
     end
  && match wanted (geo requirements) with
     | Some g => bool_decide (country proxy = Some g)
     | None => true
     end
  && match last_used health with
     | Some t => negb (Qltb (now - t) 30)
     | None => true
     end.

(** The tests of [_filter_proxies] on a pool as a whole. *)
Definition pool_admitted (requirements : Requirements) (pool_type : string)
    : bool :=
  match wanted (proxy_type requirements) with
  | Some t => String.eqb pool_type t
  | None => true
  end
  && negb (default false (avoid_datacenter requirements)
           && String.eqb pool_type "datacenter").

(** One round of the inner loop of [_filter_proxies]. *)
Definition filter_proxy (clock : Proxy -> Q) (requirements : Requirements)
    (acc : list Proxy * State) (proxy : Proxy) : list Proxy * State :=
  let pid := proxy_id proxy in
  let health := health_of (proxy_health (snd acc)) pid in
  let st1 := touch_health pid (snd acc) in
  if admits (clock proxy) requirements health proxy
  then ((fst acc ++ [proxy])%list, st1)
  else (fst acc, st1).

(** One round of the outer loop of [_filter_proxies]. *)
Definition filter_pool (clock : Proxy -> Q) (requirements : Requirements)
    (acc : list Proxy * State) (pool : string * list Proxy)
    : list Proxy * State :=
  if pool_admitted requirements (fst pool)
  then foldl (filter_proxy clock requirements) acc (snd pool)
  else acc.

(** [_filter_proxies(requirements)]; [clock proxy] is the reading of
    [datetime.now()] when the cooldown of [proxy] is tested. *)
Definition _filter_proxies (clock : Proxy -> Q) (requirements : Requirements)
    (st : State) : list Proxy * State :=
  foldl (filter_pool clock requirements) ([], st) (proxy_pools st).

(** [_get_all_proxies()] *)
Definition _get_all_proxies (st : State) : list Proxy :=
  concat (snd <$> proxy_pools st).

(** [sorted(l, key=...)]: a stable sort, here by insertion from the
    right; [lt] is the order of the keys. With [reverse=True] the order
    is flipped and equal keys still keep their places. *)
Fixpoint insert_by {A K : Type} (lt : K -> K -> bool) (key : A -> K) (x : A)
    (l : list A) : list A :=
  match l with
  | [] => [x]
  | y :: t =>
      if lt (key y) (key x) then y :: insert_by lt key x t else x :: y :: t
  end.

Definition sorted_by {A K : Type} (lt : K -> K -> bool) (key : A -> K)
    (l : list A) : list A :=
  foldr (insert_by lt key) [] l.

(** [min(l, key=...)]: the first of the smallest elements. *)
Definition min_by {A : Type} (key : A -> nat) (l : list A) : option A :=
  match l with
  | [] => None
  | x :: t =>
      Some (foldl (fun best y => if (key y <? key best)%nat then y else best) x t)
  end.

(** The order of [last_used or datetime.min]: no use comes before every
    use. *)
Definition used_before (a b : option Q) : bool :=
  match a, b with
  | None, Some _ => true
  | Some x, Some y => Qltb x y
  | _, None => false
  end.

(** The reads of [self.proxy_health] by a key function. *)
Definition touch_all (proxies : list Proxy) (st : State) : State :=
  foldl (fun s proxy => touch_health (proxy_id proxy) s) st proxies.

(** [_round_robin_selection(proxies, url)] *)
Definition _round_robin_selection (proxies : list Proxy) (url : string)
    (st : State) : option Proxy * State :=
  match proxies with
  | [] => (None, st)
  | _ =>
      (head (sorted_by used_before
               (fun p => last_used (health_of (proxy_health st) (proxy_id p)))
               proxies),
       touch_all proxies st)
  end.

(** [_least_used_selection(proxies, url)] *)
Definition _least_used_selection (proxies : list Proxy) (url : string)
    (st : State) : option Proxy * State :=
  match proxies with
  | [] => (None, st)
  | _ =>
      (min_by (fun p => total_requests (health_of (proxy_health st) (proxy_id p)))
              proxies,
       touch_all proxies st)
  end.

(** The score of a proxy in [_best_performing_selection]: the per-site
    rate, or the global rate (in percent) when the per-site rate is 0. *)
Definition site_score (url : string) (st : State) (proxy : Proxy) : Q :=
  let score := site_success_rate (site_of st url (proxy_id proxy)) in
  if Qeq_bool score 0
  then success_rate (health_of (proxy_health st) (proxy_id proxy))
  else score.

(** One round of the loop of [_best_performing_selection], for its
    reads. *)
Definition touch_scored (url : string) (st : State) (proxy : Proxy) : State :=
  let pid := proxy_id proxy in
  let score := site_success_rate (site_of st url pid) in
  let st1 := touch_site url pid st in
  if Qeq_bool score 0 then touch_health pid st1 else st1.

(** [_best_performing_selection(proxies, url)] *)
Definition _best_performing_selection (proxies : list Proxy) (url : string)
    (st : State) : option Proxy * State :=
  match proxies with
  | [] => (None, st)
  | _ =>
      (head (sorted_by (fun a b => Qltb b a) (site_score url st) proxies),
       foldl (touch_scored url) st proxies)
  end.

(** [get_optimal_proxy(url, strategy, requirements)] for a strategy
    function: the filter, the fallback to every proxy, the strategy, and
    the usage update of [get_optimal_proxy] above. *)
Definition select_with
    (strategy_func : list Proxy -> string -> State -> option Proxy * State)
    (clock : Proxy -> Q) (now : Q) (url : string)
    (requirements : Requirements) (st : State) : option Proxy * State :=
  let '(available_proxies, st1) := _filter_proxies clock requirements st in
  let available_proxies :=
    match available_proxies with
    | [] => _get_all_proxies st1
    | _ => available_proxies
    end in
  match available_proxies with
  | [] => (None, st1)
  | _ =>
      let '(selected_proxy, st2) := strategy_func available_proxies url st1 in
      get_optimal_proxy now selected_proxy url st2
  end.

(** [_estimate_site_difficulty(url)] *)
Definition difficult_patterns : list (string * Z) :=
  [ ("cloudflare", 4%Z); ("amazon", 3%Z); ("google", 3%Z); ("facebook", 4%Z);
    ("linkedin", 4%Z); ("instagram", 4%Z); ("twitter", 3%Z); ("ebay", 3%Z);
    ("walmart", 3%Z); ("bestbuy", 3%Z) ].

Definition _estimate_site_difficulty (url : string) : Z :=
  let url_lower := lower url in
  match List.find (fun entry => contains (fst entry) url_lower)
                  difficult_patterns with
  | Some entry => snd entry
  | None => 2%Z
  end.

End SmartProxyManager.

Import SmartProxyManager.

(** ** Vocabulary of the properties *)

Section Vocabulary.

Local Open Scope string_scope.

(** A status code of 400 or more. *)
Definition status_signal (status_code : option Z) : bool :=
  match status_code with
  | Some c => (400 <=? c)%Z
  | None => false
  end.

(** A ban pattern or an error-page indicator occurs in the body. *)
Definition body_signal (html_content : option string) : bool :=
  match html_content with
  | Some h =>
      existsb (fun entry => existsb (fun p => re_search p (lower h)) (snd entry))
              ban_patterns
      || existsb (fun indicator => contains indicator (lower h))
                 error_indicators
  | None => false
  end.

(** A Cloudflare header, a retry-after header, or a rate-limit header
    that reads zero. *)
Definition header_signal (headers : option Headers) : bool :=
  match headers with
  | Some hs =>
      let hl := headers_lower hs in
      has_key "cf-ray" hl || has_key "cf-cache-status" hl
      || has_key "retry-after" hl
      || match hl !! "x-ratelimit-remaining" with
         | Some remaining => str_is_zero remaining
         | None => false
         end
  | None => false
  end.

(** A rate-limit header that reads zero: [str(remaining) == '0'] for the
    [x-ratelimit-remaining] entry of the lower-cased headers. *)
Definition rate_limit_spent (headers : Headers) : bool :=
  match headers_lower headers !! "x-ratelimit-remaining" with
  | Some remaining => str_is_zero remaining
  | None => false
  end.

(** Every confidence the classifier handles lies in the unit interval. *)
Definition unit_conf (r : BanType * Q) : Prop := 0 <= snd r <= 1.

(** The score invariant of the reputation store: every record, and the
    record a first read would create, has a score in (0, 1]. *)
Definition score_inv (st : BanDetector.State) : Prop :=
  forall domain, 0 < reputation_score (reputation_of st domain) <= 1.

(** The largest [retry_after] that the events carry, if one does. *)
Definition max_retry_after (events : list BanEvent) : option Q :=
  foldl (fun acc ev =>
           match ev_metadata ev !! "retry_after", acc with
           | Some r, Some m => Some (Qmax m r)
           | Some r, None => Some r
           | None, _ => acc
           end) None events.

(** A wait raised to a suggested one, when there is one. *)
Definition raised (wait : Q) (suggested : option Q) : Q :=
  match suggested with
  | Some r => Qmax wait r
  | None => wait
  end.

(** The backoff in the specification's words: the capped exponential
    wait, then raised to the largest [retry_after] of the five most
    recent events. *)
Definition spec_wait_time (jitter : Q) (attempt : Z) (events : list BanEvent)
    : Q :=
  raised (Qmin max_wait_time (base_wait_time * 2 ^ attempt + jitter))
         (max_retry_after (last_n 5 events)).

(** The backoff with the cap applied last. *)
Definition capped_wait_time (jitter : Q) (attempt : Z)
    (events : list BanEvent) : Q :=
  Qmin max_wait_time
       (raised (base_wait_time * 2 ^ attempt + jitter)
               (max_retry_after (last_n 5 events))).

(** A domain with one recorded ban whose metadata asks for ten minutes. *)
Definition st_retry_600 : BanDetector.State :=
  record_ban 1000 1000 "example.com" RATE_LIMIT
    (Some {["retry_after" := 600]}) BanDetector.init.

(** Eleven bans in a row, one a second. *)
Definition eleven_bans : list BanArgs :=
  map (fun n => (1000 + of_nat n, 1000 + of_nat n, IP_BAN, None)) (seq 1 11).

(** The ban types without an entry in [self.recovery_strategies]. *)
Definition unlisted_ban_types : list BanType :=
  [NONE; ACCESS_DENIED; TEMPORARY; PERMANENT].

(** A store that remembers a successful recovery from a rate limit. *)
Definition st_recovered : BanDetector.State :=
  {| ban_history := ∅; recovery_attempts := {["example.com" := 1%nat]};
     successful_recoveries :=
       {["example.com" :=
           [{| ban_type := RATE_LIMIT; strategy := SLOW_DOWN;
               timestamp := 1000 |}]]};
     domain_reputation := ∅ |}.

(** The number of times a run selects the proxy [pid], and the number of
    outcomes it reports on it. *)
Definition selections (pid : option string) (ops : list SmartProxyManager.Op)
    : nat :=
  List.length (List.filter (selects pid) ops).

Definition outcomes (pid : option string) (ops : list SmartProxyManager.Op)
    : nat :=
  List.length (List.filter (reports pid) ops).

(** Every proxy of the pools, pool after pool. *)
Definition pooled (pools : list (string * list Proxy)) : list Proxy :=
  concat (snd <$> pools).

Definition all_proxies (st : SmartProxyManager.State) : list Proxy :=
  pooled (proxy_pools st).

(** A proxy stays when its record does not meet the removal test. *)
Definition stays (failure_threshold : Q) (hm : gmap (option string) Health)
    (proxy : Proxy) : bool :=
  negb (failing failure_threshold (health_of hm (proxy_id proxy))).

(** The pools without the proxies that meet the removal test. *)
Definition pruned (failure_threshold : Q) (hm : gmap (option string) Health)
    (pool : string * list Proxy) : string * list Proxy :=
  (fst pool, List.filter (stays failure_threshold hm) (snd pool)).

Definition pruned_pools (failure_threshold : Q) (st : SmartProxyManager.State)
    : list (string * list Proxy) :=
  pruned failure_threshold (proxy_health st) <$> proxy_pools st.

(** The number of proxies that meet the removal test. *)
Definition leaves (failure_threshold : Q) (hm : gmap (option string) Health)
    (proxy : Proxy) : bool :=
  failing failure_threshold (health_of hm (proxy_id proxy)).

Definition failing_count (failure_threshold : Q)
    (st : SmartProxyManager.State) : nat :=
  List.length
    (List.filter (leaves failure_threshold (proxy_health st)) (all_proxies st)).

(** Three residential proxies and runs that use them. *)
Definition proxy_of (u : string) : Proxy :=
  {| url := Some u; type := Some "residential"; country := Some "US";
     city := None; id := None; created_at := Some 1000 |}.

Definition proxy_a : Proxy := proxy_of "http://a.example:8080".
Definition proxy_b : Proxy := proxy_of "http://b.example:8080".
Definition proxy_c : Proxy := proxy_of "http://c.example:8080".

(** [n] selections of a proxy, each followed by a reported failure. *)
Definition failed_uses (n : nat) (proxy : Proxy) : list SmartProxyManager.Op :=
  concat
    (replicate n
       [ OpGetOptimalProxy 2000 (Some proxy) "shop.example";
         OpReportProxyResult 2001 2002 proxy "shop.example" false None
           (Some "Blocked by the site") ]).

(** Proxy a has failed 20 times, proxy b 21 times, proxy c is unused. *)
Definition st_worn : SmartProxyManager.State :=
  SmartProxyManager.run (failed_uses 20 proxy_a ++ failed_uses 21 proxy_b)
    (SmartProxyManager.init [proxy_a; proxy_b; proxy_c]).

(** The failing proxy b is pooled twice. *)
Definition st_twice : SmartProxyManager.State :=
  SmartProxyManager.run (failed_uses 21 proxy_b)
    (SmartProxyManager.init [proxy_a; proxy_b; proxy_b]).

(** A failure, then a success with a response time, for one pair. *)
Definition fail_then_succeed : list SmartProxyManager.Op :=
  [ OpReportProxyResult 2001 2002 proxy_a "shop.example" false None
      (Some "timeout");
    OpReportProxyResult 2003 2004 proxy_a "shop.example" true (Some 2) None ].

(** What every per-site entry satisfies: its two counters agree, and its
    success rate is 0 or 1. *)
Definition site_inv (sp : SitePerf) : Prop :=
  site_success_count sp = site_total_count sp
  /\ (site_success_rate sp == 0 \/ site_success_rate sp == 1).

(** A success without a response time, then one that took two seconds. *)
Definition succeed_twice : list SmartProxyManager.Op :=
  [ OpReportProxyResult 2001 2002 proxy_a "shop.example" true None None;
    OpReportProxyResult 2003 2004 proxy_a "shop.example" true (Some 2) None ].

(** What the classifier can return: NONE with the confidence 0 or the
    baseline 0.5, ACCESS_DENIED with 0.7, a type with patterns or a
    status or header rule with a confidence from 0.3 to 0.99, and no
    other type. *)
Definition well_graded (r : BanType * Q) : Prop :=
  match fst r with
  | NONE => snd r = 0.0 \/ snd r = 0.5
  | ACCESS_DENIED => snd r = 0.7
  | FINGERPRINT | TEMPORARY | PERMANENT => False
  | _ => 0.3 <= snd r <= 0.99
  end.

(** The test of [scrape] in [advanced_scraper_ultra.py] on the result of
    [detect_ban]: [ban_type != BanType.NONE and confidence > 0.7]. *)
Definition acts_on_ban (r : BanType * Q) : bool :=
  negb (bool_decide (fst r = NONE)) && Qltb 0.7 (snd r).

(** [self.successful_recoveries[domain]], read. *)
Definition recoveries_of (st : BanDetector.State) (domain : string)
    : list RecoveryRecord :=
  default [] (successful_recoveries st !! domain).

(** All that the detector holds about one domain. *)
Definition view (st : BanDetector.State) (domain : string)
    : Reputation * list BanEvent * nat * list RecoveryRecord :=
  (reputation_of st domain, history_of st domain, attempts_of st domain,
   recoveries_of st domain).

(** The domain a call is about. *)
Definition call_domain (c : Call) : string :=
  match c with
  | CallOp (OpRecordBan _ _ domain _ _) => domain
  | CallOp (OpUpdateReputation domain _) => domain
  | CallOp (OpShouldProceed _ domain) => domain
  | CallOp (OpGetRecoveryStrategy domain _) => domain
  | CallOp (OpCalculateWaitTime _ domain _) => domain
  | CallOp (OpResetDomain domain) => domain
  | CallExecuteRecovery _ _ domain _ _ => domain
  | CallGetDomainHealth _ _ domain => domain
  end.

(** What every run of the detector keeps for every domain: the score in
    (0, 1], no more successes than requests, and a ban history of at most
    100 events that is no longer than the ban count. *)
Definition store_inv (st : BanDetector.State) : Prop :=
  forall domain,
    let r := reputation_of st domain in
    0 < reputation_score r <= 1
    /\ (successes r <= requests r)%nat
    /\ (List.length (history_of st domain) <= 100)%nat
    /\ (List.length (history_of st domain) <= bans r)%nat.

(** The strategy on record for a ban type of a domain, if there is one. *)
Definition remembered (st : BanDetector.State) (domain : string) (b : BanType)
    : option RecoveryStrategy :=
  past_strategy b (recoveries_of st domain).

(** A detector after one ban, with the clock at 5000. *)
Definition st_banned : BanDetector.State :=
  record_ban 5000 5000 "example.com" IP_BAN None BanDetector.init.

(** What one operation of the registry does to the record of the proxy
    [pid]. *)
Definition health_step (op : SmartProxyManager.Op) (pid : option string)
    (h : Health) : Health :=
  match op with
  | OpGetOptimalProxy now (Some proxy) _ =>
      if decide (proxy_id proxy = pid)
      then {| success_count := success_count h;
              failure_count := failure_count h;
              total_requests := total_requests h + 1;
              avg_response_time := avg_response_time h;
              last_used := Some now;
              last_success := last_success h;
              last_failure := last_failure h;
              blocked_sites := blocked_sites h;
              success_rate := success_rate h |}
      else h
  | OpGetOptimalProxy _ None _ => h
  | OpReportProxyResult now _ proxy url success response_time error =>
      if decide (proxy_id proxy = pid)
      then report_health now url success response_time error h
      else h
  end.

(** The success rate that the counters of a record stand for, in
    percent; 100 before the first report. *)
Definition rate_of_counts (h : Health) : Q :=
  if (0 <? success_count h + failure_count h)%nat
  then of_nat (success_count h)
       / of_nat (success_count h + failure_count h) * 100
  else 100.

(** A report that marks [url] as blocked for the proxy [pid]: a failure
    whose error text holds the word blocked, in any letter case. *)
Definition marks_blocked (pid : option string) (url : string)
    (op : SmartProxyManager.Op) : bool :=
  match op with
  | OpReportProxyResult _ _ proxy url' success _ error =>
      bool_decide (proxy_id proxy = pid) && bool_decide (url' = url)
      && negb success && is_blocked error
  | _ => false
  end.

(** The proxies that a run selects, in order. *)
Definition selected (ops : list SmartProxyManager.Op) : list Proxy :=
  omap (fun op =>
          match op with
          | OpGetOptimalProxy _ selected_proxy _ => selected_proxy
          | _ => None
          end) ops.

(** The price of one use of a proxy: that of its class, of a datacenter
    proxy when it names none, 0.0001 for a class without a price. *)
Definition unit_cost (proxy : Proxy) : Q :=
  default 0.0001 (proxy_costs (default "datacenter" (type proxy))).

(** Two states of the registry that differ at most in entries left
    behind by reads: the same pools, the same record for every proxy, the
    same per-site entry for every pair, the same cost. *)
Definition same_records (st st' : SmartProxyManager.State) : Prop :=
  proxy_pools st' = proxy_pools st
  /\ (forall pid,
        health_of (proxy_health st') pid = health_of (proxy_health st) pid)
  /\ (forall url pid, site_of st' url pid = site_of st url pid)
  /\ total_cost st' = total_cost st.

(** The proxies that pass the filter, pool by pool. *)
Definition admitted (clock : Proxy -> Q) (requirements : Requirements)
    (st : SmartProxyManager.State) : list Proxy :=
  concat
    ((fun pool =>
        if pool_admitted requirements (fst pool)
        then List.filter
               (fun p => admits (clock p) requirements
                           (health_of (proxy_health st) (proxy_id p)) p)
               (snd pool)
        else []) <$> proxy_pools st).

(** The proxies a strategy chooses from: those that pass the filter, or
    every proxy when none does. *)
Definition candidates (clock : Proxy -> Q) (requirements : Requirements)
    (st : SmartProxyManager.State) : list Proxy :=
  match admitted clock requirements st with
  | [] => _get_all_proxies st
  | l => l
  end.

(** The strategies that choose without a random draw or the classifier. *)
Definition plain_strategies
    : list (list Proxy -> string -> SmartProxyManager.State
            -> option Proxy * SmartProxyManager.State) :=
  [_round_robin_selection; _least_used_selection; _best_performing_selection].

(** A registry with one proxy in use and one unused, and requirements
    that ask for a proxy in the US. *)
Definition st_used_once : SmartProxyManager.State :=
  SmartProxyManager.run
    [OpGetOptimalProxy 2000 (Some proxy_a) "shop.example"]
    (SmartProxyManager.init [proxy_a; proxy_b]).

Definition wants_us : Requirements :=
  {| geo := Some "US"; min_success_rate := None; max_response_time := None;
     proxy_type := None; avoid_datacenter := Some true |}.

End Vocabulary.

(** ** Python numerics: comparison, minimum and maximum *)

Section PyNumFacts.

Lemma Qltb_lt a b : Qltb a b = true <-> a < b.
Proof.
  unfold Qltb. rewrite negb_true_iff.
  destruct (Qle_bool b a) eqn:E.
  - apply Qle_bool_iff in E. split; [discriminate | intros H; exfalso; lra].
  - split; [intros _ | reflexivity].
    destruct (Qlt_le_dec a b) as [|H]; [assumption |].
    apply Qle_bool_iff in H. congruence.
Qed.

Lemma Qltb_ge a b : Qltb a b = false <-> b <= a.
Proof.
  unfold Qltb. rewrite negb_false_iff. apply Qle_bool_iff.
Qed.

Lemma py_min_spec a b : py_min a b == Qmin a b.
Proof.
  unfold py_min. destruct (Qltb b a) eqn:E.
  - apply Qltb_lt in E. symmetry. apply Q.min_r. lra.
  - apply Qltb_ge in E. symmetry. apply Q.min_l. exact E.
Qed.

Lemma py_max_spec a b : py_max a b == Qmax a b.
Proof.
  unfold py_max. destruct (Qltb a b) eqn:E.
  - apply Qltb_lt in E. symmetry. apply Q.max_r. lra.
  - apply Qltb_ge in E. symmetry. apply Q.max_l. exact E.
Qed.

Lemma truthy_true a : truthy a = true <-> ~ a == 0.
Proof.
  unfold truthy. rewrite negb_true_iff.
  destruct (Qeq_bool a 0) eqn:E.
  - apply Qeq_bool_iff in E. split; [discriminate | tauto].
  - split; [| reflexivity]. intros _ H. apply Qeq_bool_iff in H. congruence.
Qed.

End PyNumFacts.

(** ** Binary64: products that round below their argument

    The kernel's [float] is specified by [SpecFloat]: a finite number is a
    mantissa and an exponent, and a product is the exact product of the
    mantissas, shifted right and rounded to nearest, ties to even.  The
    lemmas below bound the rounded product of a score by a constant of
    [[0.5, 1)] from above, which is what [record_ban] and a reported
    failure compute. *)

Section Binary64Rounding.

Import Floats.

Local Open Scope Z_scope.

Lemma digits2_pos_size (p : positive) : digits2_pos p = Pos.size p.
Proof. induction p; simpl; congruence. Qed.

Lemma digits2_bounds (p : positive) :
  2 ^ (Zpos (digits2_pos p) - 1) <= Zpos p < 2 ^ Zpos (digits2_pos p).
Proof.
  rewrite digits2_pos_size.
  pose proof (Pos.size_gt p) as Hgt. pose proof (Pos.size_le p) as Hle.
  split.
  - assert (H : 2 ^ Zpos (Pos.size p) <= 2 * Zpos p).
    { change (2 * Zpos p) with (Zpos (p~0)). rewrite <- Pos2Z.inj_pow.
      apply Pos2Z.pos_le_pos. exact Hle. }
    replace (Zpos (Pos.size p)) with (Zpos (Pos.size p) - 1 + 1) in H by lia.
    rewrite Z.pow_add_r in H by lia. lia.
  - rewrite <- Pos2Z.inj_pow. apply Pos2Z.pos_lt_pos. exact Hgt.
Qed.

Lemma digits2_le (p : positive) (n : Z) :
  0 <= n -> Zpos p < 2 ^ n -> Zpos (digits2_pos p) <= n.
Proof.
  intros Hn H. destruct (digits2_bounds p) as [Hlo _].
  destruct (Z.le_gt_cases (Zpos (digits2_pos p)) n) as [|Hgt]; [assumption |].
  exfalso.
  assert (2 ^ n <= 2 ^ (Zpos (digits2_pos p) - 1))
    by (apply Z.pow_le_mono_r; lia).
  lia.
Qed.

Lemma Zdigits2_le (r n : Z) : 0 <= r < 2 ^ n -> 0 <= n -> Zdigits2 r <= n.
Proof.
  intros Hr Hn. destruct r as [|p|p]; simpl; [lia | | lia].
  apply digits2_le; lia.
Qed.

(** A shift to the right by one bit halves the mantissa. *)
Lemma shr_1_m (mrs : shr_record) :
  0 <= shr_m mrs -> shr_m (shr_1 mrs) = shr_m mrs / 2.
Proof.
  destruct mrs as [m r s]. simpl. intros Hm.
  destruct m as [|p|p]; [reflexivity | | lia].
  destruct p as [p|p|]; simpl.
  - rewrite Pos2Z.inj_xI. apply Z.div_unique with 1; lia.
  - rewrite Pos2Z.inj_xO. apply Z.div_unique with 0; lia.
  - reflexivity.
Qed.

Lemma iter_pos_shr_1 (p : positive) (mrs : shr_record) :
  0 <= shr_m mrs ->
  shr_m (iter_pos shr_1 p mrs) = shr_m mrs / 2 ^ Zpos p.
Proof.
  revert mrs. induction p as [p IH|p IH|]; intros mrs Hm; simpl iter_pos.
  - assert (H1 : 0 <= shr_m (shr_1 mrs))
      by (rewrite shr_1_m by assumption; apply Z.div_pos; lia).
    assert (H2 : 0 <= shr_m (iter_pos shr_1 p (shr_1 mrs)))
      by (rewrite IH by assumption; apply Z.div_pos; lia).
    rewrite IH, IH, shr_1_m by assumption.
    rewrite !Z.div_div by lia. f_equal.
    replace (Z.pos p~1) with (1 + Z.pos p + Z.pos p) by lia.
    rewrite !Z.pow_add_r by lia. change (2 ^ 1) with 2. ring.
  - assert (H2 : 0 <= shr_m (iter_pos shr_1 p mrs))
      by (rewrite IH by assumption; apply Z.div_pos; lia).
    rewrite IH, IH by assumption.
    rewrite !Z.div_div by lia. f_equal.
    replace (Z.pos p~0) with (Z.pos p + Z.pos p) by lia.
    rewrite !Z.pow_add_r by lia. ring.
  - rewrite shr_1_m by assumption. reflexivity.
Qed.

Lemma shr_spec (mrs : shr_record) (e n : Z) :
  0 <= shr_m mrs ->
  shr_m (fst (shr mrs e n)) = shr_m mrs / 2 ^ Z.max 0 n
  /\ snd (shr mrs e n) = e + Z.max 0 n.
Proof.
  intros Hm. destruct n as [|p|p]; simpl.
  - rewrite Z.div_1_r. split; [reflexivity | lia].
  - rewrite iter_pos_shr_1 by assumption. split; reflexivity.
  - rewrite Z.div_1_r. split; [reflexivity | lia].
Qed.

Lemma shr_fexp_spec (m e : Z) :
  0 <= m ->
  shr_m (fst (shr_fexp prec emax m e loc_Exact))
  = m / 2 ^ Z.max 0 (fexp prec emax (Zdigits2 m + e) - e)
  /\ snd (shr_fexp prec emax m e loc_Exact)
     = e + Z.max 0 (fexp prec emax (Zdigits2 m + e) - e).
Proof.
  intros Hm. unfold shr_fexp. simpl shr_record_of_loc.
  apply (shr_spec {| shr_m := m; shr_r := false; shr_s := false |}). exact Hm.
Qed.

(** Rounding to nearest keeps the mantissa or adds one to it. *)
Lemma round_nearest_even_bounds (m : Z) (l : location) :
  m <= round_nearest_even m l <= m + 1.
Proof.
  destruct l as [|[| |]]; simpl; try lia.
  destruct (Z.even m); lia.
Qed.

(** A finite number of binary64: the exponent is at least -1074, the
    mantissa has at most 53 bits, and exactly 53 above the subnormal
    range. *)
Lemma bounded_spec (m : positive) (e : Z) :
  bounded prec emax m e = true ->
  -1074 <= e <= 971
  /\ Zpos m < 2 ^ 53
  /\ (-1074 < e -> 2 ^ 52 <= Zpos m).
Proof.
  unfold bounded, canonical_mantissa, fexp, SpecFloat.emin, prec, emax.
  intros H. apply andb_prop in H as [Hc Hb].
  apply Z.eqb_eq in Hc. apply Z.leb_le in Hb.
  destruct (digits2_bounds m) as [Hlo Hhi].
  assert (Hd : Zpos (digits2_pos m) <= 53) by lia.
  split; [lia |]. split.
  - assert (2 ^ Zpos (digits2_pos m) <= 2 ^ 53)
      by (apply Z.pow_le_mono_r; lia).
    lia.
  - intros He. assert (Hd' : Zpos (digits2_pos m) = 53) by lia.
    rewrite Hd' in Hlo. exact Hlo.
Qed.

(** The comparison of two positive finite numbers is the comparison of
    their values [m * 2 ^ e], here scaled by [2 ^ - d]. *)
Lemma SFltb_finite (m1 m2 : positive) (e1 e2 d : Z) :
  bounded prec emax m1 e1 = true -> bounded prec emax m2 e2 = true ->
  d <= e1 -> d <= e2 ->
  Zpos m1 * 2 ^ (e1 - d) < Zpos m2 * 2 ^ (e2 - d) ->
  SFltb (S754_finite false m1 e1) (S754_finite false m2 e2) = true.
Proof.
  intros H1 H2 Hd1 Hd2 Hlt.
  apply bounded_spec in H1 as (He1 & Hm1 & Hn1).
  apply bounded_spec in H2 as (He2 & Hm2 & Hn2).
  unfold SFltb, SFcompare.
  destruct (Z.compare_spec e1 e2) as [Heq | Hlt' | Hgt]; [| reflexivity |].
  - subst e2. rewrite Pos.compare_cont_spec. simpl.
    assert (0 < 2 ^ (e1 - d)) by (apply Z.pow_pos_nonneg; lia).
    assert (Hm : Zpos m1 < Zpos m2)
      by (apply (Z.mul_lt_mono_pos_r (2 ^ (e1 - d))); assumption).
    apply Pos2Z.pos_lt_pos in Hm. apply Pos.compare_lt_iff in Hm. rewrite Hm.
    reflexivity.
  - exfalso. specialize (Hn1 ltac:(lia)).
    replace (e1 - d) with ((e1 - e2 - 1) + 1 + (e2 - d)) in Hlt by lia.
    rewrite !Z.pow_add_r in Hlt by lia. change (2 ^ 1) with 2 in Hlt.
    assert (HA : 0 < 2 ^ (e2 - d)) by (apply Z.pow_pos_nonneg; lia).
    assert (HB : 1 <= 2 ^ (e1 - e2 - 1)) by (apply (Z.pow_le_mono_r 2 0); lia).
    change (2 ^ 53) with (2 ^ 52 * 2) in Hm2.
    set (A := 2 ^ (e2 - d)) in *. set (B := 2 ^ (e1 - e2 - 1)) in *.
    set (T := 2 ^ 52) in *.
    assert (S1 : Zpos m2 * A < T * 2 * A)
      by (apply Z.mul_lt_mono_pos_r; assumption).
    assert (S2 : T * 2 * A <= Zpos m1 * 2 * A)
      by (apply Z.mul_le_mono_nonneg_r; lia).
    assert (S3 : 1 * (Zpos m1 * 2 * A) <= B * (Zpos m1 * 2 * A)).
    { apply Z.mul_le_mono_nonneg_r; [| exact HB].
      apply Z.mul_nonneg_nonneg; lia. }
    replace (Zpos m1 * (B * 2 * A)) with (B * (Zpos m1 * 2 * A)) in Hlt by ring.
    lia.
Qed.

(** [binary_round_aux] without its destructuring lets. *)
Lemma binary_round_aux_eq (sx : bool) (mx ex : Z) (lx : location) :
  binary_round_aux prec emax sx mx ex lx
  = let mrs' := fst (shr_fexp prec emax mx ex lx) in
    let e' := snd (shr_fexp prec emax mx ex lx) in
    let r := round_nearest_even (shr_m mrs') (loc_of_shr_record mrs') in
    let mrs'' := fst (shr_fexp prec emax r e' loc_Exact) in
    let e'' := snd (shr_fexp prec emax r e' loc_Exact) in
    match shr_m mrs'' with
    | Z0 => S754_zero sx
    | Zpos m => if Z.leb e'' (emax - prec) then S754_finite sx m e''
                else S754_infinity sx
    | Zneg _ => S754_nan
    end.
Proof.
  unfold binary_round_aux.
  destruct (shr_fexp prec emax mx ex lx) as [mrs' e']. simpl.
  destruct (shr_fexp prec emax _ e' loc_Exact) as [mrs'' e'']. reflexivity.
Qed.

(** The rounded product of a number [mx * 2 ^ ex] of at most 1 and a
    constant [my * 2 ^ -53] is zero or a finite number whose value is at
    most [(mx * my + 2 ^ 53) * 2 ^ (ex - 53)]: the exact product and one
    unit of the last place that is kept. *)
Lemma mul_round_upper (mx my : positive) (ex : Z) :
  bounded prec emax mx ex = true -> ex <= -52 -> Zpos my < 2 ^ 53 ->
  let R :=
    binary_round_aux prec emax false (Zpos (mx * my)) (ex + -53) loc_Exact in
  R = S754_zero false
  \/ exists (m : positive) (e : Z),
       R = S754_finite false m e /\ ex - 53 <= e
       /\ Zpos m * 2 ^ (e - (ex - 53)) <= Zpos mx * Zpos my + 2 ^ 53.
Proof.
  intros Hx Hex Hmy R. subst R.
  apply bounded_spec in Hx as (He & Hmx & _).
  rewrite binary_round_aux_eq. cbv zeta.
  rewrite <- Pos2Z.inj_mul.
  set (P := Zpos (mx * my)). set (e0 := ex + -53).
  assert (HP : 0 < P < 2 ^ 106).
  { unfold P. rewrite Pos2Z.inj_mul. split; [lia |].
    change (2 ^ 106) with (2 ^ 53 * 2 ^ 53).
    apply Z.mul_lt_mono_nonneg; lia. }
  destruct (shr_fexp_spec P e0) as [Hm1 He1]; [lia |].
  set (mrs' := fst (shr_fexp prec emax P e0 loc_Exact)) in *.
  set (e' := snd (shr_fexp prec emax P e0 loc_Exact)) in *.
  set (s1 := Z.max 0 (fexp prec emax (Zdigits2 P + e0) - e0)) in *.
  assert (Hd : Zdigits2 P <= 106) by (apply Zdigits2_le; lia).
  assert (Hs1 : 0 <= s1 <= 53).
  { unfold s1, fexp, SpecFloat.emin, prec, emax, e0. lia. }
  assert (He' : -1074 <= e').
  { rewrite He1. unfold s1, fexp, SpecFloat.emin, prec, emax. lia. }
  assert (Hp1 : 0 < 2 ^ s1) by (apply Z.pow_pos_nonneg; lia).
  assert (Hm1' : 0 <= shr_m mrs') by (rewrite Hm1; apply Z.div_pos; lia).
  pose proof (round_nearest_even_bounds (shr_m mrs') (loc_of_shr_record mrs'))
    as Hr.
  set (r := round_nearest_even (shr_m mrs') (loc_of_shr_record mrs')) in *.
  destruct (shr_fexp_spec r e') as [Hm2 He2]; [lia |].
  set (mrs'' := fst (shr_fexp prec emax r e' loc_Exact)) in *.
  set (e'' := snd (shr_fexp prec emax r e' loc_Exact)) in *.
  set (s2 := Z.max 0 (fexp prec emax (Zdigits2 r + e') - e')) in *.
  assert (Hdiv1 : shr_m mrs' * 2 ^ s1 <= P).
  { rewrite Hm1, Z.mul_comm. apply Z.mul_div_le. lia. }
  assert (Hr106 : 0 <= r < 2 ^ 107).
  { split; [lia |]. change (2 ^ 107) with (2 ^ 106 * 2).
    assert (shr_m mrs' <= P).
    { rewrite Hm1. apply Z.div_le_upper_bound; [lia |].
      rewrite <- (Z.mul_1_l P) at 1. apply Z.mul_le_mono_nonneg_r; lia. }
    lia. }
  assert (Hdr : Zdigits2 r <= 107) by (apply Zdigits2_le; lia).
  assert (Hs2 : 0 <= s2 <= 54).
  { unfold s2, fexp, SpecFloat.emin, prec, emax. lia. }
  assert (Hp2 : 0 < 2 ^ s2) by (apply Z.pow_pos_nonneg; lia).
  assert (Hdiv2 : shr_m mrs'' * 2 ^ s2 <= r).
  { rewrite Hm2, Z.mul_comm. apply Z.mul_div_le. lia. }
  assert (Hm2' : 0 <= shr_m mrs'') by (rewrite Hm2; apply Z.div_pos; lia).
  destruct (shr_m mrs'') as [|m|m] eqn:Em; [left; reflexivity | | lia].
  right.
  assert (Hle : (e'' <=? emax - prec) = true).
  { apply Z.leb_le. rewrite He2, He1. unfold emax, prec, e0. lia. }
  rewrite Hle. exists m, e''. split; [reflexivity |].
  split; [rewrite He2, He1; unfold e0; lia |].
  replace (e'' - (ex - 53)) with (s2 + s1) by (rewrite He2, He1; unfold e0; lia).
  rewrite Z.pow_add_r by lia.
  assert (H53 : 2 ^ s1 <= 2 ^ 53) by (apply Z.pow_le_mono_r; lia).
  assert (Zpos m * (2 ^ s2 * 2 ^ s1) <= r * 2 ^ s1).
  { rewrite Z.mul_assoc. apply Z.mul_le_mono_nonneg_r; lia. }
  assert (r * 2 ^ s1 <= shr_m mrs' * 2 ^ s1 + 2 ^ s1).
  { replace (shr_m mrs' * 2 ^ s1 + 2 ^ s1) with ((shr_m mrs' + 1) * 2 ^ s1)
      by ring.
    apply Z.mul_le_mono_nonneg_r; lia. }
  fold P. lia.
Qed.

Local Open Scope float_scope.

(** The product of a score [x = mx * 2 ^ ex] of at most 1 and a constant
    [c = my * 2 ^ -53] is strictly below the score once
    [mx * (1 - c)] exceeds one unit of the last place. *)
Lemma mul_below (x c : float) (mx my : positive) (ex : Z) :
  Prim2SF x = S754_finite false mx ex ->
  Prim2SF c = S754_finite false my (-53)%Z ->
  (ex <= -52)%Z -> (Zpos my < 2 ^ 53)%Z ->
  (2 ^ 53 < Zpos mx * (2 ^ 53 - Zpos my))%Z ->
  (x * c <? x) = true.
Proof.
  intros Hx Hc Hex Hmy Hbig.
  pose proof (Prim2SF_valid x) as Vx. rewrite Hx in Vx. simpl in Vx.
  pose proof (Prim2SF_valid (x * c)) as Vr.
  rewrite ltb_spec, mul_spec, Hx, Hc. rewrite mul_spec, Hx, Hc in Vr.
  unfold SF64mul, SFmul in *. simpl xorb in *.
  destruct (mul_round_upper mx my ex Vx Hex Hmy) as [E | (m & e & E & He & Hle)];
    cbv zeta in E; rewrite E in *.
  - reflexivity.
  - simpl in Vr.
    apply (SFltb_finite m mx e ex (ex - 53)); try assumption; try lia.
    replace (ex - (ex - 53))%Z with 53%Z by lia.
    rewrite Z.mul_sub_distr_l in Hbig.
    set (T := (2 ^ 53)%Z) in *.
    set (Y := (Zpos m * 2 ^ (e - (ex - 53)))%Z) in *.
    set (W := (Zpos mx * Zpos my)%Z) in *. lia.
Qed.

(** A score above the subnormal number [lo * 2 ^ -1074] and of at most
    1 is a positive finite number. *)
Lemma score_finite (x : float) (lo : positive) :
  (SF2Prim (S754_finite false lo (-1074)%Z) <? x) = true -> (x <=? 1) = true ->
  bounded prec emax lo (-1074)%Z = true ->
  exists (mx : positive) (ex : Z),
    Prim2SF x = S754_finite false mx ex /\ (ex <= -52)%Z
    /\ ((-1074 < ex)%Z \/ (ex = (-1074)%Z /\ (lo < mx)%positive)).
Proof.
  intros Hlo Hhi Hb.
  rewrite ltb_spec, Prim2SF_SF2Prim in Hlo by exact Hb.
  rewrite leb_spec in Hhi.
  change (Prim2SF 1) with (S754_finite false 4503599627370496 (-52)%Z) in Hhi.
  pose proof (Prim2SF_valid x) as Vx.
  destruct (Prim2SF x) as [s | s | | s mx ex]; try discriminate.
  - destruct s; discriminate.
  - destruct s; [discriminate |]. exists mx, ex. split; [reflexivity |].
    apply bounded_spec in Vx as (He & _).
    unfold SFleb, SFcompare in Hhi. unfold SFltb, SFcompare in Hlo.
    split.
    + destruct (Z.compare_spec ex (-52)); try lia; discriminate.
    + destruct (Z.compare_spec (-1074) ex) as [Heq | | ];
        [right | left; lia | lia].
      split; [symmetry; exact Heq |].
      rewrite Pos.compare_cont_spec in Hlo. simpl in Hlo.
      destruct (Pos.compare_spec lo mx); try discriminate. assumption.
Qed.

(** A score from 0 to the subnormal number [hi * 2 ^ -1074] is a zero or
    one of the [hi] subnormal numbers up to it. *)
Lemma score_subnormal (x : float) (hi : positive) :
  (0 <=? x) = true -> (x <=? SF2Prim (S754_finite false hi (-1074)%Z)) = true ->
  bounded prec emax hi (-1074)%Z = true ->
  x = SF2Prim (S754_zero false) \/ x = SF2Prim (S754_zero true)
  \/ exists mx : positive,
       x = SF2Prim (S754_finite false mx (-1074)%Z) /\ (mx <= hi)%positive.
Proof.
  intros Hlo Hhi Hb.
  rewrite leb_spec in Hlo. rewrite leb_spec, Prim2SF_SF2Prim in Hhi by exact Hb.
  change (Prim2SF 0) with (S754_zero false) in Hlo.
  pose proof (Prim2SF_valid x) as Vx.
  destruct (Prim2SF x) as [s | s | | s mx ex] eqn:Hx; try discriminate.
  - rewrite <- (SF2Prim_Prim2SF x), Hx. destruct s; auto.
  - destruct s; discriminate.
  - destruct s; [discriminate |]. right. right. exists mx.
    apply bounded_spec in Vx as (He & _).
    unfold SFleb, SFcompare in Hhi.
    destruct (Z.compare_spec ex (-1074)) as [-> | | ]; [| lia | discriminate].
    split; [rewrite <- Hx; symmetry; apply SF2Prim_Prim2SF |].
    rewrite Pos.compare_cont_spec in Hhi. simpl in Hhi.
    destruct (Pos.compare_spec mx hi); try discriminate; lia.
Qed.

Lemma small_mantissa (x : float) (mx : positive) (ex : Z) :
  Prim2SF x = S754_finite false mx ex -> (Zpos mx < 2 ^ 52)%Z ->
  x = SF2Prim (S754_finite false mx (-1074)%Z).
Proof.
  intros Hx Hm. pose proof (Prim2SF_valid x) as Vx. rewrite Hx in Vx.
  apply bounded_spec in Vx as (He & _ & Hn).
  assert (ex = (-1074)%Z) as -> by lia.
  rewrite <- Hx. symmetry. apply SF2Prim_Prim2SF.
Qed.

(** The finitely many mantissas that a bound leaves, one by one. *)
Ltac few_cases mx :=
  repeat (destruct mx as [mx|mx|]; try (intros; lia));
  intros; vm_compute; reflexivity.

Ltac small_cases x Hx mx :=
  rewrite (small_mantissa x mx _ Hx) by lia;
  repeat match goal with
         | H : (_ < Zpos mx)%Z |- _ => revert H
         | H : (Zpos mx <= _)%Z |- _ => revert H
         | H : (_ < mx)%positive |- _ => revert H
         end;
  clear; few_cases mx.

(** In binary64 a ban lowers every score of the unit interval above
    [ban_floor], and leaves a score from 0 to [ban_floor] as it is. *)
Lemma record_ban_binary64 (x : float) :
  Binary64.unit_score x ->
  (Binary64.lt Binary64.ban_floor x -> Binary64.lt (Binary64.record_ban x) x)
  /\ (Binary64.le x Binary64.ban_floor -> Binary64.record_ban x = x).
Proof.
  unfold Binary64.unit_score, Binary64.lt, Binary64.le, Binary64.record_ban,
    Binary64.ban_floor.
  intros [H0 H1]. split.
  - intros Hlo.
    destruct (score_finite x 5 Hlo H1 eq_refl) as (mx & ex & Hx & Hex & Hcase).
    destruct (Z.lt_ge_cases 10 (Zpos mx)) as [Hbig | Hsmall].
    + apply (mul_below x _ mx 8106479329266893 ex Hx);
        try reflexivity; try assumption.
      change (2 ^ 53)%Z with 9007199254740992%Z. lia.
    + pose proof (Prim2SF_valid x) as Vx. rewrite Hx in Vx.
      apply bounded_spec in Vx as (He & _ & Hn).
      assert (Hlt : (5 < mx)%positive).
      { destruct Hcase as [H | [_ H]]; [| exact H].
        specialize (Hn H). change (2 ^ 52)%Z with 4503599627370496%Z in Hn.
        lia. }
      small_cases x Hx mx.
  - intros Hhi.
    destruct (score_subnormal x 5 H0 Hhi eq_refl)
      as [-> | [-> | (mx & -> & Hle)]];
      [vm_compute; reflexivity | vm_compute; reflexivity |].
    revert Hle. few_cases mx.
Qed.

(** In binary64 a reported failure lowers every score of the unit
    interval above [failure_floor], and leaves a score from 0 to
    [failure_floor] as it is. *)
Lemma update_reputation_binary64 (x : float) :
  Binary64.unit_score x ->
  (Binary64.lt Binary64.failure_floor x ->
   Binary64.lt (Binary64.update_reputation false x) x)
  /\ (Binary64.le x Binary64.failure_floor ->
      Binary64.update_reputation false x = x).
Proof.
  unfold Binary64.unit_score, Binary64.lt, Binary64.le,
    Binary64.update_reputation, Binary64.failure_floor.
  intros [H0 H1]. split.
  - intros Hlo.
    destruct (score_finite x 9 Hlo H1 eq_refl) as (mx & ex & Hx & Hex & Hcase).
    destruct (Z.lt_ge_cases 19 (Zpos mx)) as [Hbig | Hsmall].
    + apply (mul_below x _ mx 8556839292003942 ex Hx);
        try reflexivity; try assumption.
      change (2 ^ 53)%Z with 9007199254740992%Z. lia.
    + pose proof (Prim2SF_valid x) as Vx. rewrite Hx in Vx.
      apply bounded_spec in Vx as (He & _ & Hn).
      assert (Hlt : (9 < mx)%positive).
      { destruct Hcase as [H | [_ H]]; [| exact H].
        specialize (Hn H). change (2 ^ 52)%Z with 4503599627370496%Z in Hn.
        lia. }
      small_cases x Hx mx.
  - intros Hhi.
    destruct (score_subnormal x 9 H0 Hhi eq_refl)
      as [-> | [-> | (mx & -> & Hle)]];
      [vm_compute; reflexivity | vm_compute; reflexivity |].
    revert Hle. few_cases mx.
Qed.

End Binary64Rounding.

(** ** The classifier *)

Section Classifier.

Local Open Scope string_scope.

Lemma existsb_false {A : Type} (f : A -> bool) (l : list A) :
  existsb f l = false -> forall x, In x l -> f x = false.
Proof.
  induction l as [|a l IH]; simpl; [tauto |].
  intros H x [<- | Hx]; apply orb_false_iff in H; [tauto | apply IH; tauto].
Qed.

Lemma count_matches_none (patterns : list regex) (content_lower : string) :
  existsb (fun p => re_search p content_lower) patterns = false ->
  count_matches patterns content_lower = 0%nat.
Proof.
  unfold count_matches.
  induction patterns as [|p ps IH]; simpl; [reflexivity |].
  intros H. apply orb_false_iff in H as [Hp Hps].
  rewrite filter_cons. destruct (decide (re_search p content_lower = true)).
  - congruence.
  - apply IH, Hps.
Qed.

Lemma scan_no_match (content_lower : string) (l : list (BanType * list regex))
    (r : BanType * Q) :
  existsb (fun entry => existsb (fun p => re_search p content_lower) (snd entry)) l
    = false ->
  foldl (scan_category content_lower) r l = r.
Proof.
  induction l as [|[b ps] l IH]; simpl; [reflexivity |].
  intros H. apply orb_false_iff in H as [Hb Hl].
  rewrite (count_matches_none _ _ Hb). simpl. apply IH, Hl.
Qed.

Lemma scan_category_conf content_lower r entry :
  unit_conf r -> unit_conf (scan_category content_lower r entry).
Proof.
  unfold unit_conf, scan_category. destruct entry as [b ps].
  destruct (0 <? count_matches ps content_lower)%nat; [| tauto].
  destruct (Qltb _ _) eqn:E; [| tauto].
  apply Qltb_lt in E. simpl. intros H. split; [lra |].
  rewrite py_min_spec.
  eapply Qle_trans; [apply Q.le_min_r | lra].
Qed.

Lemma check_content_conf html_content r :
  unit_conf r -> unit_conf (check_content html_content r).
Proof.
  unfold check_content. intros H.
  destruct html_content as [[|c h]|]; try assumption.
  generalize ban_patterns. intros l. revert r H.
  induction l as [|e l IH]; simpl; intros r H; [assumption |].
  apply IH, scan_category_conf, H.
Qed.

Lemma check_headers_conf headers r :
  unit_conf r ->
  match check_headers headers r with
  | Return r' | Continue r' => unit_conf r'
  end.
Proof.
  unfold check_headers, unit_conf. intros H.
  destruct headers as [[|kv hs]|]; try assumption.
  destruct (match _ !! "x-ratelimit-remaining" with Some _ => _ | None => _ end);
    [simpl; lra |].
  destruct (has_key "retry-after" _); [simpl; lra |].
  destruct (_ || _); [| assumption].
  destruct (fst r); try assumption.
  simpl. rewrite py_max_spec. split.
  - eapply Qle_trans; [| apply Q.le_max_r]. lra.
  - apply Q.max_lub; lra.
Qed.

Lemma check_error_pages_conf html_content r :
  unit_conf r -> unit_conf (check_error_pages html_content r).
Proof.
  unfold check_error_pages, unit_conf. intros H.
  destruct html_content as [h|]; [| assumption].
  destruct (fst r); try assumption.
  destruct (String.eqb h _); [assumption |].
  destruct (existsb _ _); [simpl; lra | assumption].
Qed.

Lemma detect_ban_conf html_content status_code headers :
  unit_conf (detect_ban html_content status_code headers).
Proof.
  unfold detect_ban.
  assert (Hs : match check_status status_code with
               | Return r | Continue r => unit_conf r end).
  { unfold check_status, unit_conf. destruct status_code as [c|]; [| simpl; lra].
    repeat match goal with |- context [if ?b then _ else _] => destruct b end;
      simpl; lra. }
  destruct (check_status status_code) as [r|r0]; [exact Hs |].
  pose proof (check_headers_conf headers _
                (check_content_conf html_content r0 Hs)) as Hh.
  destruct (check_headers headers _) as [r|r1]; [exact Hh |].
  apply check_error_pages_conf, Hh.
Qed.

Lemma check_status_quiet status_code :
  status_signal status_code = false ->
  check_status status_code = Continue (NONE, 0.0).
Proof.
  unfold status_signal, check_status. destruct status_code as [c|]; [| reflexivity].
  intros H. apply Z.leb_gt in H.
  destruct (Z.eqb_spec c 0); [reflexivity |].
  destruct (Z.eqb_spec c 429); [lia |].
  destruct (Z.eqb_spec c 403); [lia |].
  destruct (Z.eqb_spec c 503); [lia |].
  destruct (Z.leb_spec 400 c); [lia | reflexivity].
Qed.

Lemma check_content_quiet html_content r :
  body_signal html_content = false -> check_content html_content r = r.
Proof.
  unfold body_signal, check_content.
  destruct html_content as [[|c h]|]; try reflexivity.
  intros H. apply orb_false_iff in H as [H _].
  apply scan_no_match, H.
Qed.

Lemma check_headers_quiet headers r :
  header_signal headers = false -> check_headers headers r = Continue r.
Proof.
  unfold header_signal, check_headers.
  destruct headers as [[|kv hs]|]; try reflexivity.
  intros H.
  apply orb_false_iff in H as [H Hrl].
  apply orb_false_iff in H as [H Hra].
  rewrite H, Hrl, Hra. reflexivity.
Qed.

Lemma check_error_pages_quiet html_content r :
  body_signal html_content = false -> check_error_pages html_content r = r.
Proof.
  unfold body_signal, check_error_pages.
  destruct html_content as [h|]; [| reflexivity].
  intros H. apply orb_false_iff in H as [_ H]. rewrite H.
  destruct (fst r); try reflexivity. destruct (String.eqb h _); reflexivity.
Qed.

(** C5. [detect_ban] is a total function on every combination of a
    present or absent status code, body and headers: it returns a ban
    type and a confidence in the unit interval, with no error case. When
    the input carries no signal of a block (no status code of 400 or
    more, no ban pattern or error-page indicator in the body, no
    Cloudflare, retry-after or exhausted rate-limit header) the result is
    [(NONE, 0.0)]. *)
Theorem detect_ban_total_and_quiet
    (html_content : option string) (status_code : option Z)
    (headers : option Headers) :
  (exists b c, detect_ban html_content status_code headers = (b, c)
               /\ 0 <= c <= 1)
  /\ (status_signal status_code = false ->
      body_signal html_content = false ->
      header_signal headers = false ->
      detect_ban html_content status_code headers = (NONE, 0.0)).
Proof.
  split.
  - pose proof (detect_ban_conf html_content status_code headers) as H.
    destruct (detect_ban html_content status_code headers) as [b c].
    exists b, c. split; [reflexivity | exact H].
  - intros Hs Hb Hh. unfold detect_ban.
    rewrite (check_status_quiet _ Hs), (check_content_quiet _ _ Hb),
      (check_headers_quiet _ _ Hh).
    apply check_error_pages_quiet, Hb.
Qed.

Lemma detect_ban_total_and_quiet_witness :
  detect_ban (Some "<html><body>Hello, world</body></html>") (Some 200%Z)
    (Some [("Content-Type", HStr "text/html");
           ("X-RateLimit-Remaining", HStr "57")])
  = (NONE, 0.0).
Proof.
  apply (proj2 (detect_ban_total_and_quiet
                  (Some "<html><body>Hello, world</body></html>")
                  (Some 200%Z)
                  (Some [("Content-Type", HStr "text/html");
                         ("X-RateLimit-Remaining", HStr "57")])));
    vm_compute; reflexivity.
Defined.

(** The classifications the specification lists as tests. *)
Example detect_ban_429 :
  detect_ban (Some "anything at all") (Some 429%Z) None = (RATE_LIMIT, 0.95).
Proof. reflexivity. Qed.

Example detect_ban_403_forbidden :
  detect_ban (Some "Access Forbidden") (Some 403%Z) None = (IP_BAN, 0.8).
Proof. vm_compute. reflexivity. Qed.

Example detect_ban_retry_after :
  detect_ban None None (Some [("retry-after", HStr "30")]) = (RATE_LIMIT, 0.95).
Proof. vm_compute. reflexivity. Qed.

Example detect_ban_404 :
  detect_ban None (Some 404%Z) None = (NONE, 0.5).
Proof. reflexivity. Qed.

End Classifier.

(** ** The domain reputation store *)

Section Reputation.

Local Open Scope string_scope.

Lemma reputation_of_set (domain domain' : string) (r : Reputation)
    (st : BanDetector.State) :
  reputation_of (set_reputation domain r st) domain'
  = if decide (domain = domain') then r else reputation_of st domain'.
Proof.
  unfold reputation_of, set_reputation. simpl.
  rewrite lookup_insert. destruct (decide (domain = domain')); reflexivity.
Qed.

Lemma reputation_of_set_history (domain domain' : string) (h : list BanEvent)
    (st : BanDetector.State) :
  reputation_of (set_history domain h st) domain' = reputation_of st domain'.
Proof. reflexivity. Qed.

Lemma reputation_of_touch (domain domain' : string) (st : BanDetector.State) :
  reputation_of (touch_reputation domain st) domain' = reputation_of st domain'.
Proof.
  unfold touch_reputation. rewrite reputation_of_set.
  destruct (decide (domain = domain')) as [->|]; reflexivity.
Qed.

Lemma should_proceed_state (now : Q) (domain : string) (st : BanDetector.State) :
  snd (should_proceed now domain st) = touch_reputation domain st.
Proof.
  unfold should_proceed.
  repeat match goal with
         | |- context [if ?b then _ else _] => destruct b
         | |- context [match ?o with Some _ => _ | None => _ end] => destruct o
         end; reflexivity.
Qed.

Lemma get_recovery_strategy_state (domain : string) (b : BanType)
    (st : BanDetector.State) :
  snd (get_recovery_strategy domain b st) = touch_reputation domain st.
Proof.
  unfold get_recovery_strategy.
  repeat match goal with
         | |- context [if ?b then _ else _] => destruct b
         | |- context [match ?o with Some _ => _ | None => _ end] => destruct o
         end; reflexivity.
Qed.

(** The record a ban leaves for its domain. *)
Lemma record_ban_reputation (t_event t_last : Q) (domain : string) (b : BanType)
    (metadata : option (gmap string Q)) (st : BanDetector.State) :
  reputation_of (record_ban t_event t_last domain b metadata st) domain
  = {| requests := requests (reputation_of st domain);
       successes := successes (reputation_of st domain);
       bans := bans (reputation_of st domain) + 1;
       last_ban := Some t_last;
       reputation_score := reputation_score (reputation_of st domain) * 0.9 |}.
Proof.
  unfold record_ban. rewrite reputation_of_set.
  destruct (decide (domain = domain)); [| congruence].
  rewrite reputation_of_set_history. reflexivity.
Qed.

Lemma record_ban_other (t_event t_last : Q) (domain domain' : string)
    (b : BanType) (metadata : option (gmap string Q)) (st : BanDetector.State) :
  domain <> domain' ->
  reputation_of (record_ban t_event t_last domain b metadata st) domain'
  = reputation_of st domain'.
Proof.
  intros Hne. unfold record_ban. rewrite reputation_of_set.
  destruct (decide (domain = domain')); [congruence |].
  apply reputation_of_set_history.
Qed.

Lemma update_reputation_score (domain : string) (success : bool)
    (st : BanDetector.State) :
  reputation_score (reputation_of (update_reputation domain success st) domain)
  = if success
    then py_min 1.0 (reputation_score (reputation_of st domain) * 1.01)
    else reputation_score (reputation_of st domain) * 0.95.
Proof.
  unfold update_reputation. rewrite reputation_of_set.
  destruct (decide (domain = domain)); [| congruence].
  destruct success; reflexivity.
Qed.

Lemma score_inv_init : score_inv BanDetector.init.
Proof. intros domain. unfold reputation_of. simpl. rewrite lookup_empty. simpl. lra. Qed.

Lemma score_inv_step (st : BanDetector.State) (op : BanDetector.Op) :
  score_inv st -> score_inv (BanDetector.step st op).
Proof.
  intros Hinv domain'. pose proof (Hinv domain') as H'.
  destruct op as [t_event t_last domain b metadata | domain success
                 | now domain | domain b | jitter domain attempt | domain];
    simpl.
  - destruct (decide (domain = domain')) as [<-|Hne].
    + rewrite record_ban_reputation. simpl. pose proof (Hinv domain). lra.
    + rewrite record_ban_other by assumption. exact H'.
  - destruct (decide (domain = domain')) as [<-|Hne].
    + rewrite update_reputation_score. pose proof (Hinv domain) as Hd.
      destruct success; [| lra].
      unfold py_min. destruct (Qltb _ _) eqn:E.
      * apply Qltb_lt in E. lra.
      * lra.
    + unfold update_reputation. rewrite reputation_of_set.
      destruct (decide (domain = domain')); [congruence | exact H'].
  - rewrite should_proceed_state, reputation_of_touch. exact H'.
  - rewrite get_recovery_strategy_state, reputation_of_touch. exact H'.
  - exact H'.
  - unfold reset_domain, reputation_of. simpl. rewrite lookup_insert.
    destruct (decide (domain = domain')); [simpl; lra | exact H'].
Qed.

Lemma score_inv_run (ops : list BanDetector.Op) (st : BanDetector.State) :
  score_inv st -> score_inv (BanDetector.run ops st).
Proof.
  unfold BanDetector.run. revert st.
  induction ops as [|op ops IH]; simpl; intros st H; [exact H |].
  apply IH, score_inv_step, H.
Qed.

Lemma record_bans_count (domain : string) (calls : list BanArgs)
    (st : BanDetector.State) :
  bans (reputation_of (record_bans domain calls st) domain)
  = (bans (reputation_of st domain) + List.length calls)%nat.
Proof.
  unfold record_bans. revert st.
  induction calls as [|[[[t_event t_last] b] metadata] calls IH]; simpl; intros st.
  - lia.
  - rewrite IH, record_ban_reputation. simpl. lia.
Qed.

Lemma should_proceed_many_bans (now : Q) (domain : string)
    (st : BanDetector.State) :
  (ban_threshold < bans (reputation_of st domain))%nat ->
  fst (should_proceed now domain st) = false.
Proof.
  intros H. unfold should_proceed.
  destruct (Qltb _ _); [reflexivity |].
  apply Nat.ltb_lt in H. rewrite H. reflexivity.
Qed.

(** C1. [should_proceed] answers false exactly when the score is below the
    reputation threshold 0.3, or more than 10 bans are recorded, or the
    last ban lies less than 60 seconds back, and true otherwise; time
    stamps are readings of a clock that does not read zero. After eleven
    calls of [record_ban] on a domain, fresh or not, the answer is
    false. *)
Theorem should_proceed_gate (now : Q) (domain : string)
    (st : BanDetector.State) :
  (forall t, last_ban (reputation_of st domain) = Some t -> ~ t == 0) ->
  (fst (should_proceed now domain st) = false <->
     reputation_score (reputation_of st domain) < reputation_threshold
     \/ (ban_threshold < bans (reputation_of st domain))%nat
     \/ exists t, last_ban (reputation_of st domain) = Some t /\ now - t < 60)
  /\ (forall calls : list BanArgs,
        List.length calls = 11%nat ->
        fst (should_proceed now domain (record_bans domain calls st)) = false).
Proof.
  intros Hclock. split.
  - unfold should_proceed.
    destruct (Qltb _ reputation_threshold) eqn:Es.
    { apply Qltb_lt in Es. simpl. tauto. }
    apply Qltb_ge in Es.
    destruct (ban_threshold <? _)%nat eqn:Eb.
    { apply Nat.ltb_lt in Eb. simpl. tauto. }
    apply Nat.ltb_ge in Eb.
    destruct (last_ban (reputation_of st domain)) as [t|] eqn:El.
    + assert (Ht : truthy t = true) by (apply truthy_true, Hclock; reflexivity).
      rewrite Ht. destruct (Qltb (now - t) 60) eqn:Et; simpl.
      * apply Qltb_lt in Et. split; [| reflexivity]. intros _.
        right. right. exists t. split; [reflexivity | exact Et].
      * apply Qltb_ge in Et. split; [discriminate |].
        intros [H | [H | [t' [Heq H]]]]; [lra | lia |].
        injection Heq as <-. lra.
    + simpl. split; [discriminate |].
      intros [H | [H | [t' [Heq H]]]]; [lra | lia | discriminate].
  - intros calls Hlen. apply should_proceed_many_bans.
    rewrite record_bans_count, Hlen. unfold ban_threshold. lia.
Qed.

Lemma should_proceed_gate_witness :
  fst (should_proceed 1030 "example.com" st_retry_600) = false
  /\ fst (should_proceed 2000 "example.com"
            (record_bans "example.com" eleven_bans st_retry_600)) = false.
Proof.
  destruct (should_proceed_gate 1030 "example.com" st_retry_600) as [H1 _].
  { intros t Ht. vm_compute in Ht. injection Ht as <-.
    intros H. vm_compute in H. discriminate. }
  destruct (should_proceed_gate 2000 "example.com" st_retry_600) as [_ H2].
  { intros t Ht. vm_compute in Ht. injection Ht as <-.
    intros H. vm_compute in H. discriminate. }
  split.
  - apply H1. right. right. exists 1000. split; vm_compute; reflexivity.
  - apply H2. reflexivity.
Defined.

(** Ten bans do not close the gate by their number: a fresh domain banned
    ten times is open again once the last ban is a minute old. *)
Example should_proceed_after_ten_bans :
  fst (should_proceed 2000 "example.com"
         (record_bans "example.com" (take 10 eleven_bans) BanDetector.init))
  = true.
Proof. vm_compute. reflexivity. Qed.

(** The claim of the specification fails at the bottom of the binary64
    range: 7050 bans in a row take the score of a domain first seen to
    [ban_floor], about 2.47e-323, and the product of that score and [0.9]
    rounds back to it, so that one more ban leaves the score where it is,
    not strictly below. *)
Lemma record_ban_score_stalls :
  Binary64.after_bans 7050 = Binary64.ban_floor
  /\ Binary64.record_ban (Binary64.after_bans 7050) = Binary64.after_bans 7050
  /\ PrimFloat.ltb (Binary64.record_ban (Binary64.after_bans 7050))
                   (Binary64.after_bans 7050)
     = false.
Proof. vm_compute. repeat split; reflexivity. Qed.

(** C6, amended. For every domain and every ban type, [record_ban] puts
    the product of the domain's score and [0.9] in the place of the score.
    In the binary64 arithmetic of the source that product is strictly
    below a score of the unit interval exactly when the score is above
    [ban_floor], five times the smallest positive number (about
    2.47e-323): a score above it is lowered, a score from 0 to it is left
    as it is. *)
Theorem record_ban_lowers_score :
  (forall (st : BanDetector.State) (t_event t_last : Q) (domain : string)
          (b : BanType) (metadata : option (gmap string Q)),
      reputation_score
        (reputation_of (record_ban t_event t_last domain b metadata st) domain)
      = reputation_score (reputation_of st domain) * 0.9)
  /\ (forall x : PrimFloat.float,
        Binary64.unit_score x ->
        (Binary64.lt Binary64.ban_floor x ->
         Binary64.lt (Binary64.record_ban x) x)
        /\ (Binary64.le x Binary64.ban_floor -> Binary64.record_ban x = x)).
Proof.
  split.
  - intros. rewrite record_ban_reputation. reflexivity.
  - apply record_ban_binary64.
Qed.

(** The first ban on a domain first seen, in binary64. *)
Lemma record_ban_lowers_score_witness :
  Binary64.lt (Binary64.record_ban Binary64.default_score)
              Binary64.default_score.
Proof.
  destruct (proj2 record_ban_lowers_score Binary64.default_score) as [H _].
  - split; vm_compute; reflexivity.
  - apply H. vm_compute. reflexivity.
Defined.

(** C7. A reputation record is created with score 1.0, and after every
    run of the detector (bans, reputation updates, resets and the reading
    operations) every domain's score lies in [0, 1]. A ban multiplies the
    score by 0.9, a failure by 0.95, and a success sets it to
    [min(1.0, score * 1.01)]. *)
Theorem score_in_unit_interval :
  reputation_score default_reputation = 1.0
  /\ (forall (ops : list BanDetector.Op) (domain : string),
        0 <= reputation_score
               (reputation_of (BanDetector.run ops BanDetector.init) domain)
          <= 1)
  /\ (forall st domain t_event t_last b metadata,
        reputation_score
          (reputation_of (record_ban t_event t_last domain b metadata st) domain)
        = reputation_score (reputation_of st domain) * 0.9)
  /\ (forall st domain success,
        reputation_score
          (reputation_of (update_reputation domain success st) domain)
        = if success
          then py_min 1.0 (reputation_score (reputation_of st domain) * 1.01)
          else reputation_score (reputation_of st domain) * 0.95).
Proof.
  split; [reflexivity |]. split; [| split].
  - intros ops domain.
    pose proof (score_inv_run ops _ score_inv_init domain). lra.
  - intros. rewrite record_ban_reputation. reflexivity.
  - intros. apply update_reputation_score.
Qed.

Lemma past_strategy_none (b : BanType) (l : list RecoveryRecord) :
  (forall past, In past l -> ban_type past <> b) -> past_strategy b l = None.
Proof.
  unfold past_strategy. induction l as [|past l IH]; simpl; intros H.
  - reflexivity.
  - rewrite bool_decide_eq_false_2 by (apply H; left; reflexivity).
    apply IH. intros past' Hin. apply H. right. exact Hin.
Qed.

Lemma recovery_strategies_unlisted (b : BanType) :
  recovery_strategies b = None <-> In b unlisted_ban_types.
Proof.
  unfold unlisted_ban_types. destruct b; simpl; split; intros H;
    try reflexivity; try discriminate; try tauto;
    repeat (destruct H as [H|H]; try discriminate H); contradiction.
Qed.

(** C10. The ban types without an entry in the strategy table are NONE,
    ACCESS_DENIED, TEMPORARY and PERMANENT. For such a type, a domain that
    is not to be abandoned (score at least 0.3, at most 10 bans) and has
    no successful recovery on record for the type gets the strategy
    WAIT. *)
Theorem get_recovery_strategy_unlisted (domain : string) (b : BanType)
    (st : BanDetector.State) :
  In b unlisted_ban_types ->
  reputation_threshold <= reputation_score (reputation_of st domain) ->
  (bans (reputation_of st domain) <= ban_threshold)%nat ->
  (forall past,
     In past (default [] (successful_recoveries st !! domain)) ->
     ban_type past <> b) ->
  recovery_strategies b = None
  /\ fst (get_recovery_strategy domain b st) = WAIT.
Proof.
  intros Hb Hscore Hbans Hpast.
  apply recovery_strategies_unlisted in Hb. split; [exact Hb |].
  unfold get_recovery_strategy. rewrite Hb. simpl.
  apply Qltb_ge in Hscore. rewrite Hscore.
  apply Nat.ltb_ge in Hbans. rewrite Hbans.
  destruct (successful_recoveries st !! domain) as [l|]; simpl.
  - rewrite past_strategy_none by exact Hpast. reflexivity.
  - reflexivity.
Qed.

Lemma get_recovery_strategy_unlisted_witness :
  recovery_strategies ACCESS_DENIED = None
  /\ fst (get_recovery_strategy "example.com" ACCESS_DENIED st_recovered) = WAIT.
Proof.
  apply (get_recovery_strategy_unlisted "example.com" ACCESS_DENIED st_recovered).
  - simpl. tauto.
  - vm_compute. discriminate.
  - vm_compute. lia.
  - intros past Hin. vm_compute in Hin. destruct Hin as [<- | []].
    discriminate.
Defined.

(** A recovery on record for the ban type is reused. *)
Example get_recovery_strategy_reuses :
  fst (get_recovery_strategy "example.com" RATE_LIMIT st_recovered) = SLOW_DOWN.
Proof. vm_compute. reflexivity. Qed.

End Reputation.

(** ** The backoff of the recovery planner *)

Section Backoff.

Local Open Scope string_scope.

Lemma raised_mono (w w' : Q) (m : option Q) :
  w <= w' -> raised w m <= raised w' m.
Proof.
  intros H. destruct m as [r|]; simpl; [| exact H].
  apply Q.max_le_compat_r, H.
Qed.

(** The loop over the recent bans computes the raise to their largest
    [retry_after]; stated for a loop that is already under way. *)
Lemma raise_loop (events : list BanEvent) (wait w : Q) (acc : option Q) :
  w == raised wait acc ->
  foldl raise_to_retry_after w events
  == raised wait
       (foldl (fun acc ev =>
                 match ev_metadata ev !! "retry_after", acc with
                 | Some r, Some m => Some (Qmax m r)
                 | Some r, None => Some r
                 | None, _ => acc
                 end) acc events).
Proof.
  revert w acc. induction events as [|ev events IH]; simpl; intros w acc Hw.
  - exact Hw.
  - apply IH. unfold raise_to_retry_after.
    destruct (ev_metadata ev !! "retry_after") as [r|]; [| exact Hw].
    rewrite py_max_spec, Hw. destruct acc as [m|]; simpl.
    + symmetry. apply Q.max_assoc.
    + reflexivity.
Qed.

(** The wait that [calculate_wait_time] returns, in closed form. *)
Lemma calculate_wait_time_closed (jitter : Q) (domain : string) (attempt : Z)
    (st : BanDetector.State) :
  fst (calculate_wait_time jitter domain attempt st)
  == capped_wait_time jitter attempt (history_of st domain).
Proof.
  unfold calculate_wait_time, capped_wait_time, max_retry_after. simpl.
  rewrite py_min_spec, Q.min_comm.
  apply Q.min_compat; [reflexivity |].
  apply raise_loop. reflexivity.
Qed.

Lemma pow2_mono (a a' : Z) : (a <= a')%Z -> 2 ^ a <= 2 ^ a'.
Proof. intros H. apply Qpower_le_compat_l; [exact H | lra]. Qed.

Lemma capped_wait_time_mono (jitter : Q) (a a' : Z) (events : list BanEvent) :
  (a <= a')%Z ->
  capped_wait_time jitter a events <= capped_wait_time jitter a' events.
Proof.
  intros H. unfold capped_wait_time.
  apply Q.min_le_compat_l, raised_mono.
  pose proof (pow2_mono a a' H). unfold base_wait_time. lra.
Qed.

(** The claim of the specification fails where a ban carries a
    [retry_after] above the cap: the code answers the cap of 300 seconds,
    the formula of the specification 600. *)
Lemma calculate_wait_time_not_spec :
  fst (calculate_wait_time 0 "example.com" 0 st_retry_600) == 300
  /\ spec_wait_time 0 0 (history_of st_retry_600 "example.com") == 600
  /\ ~ fst (calculate_wait_time 0 "example.com" 0 st_retry_600)
       == spec_wait_time 0 0 (history_of st_retry_600 "example.com").
Proof.
  split; [vm_compute; reflexivity |]. split; [vm_compute; reflexivity |].
  intros H. vm_compute in H. discriminate.
Qed.

(** C3, amended. For every domain and jitter and every attempt below
    1022, the wait that [calculate_wait_time] returns is [min(300, w)],
    where [w] is [5 * 2^attempt + jitter] raised to the largest
    [retry_after] among the domain's five most recent ban events when one
    of them carries it: the cap is applied after the raise, not before.
    From attempt 1022 on the source returns no wait: the sum with the
    jitter raises [OverflowError]. *)
Theorem calculate_wait_time_capped (jitter : Q) (domain : string)
    (attempt : Z) (st : BanDetector.State) :
  (attempt < overflow_attempt)%Z ->
  fst (calculate_wait_time jitter domain attempt st)
  == Qmin max_wait_time
       (raised (base_wait_time * 2 ^ attempt + jitter)
               (max_retry_after (last_n 5 (history_of st domain)))).
Proof. intros _. apply calculate_wait_time_closed. Qed.

Lemma calculate_wait_time_capped_witness :
  fst (calculate_wait_time 2.5 "example.com" 2 st_retry_600)
  == Qmin max_wait_time
       (raised (base_wait_time * 2 ^ 2 + 2.5)
               (max_retry_after
                  (last_n 5 (history_of st_retry_600 "example.com")))).
Proof.
  apply (calculate_wait_time_capped 2.5 "example.com" 2 st_retry_600).
  unfold overflow_attempt. lia.
Defined.

(** C4. For every domain and every jitter, the wait does not decrease
    when the attempt number grows, and it never exceeds [max_wait_time],
    300 seconds; the attempts are those for which the source returns a
    wait, the ones below 1022. *)
Theorem calculate_wait_time_monotone_bounded (jitter : Q) (domain : string)
    (attempt attempt' : Z) (st : BanDetector.State) :
  (attempt <= attempt' < overflow_attempt)%Z ->
  fst (calculate_wait_time jitter domain attempt st)
  <= fst (calculate_wait_time jitter domain attempt' st)
  /\ fst (calculate_wait_time jitter domain attempt' st) <= max_wait_time.
Proof.
  intros [H _]. rewrite !calculate_wait_time_closed. split.
  - apply capped_wait_time_mono, H.
  - apply Q.le_min_l.
Qed.

(** With a fresh draw of the jitter at every call, as in the source, the
    wait still does not decrease from one attempt to a later one. *)
Lemma calculate_wait_time_monotone_fresh_jitter (jitter jitter' : Q)
    (domain : string) (attempt attempt' : Z) (st : BanDetector.State) :
  0 <= jitter <= base_wait_time -> 0 <= jitter' <= base_wait_time ->
  (0 <= attempt < attempt')%Z ->
  fst (calculate_wait_time jitter domain attempt st)
  <= fst (calculate_wait_time jitter' domain attempt' st).
Proof.
  unfold base_wait_time. intros Hj Hj' Ha. rewrite !calculate_wait_time_closed.
  unfold capped_wait_time. apply Q.min_le_compat_l, raised_mono.
  pose proof (pow2_mono 0 attempt (proj1 Ha)) as H0.
  pose proof (pow2_mono (attempt + 1) attempt' ltac:(lia)) as H1.
  rewrite Qpower_plus in H1 by lra.
  change (2 ^ 0) with 1 in H0. change (2 ^ 1) with 2 in H1.
  unfold base_wait_time. lra.
Qed.

Lemma calculate_wait_time_monotone_bounded_witness :
  fst (calculate_wait_time 2.5 "example.com" 3 BanDetector.init)
  <= fst (calculate_wait_time 2.5 "example.com" 7 BanDetector.init)
  /\ fst (calculate_wait_time 2.5 "example.com" 7 BanDetector.init)
     <= max_wait_time.
Proof.
  apply (calculate_wait_time_monotone_bounded 2.5 "example.com" 3 7
           BanDetector.init).
  unfold overflow_attempt. lia.
Defined.

(** The wait of the third attempt on a domain without bans, and the cap
    from the sixth attempt on. *)
Example calculate_wait_time_attempt_3 :
  fst (calculate_wait_time 2.5 "example.com" 3 BanDetector.init) == 42.5.
Proof. vm_compute. reflexivity. Qed.

Example calculate_wait_time_attempt_6 :
  fst (calculate_wait_time 2.5 "example.com" 6 BanDetector.init) == 300.
Proof. vm_compute. reflexivity. Qed.

End Backoff.

(** ** The proxy health registry *)

Section Registry.

Local Open Scope string_scope.

Lemma health_of_insert (pid pid' : option string) (h : Health)
    (hm : gmap (option string) Health) :
  health_of (<[pid := h]> hm) pid'
  = if decide (pid = pid') then h else health_of hm pid'.
Proof.
  unfold health_of. rewrite lookup_insert.
  destruct (decide (pid = pid')); reflexivity.
Qed.

Lemma health_of_init (residential : list Proxy) (pid : option string) :
  health_of (proxy_health (SmartProxyManager.init residential)) pid
  = default_health.
Proof. unfold health_of. simpl. rewrite lookup_empty. reflexivity. Qed.

(** What one operation does to the counters of the proxy [pid]. *)
Lemma step_counters (st : SmartProxyManager.State) (op : SmartProxyManager.Op)
    (pid : option string) :
  let h := health_of (proxy_health st) pid in
  let h' := health_of (proxy_health (SmartProxyManager.step st op)) pid in
  total_requests h'
  = (total_requests h + if selects pid op then 1 else 0)%nat
  /\ (success_count h' + failure_count h'
      = success_count h + failure_count h + if reports pid op then 1 else 0)%nat.
Proof.
  destruct op as [now [proxy|] url
                 | now_health now_site proxy url success response_time error];
    simpl.
  - rewrite health_of_insert.
    destruct (decide (proxy_id proxy = pid)) as [<-|Hne].
    + rewrite bool_decide_eq_true_2 by reflexivity. simpl. lia.
    + rewrite bool_decide_eq_false_2 by assumption. lia.
  - lia.
  - rewrite health_of_insert.
    destruct (decide (proxy_id proxy = pid)) as [<-|Hne].
    + rewrite bool_decide_eq_true_2 by reflexivity.
      destruct success; simpl; lia.
    + rewrite bool_decide_eq_false_2 by assumption. lia.
Qed.

Lemma run_counters (ops : list SmartProxyManager.Op)
    (st : SmartProxyManager.State) (pid : option string) :
  let h := health_of (proxy_health st) pid in
  let h' := health_of (proxy_health (SmartProxyManager.run ops st)) pid in
  total_requests h' = (total_requests h + selections pid ops)%nat
  /\ (success_count h' + failure_count h'
      = success_count h + failure_count h + outcomes pid ops)%nat.
Proof.
  unfold SmartProxyManager.run, selections, outcomes. revert st.
  induction ops as [|op ops IH]; simpl; intros st.
  - lia.
  - destruct (IH (SmartProxyManager.step st op)) as [IH1 IH2].
    destruct (step_counters st op pid) as [H1 H2].
    rewrite IH1, IH2, H1, H2.
    destruct (selects pid op), (reports pid op); simpl; lia.
Qed.

(** The claim of the specification fails between a selection and its
    report, and after a report on a proxy that was not selected. *)
Lemma counters_not_balanced :
  (let h := health_of
              (proxy_health
                 (SmartProxyManager.run
                    [OpGetOptimalProxy 2000 (Some proxy_a) "shop.example"]
                    (SmartProxyManager.init [proxy_a])))
              (proxy_id proxy_a) in
   (success_count h + failure_count h)%nat = 0%nat
   /\ total_requests h = 1%nat
   /\ (success_count h + failure_count h)%nat <> total_requests h)
  /\ (let h := health_of
                 (proxy_health
                    (SmartProxyManager.run fail_then_succeed
                       (SmartProxyManager.init [proxy_a])))
                 (proxy_id proxy_a) in
      (success_count h + failure_count h)%nat = 2%nat
      /\ total_requests h = 0%nat
      /\ (success_count h + failure_count h)%nat <> total_requests h).
Proof. vm_compute. repeat split; discriminate. Qed.

(** C2, amended. After every run of selections and outcome reports on a
    new registry, a proxy's [total_requests] is the number of times it
    was selected and its [success_count + failure_count] is the number of
    outcomes reported on it; the two agree exactly when the proxy was
    reported on as often as it was selected. *)
Theorem counters_count_calls (residential : list Proxy)
    (ops : list SmartProxyManager.Op) (pid : option string) :
  let h := health_of
             (proxy_health
                (SmartProxyManager.run ops (SmartProxyManager.init residential)))
             pid in
  total_requests h = selections pid ops
  /\ (success_count h + failure_count h)%nat = outcomes pid ops
  /\ ((success_count h + failure_count h)%nat = total_requests h
      <-> outcomes pid ops = selections pid ops).
Proof.
  intros h. subst h.
  destruct (run_counters ops (SmartProxyManager.init residential) pid)
    as [H1 H2].
  cbv zeta in H1, H2. rewrite health_of_init in H1, H2. simpl in H1, H2.
  rewrite H1, H2. repeat split; lia.
Qed.

(** C9. One failure and then one success reported for a pair: the global
    record counts both and has a success rate of 50 percent, while the
    per-site entry counts the success alone and has a success rate of 1,
    not the 1/2 of the outcomes reported for the pair. *)
Theorem site_rate_skips_failures :
  let st := SmartProxyManager.run fail_then_succeed
              (SmartProxyManager.init [proxy_a]) in
  let h := health_of (proxy_health st) (proxy_id proxy_a) in
  let sp := site_of st "shop.example" (proxy_id proxy_a) in
  success_count h = 1%nat /\ failure_count h = 1%nat
  /\ success_rate h == 50
  /\ site_success_count sp = Some 1%nat /\ site_total_count sp = Some 1%nat
  /\ site_success_rate sp == 1
  /\ site_last_used sp = Some 2004.
Proof. vm_compute. repeat split; reflexivity. Qed.

Lemma site_of_set_site (url url' : string) (pid pid' : option string)
    (sp : SitePerf) (st : SmartProxyManager.State) :
  site_of (set_site url pid sp st) url' pid'
  = if decide (url = url' /\ pid = pid') then sp else site_of st url' pid'.
Proof.
  unfold site_of, set_site. simpl. rewrite lookup_insert.
  destruct (decide (url = url')) as [<-|Hu]; simpl.
  - rewrite lookup_insert. destruct (decide (pid = pid')) as [<-|Hp].
    + rewrite decide_True by tauto. reflexivity.
    + rewrite decide_False by tauto. reflexivity.
  - rewrite decide_False by tauto. reflexivity.
Qed.

Lemma of_nat_succ_nonzero (n : nat) : ~ of_nat (n + 1) == 0.
Proof.
  unfold of_nat, Qeq. simpl. lia.
Qed.

Lemma report_site_inv (now : Q) (success : bool) (response_time : option Q)
    (sp : SitePerf) :
  site_inv sp -> site_inv (report_site now success response_time sp).
Proof.
  intros [Hc Hr]. unfold report_site, site_inv.
  destruct success; simpl; [| tauto].
  rewrite Hc. split; [reflexivity |]. right.
  apply Qmult_inv_r, of_nat_succ_nonzero.
Qed.

(** The per-site entries never count a failure: whatever was reported,
    [success_count] equals [total_count] and the stored rate is 0 (before
    the first success) or 1 (from then on). *)
Lemma site_entries_count_successes (residential : list Proxy)
    (ops : list SmartProxyManager.Op) (url : string) (pid : option string) :
  site_inv
    (site_of (SmartProxyManager.run ops (SmartProxyManager.init residential))
       url pid).
Proof.
  assert (Hinit : forall url pid,
            site_inv (site_of (SmartProxyManager.init residential) url pid)).
  { intros u q. unfold site_of. simpl. rewrite lookup_empty. simpl.
    rewrite lookup_empty. simpl. split; [reflexivity | left; reflexivity]. }
  unfold SmartProxyManager.run. revert url pid.
  generalize dependent (SmartProxyManager.init residential).
  induction ops as [|op ops IH]; intros st Hst url pid; simpl.
  - apply Hst.
  - apply IH. intros u q.
    destruct op as [now [proxy|] url0
                   | now_health now_site proxy url0 success response_time error];
      simpl; try apply Hst.
    unfold report_proxy_result. rewrite site_of_set_site.
    destruct (decide _); [| apply Hst].
    apply report_site_inv, Hst.
Qed.

(** The running mean of the per-site response time divides by the number
    of successes, also of those reported without a response time: one
    measurement of two seconds gives an average of one. *)
Example site_average_counts_unmeasured :
  site_avg_response_time
    (site_of (SmartProxyManager.run succeed_twice
                (SmartProxyManager.init [proxy_a]))
       "shop.example" (proxy_id proxy_a))
  == 1.
Proof. vm_compute. reflexivity. Qed.

End Registry.

(** ** Pruning the failing proxies *)

Section Pruning.

Local Open Scope string_scope.

Variable failure_threshold : Q.

Lemma failing_iff (h : Health) :
  failing failure_threshold h = true
  <-> (20 < total_requests h)%nat /\ success_rate h < failure_threshold * 100.
Proof.
  unfold failing. rewrite andb_true_iff, Nat.ltb_lt, Qltb_lt. reflexivity.
Qed.

Lemma health_of_touch (hm : gmap (option string) Health)
    (pid pid' : option string) :
  health_of (<[pid := health_of hm pid]> hm) pid' = health_of hm pid'.
Proof.
  rewrite health_of_insert. destruct (decide (pid = pid')) as [->|]; reflexivity.
Qed.

Lemma scan_proxy_spec (to_remove : list Proxy)
    (hm : gmap (option string) Health) (p : Proxy) :
  scan_proxy failure_threshold (to_remove, hm) p
  = ((to_remove ++ if leaves failure_threshold hm p then [p] else [])%list,
     <[proxy_id p := health_of hm (proxy_id p)]> hm).
Proof.
  unfold scan_proxy, leaves. simpl.
  destruct (failing failure_threshold (health_of hm (proxy_id p)));
    rewrite ?app_nil_r; reflexivity.
Qed.

(** The first loop collects the failing proxies in order, changes no
    record, leaves an entry for every proxy of the pool and touches no
    other key. *)
Lemma scan_loop (proxies to_remove : list Proxy)
    (hm : gmap (option string) Health) :
  let res := foldl (scan_proxy failure_threshold) (to_remove, hm) proxies in
  fst res
  = (to_remove ++ List.filter (leaves failure_threshold hm) proxies)%list
  /\ (forall pid, health_of (snd res) pid = health_of hm pid)
  /\ (forall proxy, proxy ∈ proxies -> is_Some (snd res !! proxy_id proxy))
  /\ (forall pid, is_Some (hm !! pid) -> is_Some (snd res !! pid))
  /\ (forall pid, pid ∉ (proxy_id <$> proxies) -> snd res !! pid = hm !! pid).
Proof.
  revert to_remove hm.
  induction proxies as [|p ps IH]; intros to_remove hm; cbv zeta.
  - simpl. rewrite app_nil_r. repeat split; auto. intros proxy H. inversion H.
  - simpl foldl. rewrite scan_proxy_spec.
    set (hm1 := <[proxy_id p := health_of hm (proxy_id p)]> hm).
    assert (Hsame : forall pid, health_of hm1 pid = health_of hm pid)
      by (intros pid; apply health_of_touch).
    assert (Hfilter : List.filter (leaves failure_threshold hm1) ps
                      = List.filter (leaves failure_threshold hm) ps).
    { apply List.filter_ext. intros q. unfold leaves. rewrite Hsame. reflexivity. }
    destruct (IH (to_remove ++ if leaves failure_threshold hm p then [p] else [])%list
                 hm1) as (H1 & H2 & H3 & H4 & H5).
    cbv zeta in H1, H2, H3, H4, H5. rewrite H1, Hfilter, <- app_assoc.
    split; [| split; [| split; [| split]]].
    + simpl. destruct (leaves failure_threshold hm p); reflexivity.
    + intros pid. rewrite H2. apply Hsame.
    + intros proxy [-> | Hin]%elem_of_cons; [| apply H3, Hin].
      apply H4. unfold hm1. rewrite lookup_insert_eq. eauto.
    + intros pid Hpid. apply H4. unfold hm1. rewrite lookup_insert.
      destruct (decide (proxy_id p = pid)); eauto.
    + intros pid Hpid. rewrite fmap_cons in Hpid.
      apply not_elem_of_cons in Hpid as [Hne Hpid].
      rewrite (H5 pid Hpid). unfold hm1. apply lookup_insert_ne. congruence.
Qed.

Lemma list_remove_middle (pre post : list Proxy) (p : Proxy) :
  (forall q, q ∈ pre -> q <> p) ->
  list_remove p (pre ++ p :: post) = Some (pre ++ post)%list.
Proof.
  induction pre as [|y pre IH]; simpl; intros H.
  - destruct (decide (p = p)); [reflexivity | congruence].
  - destruct (decide (y = p)) as [E|_].
    + exfalso. apply (H y); [left | exact E].
    + rewrite IH; [reflexivity |]. intros q Hq. apply H. right. exact Hq.
Qed.

(** The second loop, under way: the proxies before the part still to be
    treated all stay. The records of the removed proxies are deleted, no
    other key changes. *)
Lemma remove_loop (F : Proxy -> bool) (ps pre : list Proxy)
    (hm : gmap (option string) Health) :
  NoDup (proxy_id <$> ps) ->
  (forall q, q ∈ pre -> F q = false) ->
  (forall p, p ∈ ps -> F p = true -> is_Some (hm !! proxy_id p)) ->
  exists hm',
    foldl remove_proxy (Some ((pre ++ ps)%list, hm)) (List.filter F ps)
    = Some ((pre ++ List.filter (fun q => negb (F q)) ps)%list, hm')
    /\ (forall p, p ∈ ps -> F p = true -> hm' !! proxy_id p = None)
    /\ (forall pid, (forall p, p ∈ ps -> F p = true -> proxy_id p <> pid) ->
                    hm' !! pid = hm !! pid).
Proof.
  revert pre hm. induction ps as [|y t IH]; intros pre hm Hnd Hpre Hin; simpl.
  - exists hm. split; [reflexivity |]. split; [| auto].
    intros p Hp. inversion Hp.
  - rewrite fmap_cons in Hnd. apply NoDup_cons in Hnd as [Hy Hnd].
    assert (Hy' : forall p, p ∈ t -> proxy_id p <> proxy_id y).
    { intros p Hp E. apply Hy. rewrite <- E. apply list_elem_of_fmap_2, Hp. }
    destruct (F y) eqn:Fy; simpl.
    + rewrite list_remove_middle
        by (intros q Hq ->; specialize (Hpre _ Hq); congruence).
      simpl. unfold dict_del.
      destruct (Hin y) as [h Hh]; [left | exact Fy |]. rewrite Hh. simpl.
      destruct (IH pre (delete (proxy_id y) hm) Hnd Hpre)
        as (hm' & Hrun & Hgone & Hrest).
      { intros p Hp Fp. rewrite lookup_delete_ne by (apply not_eq_sym, Hy', Hp).
        apply Hin; [right; exact Hp | exact Fp]. }
      exists hm'. split; [exact Hrun |]. split.
      * intros p [-> | Hp]%elem_of_cons Fp; [| apply Hgone; assumption].
        rewrite Hrest by (intros q Hq _; apply Hy', Hq).
        apply lookup_delete_eq.
      * intros pid Hpid. rewrite Hrest.
        -- apply lookup_delete_ne, Hpid; [left | exact Fy].
        -- intros p Hp Fp. apply Hpid; [right; exact Hp | exact Fp].
    + destruct (IH (pre ++ [y])%list hm Hnd) as (hm' & Hrun & Hgone & Hrest).
      { intros q [Hq | ->%list_elem_of_singleton]%elem_of_app;
          [apply Hpre, Hq | exact Fy]. }
      { intros p Hp Fp. apply Hin; [right; exact Hp | exact Fp]. }
      rewrite <- !app_assoc in Hrun. simpl in Hrun.
      exists hm'. split; [exact Hrun |]. split.
      * intros p [-> | Hp]%elem_of_cons Fp; [congruence | apply Hgone; assumption].
      * intros pid Hpid. apply Hrest.
        intros p Hp Fp. apply Hpid; [right; exact Hp | exact Fp].
Qed.

(** One pool: the failing proxies leave and their records are deleted;
    the other records are as before, and no key outside the pool
    changes. *)
Lemma cleanup_pool_spec (removed_count : nat) (pools : list (string * list Proxy))
    (hm : gmap (option string) Health) (pool : string * list Proxy) :
  NoDup (proxy_id <$> snd pool) ->
  exists hm',
    cleanup_pool failure_threshold (Some (removed_count, pools, hm)) pool
    = Some ((removed_count
             + List.length (List.filter (leaves failure_threshold hm) (snd pool)))%nat,
            (pools ++ [pruned failure_threshold hm pool])%list, hm')
    /\ (forall p, p ∈ snd pool -> leaves failure_threshold hm p = true ->
                  hm' !! proxy_id p = None)
    /\ (forall pid,
          (forall p, p ∈ snd pool -> leaves failure_threshold hm p = true ->
                     proxy_id p <> pid) ->
          health_of hm' pid = health_of hm pid)
    /\ (forall pid, pid ∉ (proxy_id <$> snd pool) -> hm' !! pid = hm !! pid).
Proof.
  intros Hnd. unfold cleanup_pool, scan_pool. simpl.
  destruct (scan_loop (snd pool) [] hm) as (H1 & H2 & H3 & _ & H5).
  cbv zeta in *.
  destruct (foldl (scan_proxy failure_threshold) ([], hm) (snd pool))
    as [to_remove hm1]. simpl in *. subst to_remove.
  destruct (remove_loop (leaves failure_threshold hm) (snd pool) [] hm1 Hnd)
    as (hm' & Hrun & Hgone & Hrest).
  { intros q Hq. inversion Hq. }
  { intros p Hp _. apply H3, Hp. }
  simpl in Hrun. unfold remove_failed. rewrite Hrun. simpl.
  exists hm'. split; [reflexivity |]. split; [exact Hgone |]. split.
  - intros pid Hpid. unfold health_of at 1. rewrite (Hrest pid Hpid).
    apply H2.
  - intros pid Hpid. rewrite Hrest.
    + apply H5, Hpid.
    + intros p Hp _ E. apply Hpid. rewrite <- E. apply list_elem_of_fmap_2, Hp.
Qed.

Lemma leaves_ext (hm hm' : gmap (option string) Health) (ps : list Proxy) :
  (forall p, p ∈ ps -> health_of hm' (proxy_id p) = health_of hm (proxy_id p)) ->
  List.filter (leaves failure_threshold hm') ps
  = List.filter (leaves failure_threshold hm) ps
  /\ List.filter (stays failure_threshold hm') ps
     = List.filter (stays failure_threshold hm) ps.
Proof.
  intros H. split; apply List.filter_ext_in; intros p Hp;
    apply list_elem_of_In in Hp; unfold leaves, stays; rewrite (H p Hp);
    reflexivity.
Qed.

Lemma pooled_cons (pool : string * list Proxy)
    (pools : list (string * list Proxy)) :
  pooled (pool :: pools) = (snd pool ++ pooled pools)%list.
Proof. reflexivity. Qed.

(** The loop over the pools, under way: [hm0] is the registry at the
    start of the call. *)
Lemma cleanup_loop (hm0 : gmap (option string) Health)
    (todo : list (string * list Proxy)) (removed_count : nat)
    (pools : list (string * list Proxy)) (hm : gmap (option string) Health) :
  NoDup (proxy_id <$> pooled todo) ->
  (forall p, p ∈ pooled todo ->
             health_of hm (proxy_id p) = health_of hm0 (proxy_id p)) ->
  exists hm',
    foldl (cleanup_pool failure_threshold) (Some (removed_count, pools, hm)) todo
    = Some ((removed_count
             + List.length
                 (List.filter (leaves failure_threshold hm0) (pooled todo)))%nat,
            (pools ++ (pruned failure_threshold hm0 <$> todo))%list, hm')
    /\ (forall p, p ∈ pooled todo -> leaves failure_threshold hm0 p = true ->
                  hm' !! proxy_id p = None)
    /\ (forall pid,
          (forall p, p ∈ pooled todo -> leaves failure_threshold hm0 p = true ->
                     proxy_id p <> pid) ->
          health_of hm' pid = health_of hm pid)
    /\ (forall pid, pid ∉ (proxy_id <$> pooled todo) -> hm' !! pid = hm !! pid).
Proof.
  revert removed_count pools hm.
  induction todo as [|pool todo IH]; intros removed_count pools hm Hnd Hsame.
  - simpl. exists hm. rewrite app_nil_r, Nat.add_0_r.
    split; [reflexivity |]. split; [| auto]. intros p Hp. inversion Hp.
  - rewrite pooled_cons in Hnd, Hsame. rewrite fmap_app in Hnd.
    apply NoDup_app in Hnd as (Hnd1 & Hdisj & Hnd2).
    cbn [foldl].
    destruct (cleanup_pool_spec removed_count pools hm pool Hnd1)
      as (hm1 & -> & Hgone1 & Hkept1 & Hrest1).
    destruct (leaves_ext hm0 hm (snd pool)) as [El Es].
    { intros p Hp. apply Hsame, elem_of_app. left. exact Hp. }
    assert (Hapart : forall p, p ∈ pooled todo ->
              proxy_id p ∉ (proxy_id <$> snd pool)).
    { intros p Hp Hin. apply (Hdisj (proxy_id p) Hin).
      apply list_elem_of_fmap_2, Hp. }
    assert (Hleaves : forall p, p ∈ snd pool ->
              leaves failure_threshold hm p = leaves failure_threshold hm0 p).
    { intros p Hp. unfold leaves. rewrite Hsame; [reflexivity |].
      apply elem_of_app. left. exact Hp. }
    assert (Hsame1 : forall p, p ∈ pooled todo ->
              health_of hm1 (proxy_id p) = health_of hm0 (proxy_id p)).
    { intros p Hp. unfold health_of at 1. rewrite Hrest1 by apply Hapart, Hp.
      apply Hsame, elem_of_app. right. exact Hp. }
    destruct (IH (removed_count
                  + List.length
                      (List.filter (leaves failure_threshold hm) (snd pool)))%nat
                 (pools ++ [pruned failure_threshold hm pool])%list hm1 Hnd2 Hsame1)
      as (hm' & -> & Hgone & Hkept & Hrest).
    exists hm'. split; [| split; [| split]].
    + f_equal. f_equal. apply pair_equal_spec. split.
      * rewrite pooled_cons, List.filter_app, length_app, El. lia.
      * rewrite <- app_assoc. simpl. unfold pruned at 1. rewrite Es. reflexivity.
    + rewrite pooled_cons.
      intros p [Hp | Hp]%elem_of_app Fp; [| apply Hgone; assumption].
      rewrite Hrest.
      * apply Hgone1; [exact Hp |]. rewrite Hleaves; assumption.
      * intros Hin. apply list_elem_of_fmap in Hin as (q & Eq & Hq).
        apply (Hapart q Hq). rewrite <- Eq. apply list_elem_of_fmap_2, Hp.
    + rewrite pooled_cons. intros pid Hpid. rewrite Hkept.
      * apply Hkept1. intros p Hp Fp. apply Hpid.
        -- apply elem_of_app. left. exact Hp.
        -- rewrite <- Hleaves; assumption.
      * intros p Hp Fp. apply Hpid; [| exact Fp].
        apply elem_of_app. right. exact Hp.
    + rewrite pooled_cons, fmap_app. intros pid Hpid.
      apply not_elem_of_app in Hpid as [Hp1 Hp2].
      rewrite Hrest by exact Hp2. apply Hrest1, Hp1.
Qed.

End Pruning.

(** ** [cleanup_failed_proxies] *)

Section PruneFailing.

Local Open Scope string_scope.

(** The claim of the specification fails at the sample-size floor itself:
    proxy a has exactly 20 requests and a success rate of 0 percent, below
    the threshold of 30 percent, and the call keeps it; proxy b, with 21
    requests, is the one proxy removed. *)
Lemma cleanup_keeps_twenty :
  let h := health_of (proxy_health st_worn) (proxy_id proxy_a) in
  total_requests h = 20%nat
  /\ success_rate h < 0.3 * 100
  /\ fst <$> cleanup_failed_proxies 0.3 st_worn = Some 1%nat
  /\ (fun r => proxy_pools (snd r)) <$> cleanup_failed_proxies 0.3 st_worn
     = Some [ ("residential", [proxy_a; proxy_c]); ("datacenter", []);
              ("mobile", []); ("static", []) ].
Proof. vm_compute. repeat split; reflexivity. Qed.

(** A proxy pooled twice and failing makes the call raise (the second
    [del] of its record finds no key). *)
Example cleanup_raises_on_duplicate :
  cleanup_failed_proxies 0.3 st_twice = None.
Proof. vm_compute. reflexivity. Qed.

(** C8, amended. In a registry whose pooled proxies have distinct ids,
    [cleanup_failed_proxies] returns, and it removes exactly the proxies
    with more than 20 total requests (21 or more) and a success rate below
    the threshold (in percent): every pool keeps, in order, the proxies
    that fail this test, the count returned is the number of proxies
    that meet it, the records of the removed proxies are deleted and
    those of the others are as before. A proxy with 20 total requests or
    fewer is never removed, whatever its success rate. *)
Theorem cleanup_removes_failing (failure_threshold : Q)
    (st : SmartProxyManager.State) :
  NoDup (proxy_id <$> all_proxies st) ->
  (exists hm',
     cleanup_failed_proxies failure_threshold st
     = Some (failing_count failure_threshold st,
             {| proxy_pools := pruned_pools failure_threshold st;
                proxy_health := hm';
                site_proxy_performance := site_proxy_performance st;
                total_cost := total_cost st |})
     /\ (forall proxy,
           proxy ∈ all_proxies st ->
           stays failure_threshold (proxy_health st) proxy = false ->
           hm' !! proxy_id proxy = None)
     /\ (forall proxy,
           stays failure_threshold (proxy_health st) proxy = true ->
           health_of hm' (proxy_id proxy)
           = health_of (proxy_health st) (proxy_id proxy)))
  /\ (forall proxy,
        stays failure_threshold (proxy_health st) proxy = false
        <-> (20 < total_requests (health_of (proxy_health st) (proxy_id proxy)))%nat
            /\ success_rate (health_of (proxy_health st) (proxy_id proxy))
               < failure_threshold * 100)
  /\ (forall proxy,
        (total_requests (health_of (proxy_health st) (proxy_id proxy)) <= 20)%nat ->
        stays failure_threshold (proxy_health st) proxy = true).
Proof.
  intros Hnd. split; [| split].
  - unfold cleanup_failed_proxies.
    destruct (cleanup_loop failure_threshold (proxy_health st) (proxy_pools st)
                0%nat [] (proxy_health st) Hnd)
      as (hm' & -> & Hgone & Hkept & _); [reflexivity |].
    exists hm'. split; [reflexivity |]. split.
    + intros proxy Hp Hs. apply Hgone; [exact Hp |].
      unfold stays in Hs. apply negb_false_iff in Hs. exact Hs.
    + intros proxy Hs. apply Hkept. intros q Hq Fq E.
      unfold stays in Hs. apply negb_true_iff in Hs.
      unfold leaves in Fq. rewrite E in Fq. congruence.
  - intros proxy. unfold stays. rewrite negb_false_iff. apply failing_iff.
  - intros proxy H. unfold stays. apply negb_true_iff.
    destruct (failing _ _) eqn:E; [| reflexivity].
    apply failing_iff in E. lia.
Qed.

Lemma cleanup_removes_failing_witness :
  exists n st',
    cleanup_failed_proxies 0.3 st_worn = Some (n, st')
    /\ n = failing_count 0.3 st_worn
    /\ proxy_pools st' = pruned_pools 0.3 st_worn.
Proof.
  destruct (cleanup_removes_failing 0.3 st_worn) as [(hm' & E & _) _].
  - apply (bool_decide_unpack _). vm_compute. reflexivity.
  - eexists _, _. split; [exact E |]. split; reflexivity.
Defined.

(** The pools of the example after the call, and the count returned. *)
Example cleanup_example :
  pruned_pools 0.3 st_worn
  = [ ("residential", [proxy_a; proxy_c]); ("datacenter", []);
      ("mobile", []); ("static", []) ]
  /\ failing_count 0.3 st_worn = 1%nat.
Proof. vm_compute. split; reflexivity. Qed.

End PruneFailing.

(** ** More on the classifier *)

Section ClassifierMore.

Local Open Scope string_scope.

Lemma headers_lower_app (hs : Headers) (m : gmap string HeaderValue) (k : string) :
  is_Some (m !! k) ->
  is_Some (foldl (fun m kv => <[lower (fst kv) := lower_value (snd kv)]> m) m hs
           !! k).
Proof.
  revert m. induction hs as [|kv hs IH]; simpl; intros m H; [exact H |].
  apply IH. rewrite lookup_insert. destruct (decide _); eauto.
Qed.

Lemma headers_lower_has (hs : Headers) (k : string) (v : HeaderValue) :
  In (k, v) hs -> has_key (lower k) (headers_lower hs) = true.
Proof.
  unfold has_key, headers_lower. generalize (∅ : gmap string HeaderValue).
  induction hs as [|kv hs IH]; simpl; intros m H; [contradiction |].
  destruct H as [-> | H].
  - simpl.
    destruct (headers_lower_app hs (<[lower k := lower_value v]> m) (lower k))
      as [x ->]; [| reflexivity].
    rewrite lookup_insert_eq. eauto.
  - apply IH, H.
Qed.

Lemma check_status_continues (status_code : option Z) :
  status_code <> Some 429%Z ->
  exists r0, check_status status_code = Continue r0.
Proof.
  intros Hne. unfold check_status. destruct status_code as [c|]; [| eauto].
  destruct (c =? 0)%Z; [eauto |].
  destruct (c =? 429)%Z eqn:E429.
  - apply Z.eqb_eq in E429. congruence.
  - repeat match goal with |- context [if ?b then _ else _] => destruct b end;
      eauto.
Qed.

(** X1. A retry-after header, its name in any letter case, decides the
    classification, whatever the body says: the result is RATE_LIMIT, with
    confidence 0.99 when the status code is not 429 and a rate-limit
    header reads zero, and with confidence 0.95 otherwise (a status of
    429 returns 0.95 before the headers are read). *)
Theorem detect_ban_retry_after_wins (html_content : option string)
    (status_code : option Z) (headers : Headers) (k : string) (v : HeaderValue) :
  In (k, v) headers -> lower k = "retry-after" ->
  detect_ban html_content status_code (Some headers)
  = (RATE_LIMIT,
     if bool_decide (status_code = Some 429%Z) then 0.95
     else if rate_limit_spent headers then 0.99
     else 0.95).
Proof.
  intros Hin Hk. unfold detect_ban.
  destruct (bool_decide_reflect (status_code = Some 429%Z)) as [-> | Hne];
    [reflexivity |].
  destruct (check_status_continues status_code Hne) as [r0 ->].
  pose proof (headers_lower_has headers k v Hin) as Hkey. rewrite Hk in Hkey.
  unfold check_headers, rate_limit_spent.
  destruct headers as [|kv hs]; [contradiction |].
  rewrite Hkey.
  destruct (match headers_lower (kv :: hs) !! "x-ratelimit-remaining" with
            | Some remaining => str_is_zero remaining
            | None => false
            end); reflexivity.
Qed.

Lemma detect_ban_retry_after_wins_witness :
  detect_ban (Some "Welcome back") (Some 200%Z)
    (Some [("X-RateLimit-Remaining", HInt 0); ("Retry-After", HStr "120")])
  = (RATE_LIMIT,
     if bool_decide (Some 200%Z = Some 429%Z) then 0.95
     else if rate_limit_spent
               [("X-RateLimit-Remaining", HInt 0); ("Retry-After", HStr "120")]
          then 0.99
          else 0.95).
Proof.
  apply (detect_ban_retry_after_wins (Some "Welcome back") (Some 200%Z)
           [("X-RateLimit-Remaining", HInt 0); ("Retry-After", HStr "120")]
           "Retry-After" (HStr "120")).
  - simpl. tauto.
  - reflexivity.
Defined.

(** The three cases of the confidence: a spent rate limit under a status
    of 200, the same under a status of 429, and a retry-after header
    alone. *)
Example detect_ban_retry_after_cases :
  detect_ban None (Some 200%Z)
    (Some [("X-RateLimit-Remaining", HInt 0); ("Retry-After", HStr "120")])
  = (RATE_LIMIT, 0.99)
  /\ detect_ban None (Some 429%Z)
       (Some [("X-RateLimit-Remaining", HInt 0); ("Retry-After", HStr "120")])
     = (RATE_LIMIT, 0.95)
  /\ detect_ban None (Some 200%Z) (Some [("Retry-After", HStr "120")])
     = (RATE_LIMIT, 0.95).
Proof. vm_compute. repeat split; reflexivity. Qed.

Lemma check_status_graded (status_code : option Z) :
  match check_status status_code with
  | Return r | Continue r => well_graded r
  end.
Proof.
  unfold check_status, well_graded. destruct status_code as [c|]; simpl; [| tauto].
  repeat match goal with |- context [if ?b then _ else _] => destruct b end;
    simpl; try tauto; lra.
Qed.

Lemma scan_category_graded (content_lower : string) (r : BanType * Q)
    (entry : BanType * list regex) :
  In (fst entry) [RATE_LIMIT; IP_BAN; CAPTCHA; CLOUDFLARE; BEHAVIORAL;
                  GEOGRAPHIC; USER_AGENT] ->
  well_graded r -> well_graded (scan_category content_lower r entry).
Proof.
  intros Hb Hr. unfold scan_category. destruct entry as [b ps]. simpl in Hb.
  destruct (0 <? count_matches ps content_lower)%nat eqn:Em; [| exact Hr].
  destruct (Qltb _ _); [| exact Hr].
  apply Nat.ltb_lt in Em.
  assert (Hc : 0.3 <= py_min (of_nat (count_matches ps content_lower) * 0.3) 0.95
               <= 0.99).
  { rewrite py_min_spec. split.
    - apply Q.min_glb; [| lra].
      assert (1 <= of_nat (count_matches ps content_lower)).
      { unfold of_nat. rewrite <- (Zle_Qle 1). lia. }
      lra.
    - eapply Qle_trans; [apply Q.le_min_r | lra]. }
  unfold well_graded. simpl.
  repeat (destruct Hb as [<- | Hb]; [exact Hc |]). contradiction.
Qed.

Lemma check_content_graded (html_content : option string) (r : BanType * Q) :
  well_graded r -> well_graded (check_content html_content r).
Proof.
  unfold check_content. intros H.
  destruct html_content as [[|c h]|]; try assumption.
  assert (Hkeys : Forall (fun entry =>
            In (fst entry) [RATE_LIMIT; IP_BAN; CAPTCHA; CLOUDFLARE; BEHAVIORAL;
                            GEOGRAPHIC; USER_AGENT]) ban_patterns).
  { unfold ban_patterns. repeat constructor; simpl; tauto. }
  revert r H. induction Hkeys as [|e l He Hl IH]; simpl; intros r H; [assumption |].
  apply IH, scan_category_graded; assumption.
Qed.

Lemma check_headers_graded (headers : option Headers) (r : BanType * Q) :
  well_graded r ->
  match check_headers headers r with
  | Return r' | Continue r' => well_graded r'
  end.
Proof.
  unfold check_headers. intros H.
  destruct headers as [[|kv hs]|]; try assumption.
  destruct (match _ !! "x-ratelimit-remaining" with Some _ => _ | None => _ end);
    [unfold well_graded; simpl; lra |].
  destruct (has_key "retry-after" _); [unfold well_graded; simpl; lra |].
  destruct (_ || _); [| assumption].
  destruct r as [b c]. unfold well_graded in *. simpl in *.
  destruct b; try assumption.
  simpl. destruct H as [-> | ->]; vm_compute; split; discriminate.
Qed.

Lemma check_error_pages_graded (html_content : option string) (r : BanType * Q) :
  well_graded r -> well_graded (check_error_pages html_content r).
Proof.
  unfold check_error_pages. intros H.
  destruct html_content as [h|]; [| assumption].
  destruct (fst r) eqn:E; try assumption.
  destruct (String.eqb h _); [assumption |].
  destruct (existsb _ _); [reflexivity | assumption].
Qed.

Lemma detect_ban_graded (html_content : option string) (status_code : option Z)
    (headers : option Headers) :
  well_graded (detect_ban html_content status_code headers).
Proof.
  unfold detect_ban.
  pose proof (check_status_graded status_code) as Hs.
  destruct (check_status status_code) as [r|r0]; [exact Hs |].
  pose proof (check_headers_graded headers _
                (check_content_graded html_content r0 Hs)) as Hh.
  destruct (check_headers headers _) as [r|r1]; [exact Hh |].
  apply check_error_pages_graded, Hh.
Qed.

(** X2. Every ban that [detect_ban] reports has a confidence from 0.3 to
    0.99, and a result without a ban type has the confidence 0 or the
    baseline 0.5 of a status code from 400 on. *)
Theorem detect_ban_confidence_bands (html_content : option string)
    (status_code : option Z) (headers : option Headers) :
  let r := detect_ban html_content status_code headers in
  (fst r <> NONE -> 0.3 <= snd r <= 0.99)
  /\ (fst r = NONE -> snd r = 0.0 \/ snd r = 0.5).
Proof.
  intros r. pose proof (detect_ban_graded html_content status_code headers) as H.
  fold r in H. unfold well_graded in H. split.
  - intros Hne. destruct (fst r); try exact H; try contradiction.
    rewrite H. lra.
  - intros E. rewrite E in H. exact H.
Qed.

(** X3. [detect_ban] never returns FINGERPRINT, TEMPORARY or PERMANENT,
    and it returns ACCESS_DENIED only with the confidence 0.7. *)
Theorem detect_ban_unused_types (html_content : option string)
    (status_code : option Z) (headers : option Headers) :
  let r := detect_ban html_content status_code headers in
  fst r <> FINGERPRINT /\ fst r <> TEMPORARY /\ fst r <> PERMANENT
  /\ (fst r = ACCESS_DENIED -> snd r = 0.7).
Proof.
  intros r. pose proof (detect_ban_graded html_content status_code headers) as H.
  fold r in H. unfold well_graded in H.
  repeat split; try (intros E; rewrite E in H; exact H).
Qed.

(** X4. When the scraper acts on a classification (a ban type other than
    NONE with a confidence above 0.7), the ban type has a preference list
    in the recovery table, so the planner's default of WAIT for an
    unlisted type is not what answers it; ACCESS_DENIED in particular is
    never acted on. *)
Theorem scrape_acts_on_listed_types (html_content : option string)
    (status_code : option Z) (headers : option Headers) :
  acts_on_ban (detect_ban html_content status_code headers) = true ->
  is_Some (recovery_strategies
             (fst (detect_ban html_content status_code headers)))
  /\ fst (detect_ban html_content status_code headers) <> ACCESS_DENIED.
Proof.
  pose proof (detect_ban_graded html_content status_code headers) as H.
  destruct (detect_ban html_content status_code headers) as [b c].
  unfold acts_on_ban, well_graded in *. simpl in *.
  intros Ha. apply andb_true_iff in Ha as [Hb Hc]. apply Qltb_lt in Hc.
  destruct b; simpl in *; try contradiction; try discriminate;
    try (split; [eauto | discriminate]).
  rewrite H in Hc. exfalso. lra.
Qed.

Lemma scrape_acts_on_listed_types_witness :
  is_Some (recovery_strategies
             (fst (detect_ban (Some "Access Forbidden") (Some 403%Z) None)))
  /\ fst (detect_ban (Some "Access Forbidden") (Some 403%Z) None)
     <> ACCESS_DENIED.
Proof.
  apply (scrape_acts_on_listed_types (Some "Access Forbidden") (Some 403%Z) None).
  vm_compute. reflexivity.
Defined.

Lemma lower_ascii_idem (c : ascii) : lower_ascii (lower_ascii c) = lower_ascii c.
Proof.
  destruct c as [[] [] [] [] [] [] [] []]; vm_compute; reflexivity.
Qed.

Lemma lower_idem (s : string) : lower (lower s) = lower s.
Proof.
  induction s as [|c s IH]; simpl; [reflexivity |].
  rewrite lower_ascii_idem, IH. reflexivity.
Qed.

(** X5. The body is read without regard to letter case: a body and its
    lower-cased form are classified alike, with every status code and
    every set of headers. *)
Theorem detect_ban_ignores_case (h : string) (status_code : option Z)
    (headers : option Headers) :
  detect_ban (Some (lower h)) status_code headers
  = detect_ban (Some h) status_code headers.
Proof.
  unfold detect_ban, check_content, check_error_pages.
  rewrite lower_idem. destruct h as [|c h]; reflexivity.
Qed.

End ClassifierMore.

(** ** More on the reputation store and the recovery planner *)

Section StoreMore.

Local Open Scope string_scope.

(** Reads a projection of a state built from the setters. *)
Ltac frame :=
  unfold view, reputation_of, history_of, attempts_of, recoveries_of,
    touch_reputation, set_reputation, set_history, set_attempts, add_recovery,
    reset_domain in *;
  simpl in *;
  rewrite ?lookup_insert in *;
  repeat case_decide; simplify_eq; simpl in *; try reflexivity; try congruence.

Lemma calculate_wait_time_state (jitter : Q) (domain : string) (attempt : Z)
    (st : BanDetector.State) :
  snd (calculate_wait_time jitter domain attempt st)
  = set_history domain (history_of st domain) st.
Proof. reflexivity. Qed.

Lemma touch_reputation_view (domain d : string) (st : BanDetector.State) :
  view (touch_reputation domain st) d = view st d.
Proof. frame. Qed.

Lemma touch_history_view (domain d : string) (st : BanDetector.State) :
  view (set_history domain (history_of st domain) st) d = view st d.
Proof. frame. Qed.

Lemma touch_attempts_view (domain d : string) (st : BanDetector.State) :
  view (set_attempts domain (attempts_of st domain) st) d = view st d.
Proof. frame. Qed.

(** The state that [execute_recovery] leaves: the attempt counter goes
    up by one and a successful recovery is put on record; the rest is as
    before. *)
Lemma execute_recovery_view (jitter now : Q) (domain : string) (b : BanType)
    (s : RecoveryStrategy) (st : BanDetector.State) (d : string) :
  view (snd (execute_recovery jitter now domain b s st)) d
  = if decide (domain = d)
    then (reputation_of st d, history_of st d, (attempts_of st d + 1)%nat,
          if decide (s = ABANDON) then recoveries_of st d
          else (recoveries_of st d
                ++ [{| ban_type := b; strategy := s; timestamp := now |}])%list)
    else view st d.
Proof.
  unfold execute_recovery.
  destruct s; simpl; frame.
Qed.

Lemma get_domain_health_view (clock : nat -> Q) (now : Q) (domain d : string)
    (st : BanDetector.State) :
  view (snd (get_domain_health clock now domain st)) d = view st d.
Proof.
  unfold get_domain_health.
  destruct (should_proceed now domain _) as [proceed st4] eqn:E.
  simpl. replace st4 with (snd (should_proceed now domain
    (set_attempts domain
       (attempts_of
          (set_history domain (history_of (touch_reputation domain st) domain)
             (touch_reputation domain st)) domain)
       (set_history domain (history_of (touch_reputation domain st) domain)
          (touch_reputation domain st))))) by (rewrite E; reflexivity).
  rewrite should_proceed_state, touch_reputation_view, touch_attempts_view,
    touch_history_view, touch_reputation_view. reflexivity.
Qed.

(** A call about one domain leaves what is held about the others as it
    is. *)
Lemma call_view_other (st : BanDetector.State) (c : Call) (d : string) :
  call_domain c <> d -> view (call st c) d = view st d.
Proof.
  intros Hne. destruct c as [op | jitter now domain b s | clock now domain].
  - destruct op as [t_event t_last domain b metadata | domain success
                   | now domain | domain b | jitter domain attempt | domain];
      simpl in *.
    + unfold record_ban. frame.
    + unfold update_reputation. frame.
    + rewrite should_proceed_state. apply touch_reputation_view.
    + rewrite get_recovery_strategy_state. apply touch_reputation_view.
    + apply touch_history_view.
    + frame.
  - simpl in *. rewrite execute_recovery_view.
    destruct (decide (domain = d)); [congruence | reflexivity].
  - simpl. apply get_domain_health_view.
Qed.

Lemma tuple4_inv {A B C D : Type} (a a' : A) (b b' : B) (c c' : C) (d d' : D) :
  (a, b, c, d) = (a', b', c', d') -> a = a' /\ b = b' /\ c = c' /\ d = d'.
Proof. intros H. injection H. auto. Qed.

Lemma view_parts (st st' : BanDetector.State) (d : string) :
  view st' d = view st d ->
  reputation_of st' d = reputation_of st d
  /\ history_of st' d = history_of st d
  /\ attempts_of st' d = attempts_of st d
  /\ recoveries_of st' d = recoveries_of st d.
Proof. unfold view. intros H. injection H. auto. Qed.

Lemma should_proceed_reads (now : Q) (d : string) (st st' : BanDetector.State) :
  reputation_of st' d = reputation_of st d ->
  fst (should_proceed now d st') = fst (should_proceed now d st).
Proof.
  intros H. unfold should_proceed. rewrite H.
  repeat match goal with
         | |- context [if ?b then _ else _] => destruct b
         | |- context [match ?o with Some _ => _ | None => _ end] => destruct o
         end; reflexivity.
Qed.

Lemma recoveries_lookup (st : BanDetector.State) (d : string) (b : BanType) :
  successful_recoveries st !! d ≫= past_strategy b = remembered st d b.
Proof.
  unfold remembered, recoveries_of.
  destruct (successful_recoveries st !! d); reflexivity.
Qed.

(** The answer of [get_recovery_strategy] from what is held about the
    domain. *)
Lemma get_recovery_strategy_answer (d : string) (b : BanType)
    (st : BanDetector.State) :
  fst (get_recovery_strategy d b st)
  = if Qltb (reputation_score (reputation_of st d)) reputation_threshold
    then ABANDON
    else if (ban_threshold <? bans (reputation_of st d))%nat then ABANDON
    else match remembered st d b with
         | Some s => s
         | None => hd WAIT (default [WAIT] (recovery_strategies b))
         end.
Proof.
  unfold get_recovery_strategy. rewrite recoveries_lookup.
  destruct (Qltb _ _); [reflexivity |].
  destruct (_ <? _)%nat; [reflexivity |].
  destruct (remembered st d b); [reflexivity |].
  destruct (default [WAIT] (recovery_strategies b)); reflexivity.
Qed.

Lemma get_recovery_strategy_reads (d : string) (b : BanType)
    (st st' : BanDetector.State) :
  reputation_of st' d = reputation_of st d ->
  recoveries_of st' d = recoveries_of st d ->
  fst (get_recovery_strategy d b st') = fst (get_recovery_strategy d b st).
Proof.
  intros Hr Hc. rewrite !get_recovery_strategy_answer. unfold remembered.
  rewrite Hr, Hc. reflexivity.
Qed.

Lemma calculate_wait_time_reads (jitter : Q) (d : string) (attempt : Z)
    (st st' : BanDetector.State) :
  history_of st' d = history_of st d ->
  fst (calculate_wait_time jitter d attempt st')
  = fst (calculate_wait_time jitter d attempt st).
Proof. intros H. unfold calculate_wait_time. simpl. rewrite H. reflexivity. Qed.

(** X6. The detector keeps its state per domain: a call about one domain
    changes no answer about another one, neither of [should_proceed] nor
    of [get_recovery_strategy] nor of [calculate_wait_time]. *)
Theorem calls_keep_domains_apart (st : BanDetector.State) (c : Call)
    (d : string) (now jitter : Q) (b : BanType) (attempt : Z) :
  call_domain c <> d ->
  fst (should_proceed now d (call st c)) = fst (should_proceed now d st)
  /\ fst (get_recovery_strategy d b (call st c))
     = fst (get_recovery_strategy d b st)
  /\ fst (calculate_wait_time jitter d attempt (call st c))
     = fst (calculate_wait_time jitter d attempt st).
Proof.
  intros Hne.
  destruct (view_parts _ _ _ (call_view_other st c d Hne)) as (Hr & Hh & _ & Hc).
  split; [| split].
  - apply should_proceed_reads, Hr.
  - apply get_recovery_strategy_reads; assumption.
  - apply calculate_wait_time_reads, Hh.
Qed.

Lemma calls_keep_domains_apart_witness :
  fst (should_proceed 5010 "other.example"
         (call BanDetector.init
            (CallOp (OpRecordBan 5000 5000 "example.com" IP_BAN None))))
  = fst (should_proceed 5010 "other.example" BanDetector.init)
  /\ fst (get_recovery_strategy "other.example" IP_BAN
            (call BanDetector.init
               (CallOp (OpRecordBan 5000 5000 "example.com" IP_BAN None))))
     = fst (get_recovery_strategy "other.example" IP_BAN BanDetector.init)
  /\ fst (calculate_wait_time 1 "other.example" 2
            (call BanDetector.init
               (CallOp (OpRecordBan 5000 5000 "example.com" IP_BAN None))))
     = fst (calculate_wait_time 1 "other.example" 2 BanDetector.init).
Proof.
  apply (calls_keep_domains_apart BanDetector.init
           (CallOp (OpRecordBan 5000 5000 "example.com" IP_BAN None))
           "other.example" 5010 1 IP_BAN 2).
  simpl. discriminate.
Defined.

Lemma deque_append_length {A : Type} (n : nat) (l : list A) (x : A) :
  List.length (deque_append n l x) = Nat.min (List.length l + 1) n.
Proof.
  unfold deque_append. rewrite length_drop, length_app. simpl. lia.
Qed.

Lemma deque_append_last {A : Type} (n : nat) (l : list A) (x : A) :
  (0 < n)%nat -> last (deque_append n l x) = Some x.
Proof.
  intros Hn. unfold deque_append.
  rewrite last_lookup, lookup_drop, length_drop, length_app. simpl.
  replace (List.length l + 1 - n + pred (List.length l + 1 - (List.length l + 1 - n)))%nat
    with (List.length l + 0)%nat by lia.
  rewrite lookup_app_r by lia.
  replace (List.length l + 0 - List.length l)%nat with 0%nat by lia.
  reflexivity.
Qed.

Lemma record_ban_history (t_event t_last : Q) (domain : string) (b : BanType)
    (metadata : option (gmap string Q)) (st : BanDetector.State) :
  history_of (record_ban t_event t_last domain b metadata st) domain
  = deque_append 100 (history_of st domain)
      {| ev_timestamp := t_event; ev_type := b;
         ev_metadata := default ∅ metadata |}.
Proof. unfold record_ban. frame. Qed.

Lemma store_inv_init : store_inv BanDetector.init.
Proof.
  intros d. unfold reputation_of, history_of. simpl. rewrite !lookup_empty.
  simpl. repeat split; try lia; lra.
Qed.

Lemma store_inv_call (st : BanDetector.State) (c : Call) :
  store_inv st -> store_inv (call st c).
Proof.
  intros Hinv d. pose proof (Hinv d) as (Hs & Hc & Hh & Hb). cbv zeta in *.
  destruct (decide (call_domain c = d)) as [<-|Hne].
  2: { destruct (view_parts _ _ _ (call_view_other st c d Hne))
         as (-> & -> & _ & _). auto. }
  destruct c as [op | jitter now domain b s | clock now domain].
  - destruct op as [t_event t_last domain b metadata | domain success
                   | now domain | domain b | jitter domain attempt | domain];
      simpl in *.
    + rewrite record_ban_reputation, record_ban_history, deque_append_length.
      simpl. repeat split; try lia; lra.
    + pose proof (update_reputation_score domain success st) as Hu.
      assert (Hh' : history_of (update_reputation domain success st) domain
                    = history_of st domain) by reflexivity.
      rewrite Hh', Hu. unfold update_reputation.
      rewrite reputation_of_set. destruct (decide (domain = domain)); [| congruence].
      destruct success; simpl.
      * unfold py_min. destruct (Qltb _ _) eqn:El;
          [apply Qltb_lt in El |]; repeat split; try lia; lra.
      * repeat split; try lia; lra.
    + rewrite should_proceed_state.
      destruct (view_parts _ _ _ (touch_reputation_view domain domain st))
        as (-> & -> & _ & _). auto.
    + rewrite get_recovery_strategy_state.
      destruct (view_parts _ _ _ (touch_reputation_view domain domain st))
        as (-> & -> & _ & _). auto.
    + destruct (view_parts _ _ _ (touch_history_view domain domain st))
        as (-> & -> & _ & _). auto.
    + unfold reset_domain, reputation_of, history_of. simpl.
      rewrite !lookup_insert_eq. simpl. repeat split; try lia; lra.
  - simpl. pose proof (execute_recovery_view jitter now domain b s st domain) as Hv.
    destruct (decide (domain = domain)); [| congruence].
    apply tuple4_inv in Hv as (-> & -> & _ & _). auto.
  - simpl.
    destruct (view_parts _ _ _ (get_domain_health_view clock now domain domain st))
      as (-> & -> & _ & _). auto.
Qed.

Lemma store_inv_run (calls : list Call) (st : BanDetector.State) :
  store_inv st -> store_inv (run_calls calls st).
Proof.
  unfold run_calls. revert st.
  induction calls as [|c calls IH]; simpl; intros st H; [exact H |].
  apply IH, store_inv_call, H.
Qed.

(** X7. The ban history of a domain never holds more than 100 events
    and never more events than the ban count says, after every run of the
    detector; a ban that is recorded is the newest event of its domain. *)
Theorem ban_history_bounded (calls : list Call) (d : string) :
  (List.length (history_of (run_calls calls BanDetector.init) d) <= 100)%nat
  /\ (List.length (history_of (run_calls calls BanDetector.init) d)
      <= bans (reputation_of (run_calls calls BanDetector.init) d))%nat
  /\ (forall t_event t_last b metadata,
        last (history_of
                (record_ban t_event t_last d b metadata
                   (run_calls calls BanDetector.init)) d)
        = Some {| ev_timestamp := t_event; ev_type := b;
                  ev_metadata := default ∅ metadata |}).
Proof.
  pose proof (store_inv_run calls _ store_inv_init d) as (_ & _ & Hh & Hb).
  split; [exact Hh |]. split; [exact Hb |].
  intros. rewrite record_ban_history. apply deque_append_last. lia.
Qed.

Lemma bans_call (st : BanDetector.State) (c : Call) (d : string) :
  resets d c = false ->
  (bans (reputation_of st d) <= bans (reputation_of (call st c) d))%nat.
Proof.
  intros Hr. destruct (decide (call_domain c = d)) as [<-|Hne].
  2: { destruct (view_parts _ _ _ (call_view_other st c d Hne)) as (-> & _).
       lia. }
  destruct c as [op | jitter now domain b s | clock now domain].
  - destruct op as [t_event t_last domain b metadata | domain success
                   | now domain | domain b | jitter domain attempt | domain];
      simpl in *.
    + rewrite record_ban_reputation. simpl. lia.
    + unfold update_reputation. rewrite reputation_of_set.
      destruct (decide (domain = domain)); [| congruence].
      destruct success; simpl; lia.
    + rewrite should_proceed_state, reputation_of_touch. lia.
    + rewrite get_recovery_strategy_state, reputation_of_touch. lia.
    + apply le_n.
    + rewrite bool_decide_eq_true_2 in Hr by reflexivity. discriminate.
  - simpl. pose proof (execute_recovery_view jitter now domain b s st domain) as Hv.
    destruct (decide (domain = domain)); [| congruence].
    apply tuple4_inv in Hv as (-> & _ & _ & _). lia.
  - simpl.
    destruct (view_parts _ _ _ (get_domain_health_view clock now domain domain st))
      as (-> & _). lia.
Qed.

Lemma bans_run (calls : list Call) (st : BanDetector.State) (d : string) :
  Forall (fun c => resets d c = false) calls ->
  (bans (reputation_of st d) <= bans (reputation_of (run_calls calls st) d))%nat.
Proof.
  unfold run_calls. intros H. revert st.
  induction H as [|c calls Hc Hcalls IH]; simpl; intros st; [lia |].
  etrans; [apply (bans_call st c d Hc) | apply IH].
Qed.

(** X8. A domain with more than 10 recorded bans stays closed: after
    every run of the detector without a [reset_domain] of that domain,
    [should_proceed] answers false at every time and
    [get_recovery_strategy] answers ABANDON for every ban type, however
    many successes were reported in between. *)
Theorem abandoned_until_reset (calls : list Call) (st : BanDetector.State)
    (d : string) (now : Q) (b : BanType) :
  Forall (fun c => resets d c = false) calls ->
  (ban_threshold < bans (reputation_of st d))%nat ->
  fst (should_proceed now d (run_calls calls st)) = false
  /\ fst (get_recovery_strategy d b (run_calls calls st)) = ABANDON.
Proof.
  intros Hcalls Hb. pose proof (bans_run calls st d Hcalls) as Hle.
  assert (Hb' : (ban_threshold <? bans (reputation_of (run_calls calls st) d))%nat
                = true) by (apply Nat.ltb_lt; lia).
  split.
  - apply should_proceed_many_bans. apply Nat.ltb_lt, Hb'.
  - rewrite get_recovery_strategy_answer, Hb'.
    destruct (Qltb _ _); reflexivity.
Qed.

Lemma abandoned_until_reset_witness :
  fst (should_proceed 9000 "example.com"
         (run_calls
            [CallOp (OpUpdateReputation "example.com" true);
             CallOp (OpResetDomain "other.example");
             CallExecuteRecovery 1 8000 "example.com" IP_BAN ROTATE_PROXY]
            (record_bans "example.com" eleven_bans BanDetector.init)))
  = false
  /\ fst (get_recovery_strategy "example.com" CAPTCHA
            (run_calls
               [CallOp (OpUpdateReputation "example.com" true);
                CallOp (OpResetDomain "other.example");
                CallExecuteRecovery 1 8000 "example.com" IP_BAN ROTATE_PROXY]
               (record_bans "example.com" eleven_bans BanDetector.init)))
     = ABANDON.
Proof.
  apply (abandoned_until_reset
           [CallOp (OpUpdateReputation "example.com" true);
            CallOp (OpResetDomain "other.example");
            CallExecuteRecovery 1 8000 "example.com" IP_BAN ROTATE_PROXY]
           (record_bans "example.com" eleven_bans BanDetector.init)
           "example.com" 9000 CAPTCHA).
  - repeat constructor.
  - vm_compute. lia.
Defined.

(** X9. [reset_domain] makes the domain new again, whatever was held
    about it: [should_proceed] answers true at every time, the planner
    answers the first strategy of the ban type's list (WAIT for a type
    without a list), the backoff starts from the plain exponential wait
    (for the attempts below 1022, for which the source returns a wait)
    and the attempt counter is 0. *)
Theorem reset_domain_forgets (st : BanDetector.State) (d : string)
    (now : Q) (b : BanType) :
  fst (should_proceed now d (reset_domain d st)) = true
  /\ fst (get_recovery_strategy d b (reset_domain d st))
     = hd WAIT (default [WAIT] (recovery_strategies b))
  /\ (forall (jitter : Q) (attempt : Z),
        (attempt < overflow_attempt)%Z ->
        fst (calculate_wait_time jitter d attempt (reset_domain d st))
        = py_min (base_wait_time * 2 ^ attempt + jitter) max_wait_time)
  /\ attempts_of (reset_domain d st) d = 0%nat.
Proof.
  assert (Hr : reputation_of (reset_domain d st) d = default_reputation)
    by (unfold reputation_of, reset_domain; simpl;
        rewrite lookup_insert_eq; reflexivity).
  split; [| split; [| split]].
  - unfold should_proceed. rewrite Hr. reflexivity.
  - rewrite get_recovery_strategy_answer, Hr.
    unfold remembered, recoveries_of, reset_domain. simpl.
    rewrite lookup_insert_eq. reflexivity.
  - intros jitter attempt _.
    unfold calculate_wait_time, history_of, reset_domain. simpl.
    rewrite lookup_insert_eq. reflexivity.
  - unfold attempts_of, reset_domain. simpl. rewrite lookup_insert_eq.
    reflexivity.
Qed.

(** X10. After a ban recorded at a clock reading other than zero, the
    gate of the domain is open again exactly when the ban is at least 60
    seconds old, the lowered score is still 0.3 or more, and no more than
    10 bans are on record. *)
Theorem record_ban_closes_gate (st : BanDetector.State) (t_event t_last : Q)
    (d : string) (b : BanType) (metadata : option (gmap string Q)) (now : Q) :
  ~ t_last == 0 ->
  fst (should_proceed now d (record_ban t_event t_last d b metadata st)) = true
  <-> 60 <= now - t_last
      /\ reputation_threshold <= reputation_score (reputation_of st d) * 0.9
      /\ (bans (reputation_of st d) + 1 <= ban_threshold)%nat.
Proof.
  intros Ht. unfold should_proceed. rewrite record_ban_reputation. simpl.
  apply truthy_true in Ht. rewrite Ht.
  destruct (Qltb (_ * 0.9) reputation_threshold) eqn:Es;
    [apply Qltb_lt in Es | apply Qltb_ge in Es].
  { simpl. split; [discriminate | intros (_ & H & _); exfalso; lra]. }
  destruct (ban_threshold <? _)%nat eqn:Eb;
    [apply Nat.ltb_lt in Eb | apply Nat.ltb_ge in Eb].
  { simpl. split; [discriminate | intros (_ & _ & H); exfalso; lia]. }
  destruct (Qltb (now - t_last) 60) eqn:En;
    [apply Qltb_lt in En | apply Qltb_ge in En]; simpl.
  - split; [discriminate | intros (H & _); exfalso; lra].
  - split; [intros _; repeat split; assumption | reflexivity].
Qed.

Lemma record_ban_closes_gate_witness :
  fst (should_proceed 5060 "example.com"
         (record_ban 5000 5000 "example.com" IP_BAN None BanDetector.init))
  = true
  <-> 60 <= 5060 - 5000
      /\ reputation_threshold
         <= reputation_score (reputation_of BanDetector.init "example.com") * 0.9
      /\ (bans (reputation_of BanDetector.init "example.com") + 1
          <= ban_threshold)%nat.
Proof.
  apply (record_ban_closes_gate BanDetector.init 5000 5000 "example.com"
           IP_BAN None 5060).
  intros H. vm_compute in H. discriminate.
Defined.

Lemma recent_events_length (clock : nat -> Q) (events : list BanEvent) :
  (List.length (recent_events clock events) <= List.length events)%nat.
Proof.
  unfold recent_events. rewrite length_fmap.
  etrans; [apply List.filter_length_le |]. rewrite length_imap. lia.
Qed.

Lemma of_nat_le (m n : nat) : (m <= n)%nat -> of_nat m <= of_nat n.
Proof. intros H. unfold of_nat. rewrite <- Zle_Qle. lia. Qed.

(** X11. The health report of a domain, after every run of the detector:
    the success rate is a fraction between 0 and 1, the successes do not
    exceed the requests, the count of recent bans is at most 100 and at
    most the count of all bans, and the status is healthy exactly when
    [should_proceed] answers true at the same time. *)
Theorem get_domain_health_sound (calls : list Call) (clock : nat -> Q)
    (now : Q) (d : string) :
  let st := run_calls calls BanDetector.init in
  let h := fst (get_domain_health clock now d st) in
  0 <= dh_success_rate h <= 1
  /\ (dh_successful_requests h <= dh_total_requests h)%nat
  /\ (dh_recent_bans h <= 100)%nat
  /\ (dh_recent_bans h <= dh_total_bans h)%nat
  /\ (dh_status h = "healthy" <-> fst (should_proceed now d st) = true).
Proof.
  intros st h.
  pose proof (store_inv_run calls _ store_inv_init d) as (_ & Hc & Hh & Hb).
  fold st in Hc, Hh, Hb. cbv zeta in Hc, Hh, Hb.
  subst h. unfold get_domain_health.
  destruct (should_proceed now d _) as [proceed st4] eqn:E. simpl.
  assert (Hp : proceed = fst (should_proceed now d st)).
  { change proceed with (fst (proceed, st4)). rewrite <- E.
    apply should_proceed_reads. exact (reputation_of_touch d d st). }
  change (history_of (touch_reputation d st) d) with (history_of st d).
  pose proof (recent_events_length clock (history_of st d)) as Hrec.
  assert (Hpos : 0 < of_nat (Nat.max (requests (reputation_of st d)) 1)).
  { unfold of_nat. rewrite <- (Zlt_Qlt 0). lia. }
  split; [split |]; [| | split; [| split; [| split]]].
  - apply Qle_shift_div_l; [exact Hpos |].
    rewrite Qmult_0_l. apply (of_nat_le 0). lia.
  - apply Qle_shift_div_r; [exact Hpos |].
    rewrite Qmult_1_l. apply of_nat_le. lia.
  - exact Hc.
  - lia.
  - lia.
  - rewrite <- Hp. destruct proceed; split; intros H; try reflexivity;
      discriminate.
Qed.

(** X12. On every state the detector can reach, a reported success never
    lowers the score of the domain and never takes it above 1, and a
    reported failure never raises it; neither changes the ban count or
    the time of the last ban.  In the binary64 arithmetic of the source a
    failure lowers a score of the unit interval strictly exactly when the
    score is above [failure_floor], nine times the smallest positive
    number (about 4.45e-323), and leaves a score from 0 to it as it is. *)
Theorem update_reputation_moves_score (calls : list Call) (d : string) :
  let st := run_calls calls BanDetector.init in
  let score s := reputation_score (reputation_of s d) in
  score st <= score (update_reputation d true st) <= 1
  /\ score (update_reputation d false st) <= score st
  /\ (forall x : PrimFloat.float,
        Binary64.unit_score x ->
        (Binary64.lt Binary64.failure_floor x ->
         Binary64.lt (Binary64.update_reputation false x) x)
        /\ (Binary64.le x Binary64.failure_floor ->
            Binary64.update_reputation false x = x))
  /\ (forall success,
        bans (reputation_of (update_reputation d success st) d)
        = bans (reputation_of st d)
        /\ last_ban (reputation_of (update_reputation d success st) d)
           = last_ban (reputation_of st d)).
Proof.
  intros st score. subst score. cbv beta.
  pose proof (store_inv_run calls _ store_inv_init d) as (Hs & _).
  fold st in Hs. cbv zeta in Hs.
  rewrite !update_reputation_score. split; [| split; [| split]].
  - unfold py_min. destruct (Qltb _ _) eqn:E;
      [apply Qltb_lt in E | apply Qltb_ge in E]; lra.
  - lra.
  - apply update_reputation_binary64.
  - intros success. unfold update_reputation. rewrite reputation_of_set.
    destruct (decide (d = d)); [| congruence].
    destruct success; split; reflexivity.
Qed.

Lemma recovery_action_result (jitter : Q) (d : string) (s : RecoveryStrategy)
    (st : BanDetector.State) :
  let r := fst (recovery_action jitter d s st) in
  res_success r = bool_decide (s <> ABANDON)
  /\ res_strategy r = s
  /\ res_wait_time r
     = if decide (s = WAIT)
       then fst (calculate_wait_time jitter d (Z.of_nat (attempts_of st d)) st)
       else 0.
Proof. destruct s; simpl; repeat split; reflexivity. Qed.

Lemma execute_recovery_result (jitter now : Q) (d : string) (b : BanType)
    (s : RecoveryStrategy) (st : BanDetector.State) :
  fst (execute_recovery jitter now d b s st)
  = fst (recovery_action jitter d s st).
Proof.
  unfold execute_recovery.
  destruct (recovery_action jitter d s st) as [r st1]. simpl.
  destruct (res_success r); reflexivity.
Qed.

(** X13. What a call of [execute_recovery] does, for all eight
    strategies: it reports success for every strategy but ABANDON, counts
    as an attempt in every case, puts the recovery on record exactly when
    it succeeded, waits only for WAIT (the backoff of the current attempt
    count, at most 300 seconds), and leaves the reputation and the ban
    history of the domain alone.  A WAIT is one for which the source
    computes a wait: the domain has fewer than 1022 attempts behind it. *)
Theorem execute_recovery_effects (jitter now : Q) (d : string) (b : BanType)
    (s : RecoveryStrategy) (st : BanDetector.State) :
  let r := fst (execute_recovery jitter now d b s st) in
  let st' := snd (execute_recovery jitter now d b s st) in
  (s = WAIT -> (Z.of_nat (attempts_of st d) < overflow_attempt)%Z) ->
  res_success r = bool_decide (s <> ABANDON)
  /\ res_strategy r = s
  /\ res_wait_time r
     = (if decide (s = WAIT)
        then fst (calculate_wait_time jitter d (Z.of_nat (attempts_of st d)) st)
        else 0)
  /\ res_wait_time r <= max_wait_time
  /\ attempts_of st' d = (attempts_of st d + 1)%nat
  /\ recoveries_of st' d
     = (if decide (s = ABANDON) then recoveries_of st d
        else (recoveries_of st d
              ++ [{| ban_type := b; strategy := s; timestamp := now |}])%list)
  /\ reputation_of st' d = reputation_of st d
  /\ history_of st' d = history_of st d.
Proof.
  intros r st' _. subst r st'.
  pose proof (execute_recovery_view jitter now d b s st d) as Hv.
  destruct (decide (d = d)); [| congruence].
  apply tuple4_inv in Hv as (Hr & Hh & Ha & Hc).
  rewrite execute_recovery_result.
  destruct (recovery_action_result jitter d s st) as (H1 & H2 & H3).
  cbv zeta in H1, H2, H3.
  repeat split; try assumption.
  rewrite H3. destruct (decide (s = WAIT)).
  - rewrite calculate_wait_time_closed. apply Q.le_min_l.
  - unfold max_wait_time. lra.
Qed.

Lemma execute_recovery_effects_witness :
  let r := fst (execute_recovery 4 5001 "example.com" IP_BAN WAIT st_banned) in
  let st' := snd (execute_recovery 4 5001 "example.com" IP_BAN WAIT st_banned) in
  res_success r = bool_decide (WAIT <> ABANDON)
  /\ res_strategy r = WAIT
  /\ res_wait_time r
     = (if decide (WAIT = WAIT)
        then fst (calculate_wait_time 4 "example.com"
                    (Z.of_nat (attempts_of st_banned "example.com")) st_banned)
        else 0)
  /\ res_wait_time r <= max_wait_time
  /\ attempts_of st' "example.com"
     = (attempts_of st_banned "example.com" + 1)%nat
  /\ recoveries_of st' "example.com"
     = (if decide (WAIT = ABANDON) then recoveries_of st_banned "example.com"
        else (recoveries_of st_banned "example.com"
              ++ [{| ban_type := IP_BAN; strategy := WAIT;
                     timestamp := 5001 |}])%list)
  /\ reputation_of st' "example.com" = reputation_of st_banned "example.com"
  /\ history_of st' "example.com" = history_of st_banned "example.com".
Proof.
  apply (execute_recovery_effects 4 5001 "example.com" IP_BAN WAIT st_banned).
  intros _. vm_compute. reflexivity.
Defined.

Lemma past_strategy_snoc (b : BanType) (l : list RecoveryRecord)
    (r : RecoveryRecord) :
  past_strategy b (l ++ [r])
  = match past_strategy b l with
    | Some s => Some s
    | None => if decide (ban_type r = b) then Some (strategy r) else None
    end.
Proof.
  unfold past_strategy. induction l as [|x l IH]; simpl.
  - destruct (decide (ban_type r = b)).
    + rewrite bool_decide_eq_true_2 by assumption. reflexivity.
    + rewrite bool_decide_eq_false_2 by assumption. reflexivity.
  - destruct (bool_decide (ban_type x = b)); [reflexivity | exact IH].
Qed.

(** X14. The planner repeats itself: when [get_recovery_strategy] picks
    a strategy other than ABANDON and that strategy is executed, the next
    call of [get_recovery_strategy] for the same domain and ban type
    picks the same strategy; the later entries of a preference list are
    not reached this way. *)
Theorem planner_repeats_itself (st : BanDetector.State) (d : string)
    (b : BanType) (jitter now : Q) :
  let s := fst (get_recovery_strategy d b st) in
  let st1 := snd (get_recovery_strategy d b st) in
  s <> ABANDON ->
  fst (get_recovery_strategy d b
         (snd (execute_recovery jitter now d b s st1)))
  = s.
Proof.
  intros s st1 Hs.
  pose proof (execute_recovery_view jitter now d b s st1 d) as Hv.
  destruct (decide (d = d)); [| congruence].
  destruct (decide (s = ABANDON)); [contradiction |].
  apply tuple4_inv in Hv as (Hr & _ & _ & Hc).
  subst st1. rewrite get_recovery_strategy_state in *.
  destruct (view_parts _ _ _ (touch_reputation_view d d st))
    as (Hr' & _ & _ & Hc').
  rewrite Hr' in Hr. rewrite Hc' in Hc.
  rewrite get_recovery_strategy_answer. unfold remembered. rewrite Hr, Hc.
  rewrite past_strategy_snoc. simpl.
  subst s. rewrite get_recovery_strategy_answer in *. unfold remembered in *.
  destruct (Qltb _ _); [congruence |].
  destruct (_ <? _)%nat; [congruence |].
  destruct (past_strategy b (recoveries_of st d)); [reflexivity |].
  destruct (decide (b = b)); [reflexivity | congruence].
Qed.

Lemma planner_repeats_itself_witness :
  fst (get_recovery_strategy "example.com" RATE_LIMIT
         (snd (execute_recovery 1 5001 "example.com" RATE_LIMIT
                 (fst (get_recovery_strategy "example.com" RATE_LIMIT st_banned))
                 (snd (get_recovery_strategy "example.com" RATE_LIMIT st_banned)))))
  = fst (get_recovery_strategy "example.com" RATE_LIMIT st_banned).
Proof.
  apply (planner_repeats_itself st_banned "example.com" RATE_LIMIT 1 5001).
  vm_compute. discriminate.
Defined.

Lemma remembered_call (st : BanDetector.State) (c : Call) (d : string)
    (b : BanType) (s : RecoveryStrategy) :
  resets d c = false ->
  remembered st d b = Some s -> remembered (call st c) d b = Some s.
Proof.
  intros Hr Hs. unfold remembered in *.
  destruct (decide (call_domain c = d)) as [<-|Hne].
  2: { destruct (view_parts _ _ _ (call_view_other st c d Hne))
         as (_ & _ & _ & ->). exact Hs. }
  destruct c as [op | jitter now domain b' s' | clock now domain].
  - destruct op as [t_event t_last domain b' metadata | domain success
                   | now domain | domain b' | jitter domain attempt | domain];
      simpl in *; try exact Hs.
    + rewrite should_proceed_state. exact Hs.
    + rewrite get_recovery_strategy_state. exact Hs.
    + rewrite bool_decide_eq_true_2 in Hr by reflexivity. discriminate.
  - simpl. pose proof (execute_recovery_view jitter now domain b' s' st domain) as Hv.
    destruct (decide (domain = domain)); [| congruence].
    apply tuple4_inv in Hv as (_ & _ & _ & ->).
    destruct (decide (s' = ABANDON)); [exact Hs |].
    rewrite past_strategy_snoc. simpl in Hs. rewrite Hs. reflexivity.
  - simpl.
    destruct (view_parts _ _ _ (get_domain_health_view clock now domain domain st))
      as (_ & _ & _ & ->). exact Hs.
Qed.

(** X15. A recovery on record is never replaced: once a strategy is
    remembered for a domain and a ban type, it stays the remembered one
    after every run without a [reset_domain] of the domain, and
    [get_recovery_strategy] answers it or ABANDON, never a third
    strategy. *)
Theorem remembered_strategy_stays (calls : list Call) (st : BanDetector.State)
    (d : string) (b : BanType) (s : RecoveryStrategy) :
  Forall (fun c => resets d c = false) calls ->
  remembered st d b = Some s ->
  remembered (run_calls calls st) d b = Some s
  /\ (fst (get_recovery_strategy d b (run_calls calls st)) = s
      \/ fst (get_recovery_strategy d b (run_calls calls st)) = ABANDON).
Proof.
  intros Hcalls Hs.
  assert (H : remembered (run_calls calls st) d b = Some s).
  { unfold run_calls. revert st Hs.
    induction Hcalls as [|c calls Hc _ IH]; simpl; intros st Hs; [exact Hs |].
    apply IH, remembered_call; assumption. }
  split; [exact H |].
  rewrite get_recovery_strategy_answer, H.
  destruct (Qltb _ _); [right; reflexivity |].
  destruct (_ <? _)%nat; [right | left]; reflexivity.
Qed.

Lemma remembered_strategy_stays_witness :
  remembered
    (run_calls
       [CallExecuteRecovery 1 6000 "example.com" RATE_LIMIT ROTATE_PROXY;
        CallOp (OpRecordBan 6100 6100 "example.com" RATE_LIMIT None)]
       st_recovered) "example.com" RATE_LIMIT
  = Some SLOW_DOWN
  /\ (fst (get_recovery_strategy "example.com" RATE_LIMIT
             (run_calls
                [CallExecuteRecovery 1 6000 "example.com" RATE_LIMIT ROTATE_PROXY;
                 CallOp (OpRecordBan 6100 6100 "example.com" RATE_LIMIT None)]
                st_recovered))
      = SLOW_DOWN
      \/ fst (get_recovery_strategy "example.com" RATE_LIMIT
                (run_calls
                   [CallExecuteRecovery 1 6000 "example.com" RATE_LIMIT
                      ROTATE_PROXY;
                    CallOp (OpRecordBan 6100 6100 "example.com" RATE_LIMIT None)]
                   st_recovered))
         = ABANDON).
Proof.
  apply (remembered_strategy_stays
           [CallExecuteRecovery 1 6000 "example.com" RATE_LIMIT ROTATE_PROXY;
            CallOp (OpRecordBan 6100 6100 "example.com" RATE_LIMIT None)]
           st_recovered "example.com" RATE_LIMIT SLOW_DOWN).
  - repeat constructor.
  - vm_compute. reflexivity.
Defined.

(** X16. The backoff escalates: of two WAIT recoveries executed one
    after the other for a domain, each with its own jitter from
    [0, base_wait_time], the second waits at least as long as the
    first; both are recoveries for which the source computes a wait, the
    second being attempt 1021 at most. *)
Theorem consecutive_waits_grow (st : BanDetector.State) (d : string)
    (b b' : BanType) (jitter jitter' now now' : Q) :
  0 <= jitter <= base_wait_time -> 0 <= jitter' <= base_wait_time ->
  (Z.of_nat (attempts_of st d) + 1 < overflow_attempt)%Z ->
  res_wait_time (fst (execute_recovery jitter now d b WAIT st))
  <= res_wait_time
       (fst (execute_recovery jitter' now' d b' WAIT
               (snd (execute_recovery jitter now d b WAIT st)))).
Proof.
  intros Hj Hj' _.
  pose proof (execute_recovery_view jitter now d b WAIT st d) as Hv.
  destruct (decide (d = d)); [| congruence].
  apply tuple4_inv in Hv as (_ & Hh & Ha & _).
  rewrite !execute_recovery_result.
  destruct (recovery_action_result jitter d WAIT st) as (_ & _ & ->).
  destruct (recovery_action_result jitter' d WAIT
              (snd (execute_recovery jitter now d b WAIT st))) as (_ & _ & ->).
  destruct (decide (WAIT = WAIT)); [| congruence].
  rewrite Ha.
  rewrite (calculate_wait_time_reads jitter' d _ st _ Hh).
  apply calculate_wait_time_monotone_fresh_jitter; try assumption. lia.
Qed.

Lemma consecutive_waits_grow_witness :
  res_wait_time (fst (execute_recovery 4 5001 "example.com" IP_BAN WAIT st_banned))
  <= res_wait_time
       (fst (execute_recovery 0 5030 "example.com" IP_BAN WAIT
               (snd (execute_recovery 4 5001 "example.com" IP_BAN WAIT
                       st_banned)))).
Proof.
  apply (consecutive_waits_grow st_banned "example.com" IP_BAN IP_BAN 4 0
           5001 5030);
    [vm_compute; split; discriminate | vm_compute; split; discriminate
    | vm_compute; reflexivity].
Defined.

End StoreMore.

(** ** More on the proxy health registry *)

Section RegistryMore.

Local Open Scope string_scope.

Lemma step_health (st : SmartProxyManager.State) (op : SmartProxyManager.Op)
    (pid : option string) :
  health_of (proxy_health (SmartProxyManager.step st op)) pid
  = health_step op pid (health_of (proxy_health st) pid).
Proof.
  destruct op as [now [proxy|] url
                 | now_health now_site proxy url success response_time error];
    simpl; try reflexivity; rewrite health_of_insert;
    destruct (decide (proxy_id proxy = pid)) as [<-|]; reflexivity.
Qed.

Lemma run_health (ops : list SmartProxyManager.Op)
    (st : SmartProxyManager.State) (pid : option string) :
  health_of (proxy_health (SmartProxyManager.run ops st)) pid
  = foldl (fun h op => health_step op pid h)
          (health_of (proxy_health st) pid) ops.
Proof.
  unfold SmartProxyManager.run. revert st.
  induction ops as [|op ops IH]; simpl; intros st; [reflexivity |].
  rewrite IH, step_health. reflexivity.
Qed.

(** An invariant of the records: it holds of a new record and every
    operation keeps it. *)
Lemma health_invariant (P : Health -> Prop) :
  P default_health ->
  (forall op pid h, P h -> P (health_step op pid h)) ->
  forall residential ops pid,
    P (health_of
         (proxy_health
            (SmartProxyManager.run ops (SmartProxyManager.init residential)))
         pid).
Proof.
  intros H0 Hstep residential ops pid. rewrite run_health, health_of_init.
  generalize default_health H0.
  induction ops as [|op ops IH]; simpl; intros h Hh; [exact Hh |].
  apply IH, Hstep, Hh.
Qed.

Lemma rate_of_counts_range (h : Health) : 0 <= rate_of_counts h <= 100.
Proof.
  unfold rate_of_counts.
  destruct (0 <? _)%nat eqn:E; [| lra]. apply Nat.ltb_lt in E.
  assert (Hpos : 0 < of_nat (success_count h + failure_count h)).
  { unfold of_nat. rewrite <- (Zlt_Qlt 0). lia. }
  assert (H0 : 0 <= of_nat (success_count h)) by (apply (of_nat_le 0); lia).
  assert (H1 : of_nat (success_count h)
               <= of_nat (success_count h + failure_count h))
    by (apply of_nat_le; lia).
  assert (Hd : 0 <= of_nat (success_count h)
                    / of_nat (success_count h + failure_count h) <= 1).
  { split.
    - apply Qle_shift_div_l; [exact Hpos | lra].
    - apply Qle_shift_div_r; [exact Hpos | lra]. }
  lra.
Qed.

(** X17. After every run of selections and reports on a new registry,
    the stored success rate of every proxy is the rate of its counters,
    [success_count / (success_count + failure_count) * 100], or 100 when
    nothing was reported on it yet, and it lies between 0 and 100. *)
Theorem success_rate_tracks_counters (residential : list Proxy)
    (ops : list SmartProxyManager.Op) (pid : option string) :
  let h := health_of
             (proxy_health
                (SmartProxyManager.run ops (SmartProxyManager.init residential)))
             pid in
  success_rate h == rate_of_counts h /\ 0 <= success_rate h <= 100.
Proof.
  apply (health_invariant
           (fun h => success_rate h == rate_of_counts h
                     /\ 0 <= success_rate h <= 100)).
  - split; [reflexivity | simpl; lra].
  - intros op pid' h [Hr Hb].
    destruct op as [now [proxy|] url
                   | now_health now_site proxy url success response_time error];
      simpl; try (split; assumption).
    + destruct (decide _); split; assumption.
    + destruct (decide _); [| split; assumption].
      assert (E : success_rate
                    (report_health now_health url success response_time error h)
                  == rate_of_counts
                       (report_health now_health url success response_time error h)).
      { unfold rate_of_counts. simpl.
        destruct (0 <? _)%nat; reflexivity. }
      split; [exact E |]. rewrite E. apply rate_of_counts_range.
Qed.

Lemma last_n_length {A : Type} (n : nat) (l : list A) :
  (List.length (last_n n l) <= n)%nat.
Proof. unfold last_n. rewrite length_drop. lia. Qed.

Lemma last_n_subset {A : Type} (n : nat) (l : list A) (x : A) :
  x ∈ last_n n l -> x ∈ l.
Proof. unfold last_n. apply subseteq_drop. Qed.

(** X18. The window of response times of every proxy holds at most 100
    measurements after every run, and none of them is zero (a response
    time of zero counts as not given). *)
Theorem response_times_windowed (residential : list Proxy)
    (ops : list SmartProxyManager.Op) (pid : option string) :
  let h := health_of
             (proxy_health
                (SmartProxyManager.run ops (SmartProxyManager.init residential)))
             pid in
  (List.length (avg_response_time h) <= 100)%nat
  /\ Forall (fun r => ~ r == 0) (avg_response_time h).
Proof.
  apply (health_invariant
           (fun h => (List.length (avg_response_time h) <= 100)%nat
                     /\ Forall (fun r => ~ r == 0) (avg_response_time h))).
  - split; [simpl; lia | constructor].
  - intros op pid' h [Hl Hf].
    destruct op as [now [proxy|] url
                   | now_health now_site proxy url success response_time error];
      simpl; try (split; assumption).
    + destruct (decide _); split; assumption.
    + destruct (decide _); [| split; assumption]. simpl.
      unfold given. destruct response_time as [r|]; [| split; assumption].
      destruct (truthy r) eqn:Et; [| split; assumption].
      split; [apply last_n_length |].
      apply Forall_forall. intros x Hx. apply last_n_subset in Hx.
      apply elem_of_app in Hx as [Hx | ->%list_elem_of_singleton].
      * rewrite Forall_forall in Hf. apply Hf, Hx.
      * apply truthy_true, Et.
Qed.

(** X19. The blocked sites of a proxy are exactly the urls of its failed
    reports whose error text holds the word blocked: a url is in the set
    after a run if and only if the run holds such a report for the proxy
    and the url. A success, or a failure with another error, adds
    nothing, and nothing is ever taken out. *)
Theorem blocked_sites_are_reported (residential : list Proxy)
    (ops : list SmartProxyManager.Op) (pid : option string) (url : string) :
  url ∈ blocked_sites
          (health_of
             (proxy_health
                (SmartProxyManager.run ops (SmartProxyManager.init residential)))
             pid)
  <-> exists op, In op ops /\ marks_blocked pid url op = true.
Proof.
  rewrite run_health, health_of_init.
  assert (H : forall h,
    url ∈ blocked_sites (foldl (fun h op => health_step op pid h) h ops)
    <-> url ∈ blocked_sites h
        \/ exists op, In op ops /\ marks_blocked pid url op = true).
  { induction ops as [|op ops IH]; simpl; intros h.
    - split; [auto | intros [H | (op & [] & _)]; exact H].
    - rewrite IH.
      assert (Hs : url ∈ blocked_sites (health_step op pid h)
                   <-> url ∈ blocked_sites h \/ marks_blocked pid url op = true).
      { destruct op as [now [proxy|] u
                       | now_health now_site proxy u success response_time error];
          simpl.
        - destruct (decide _); simpl; split; auto; intros [H | H]; auto;
            discriminate.
        - split; auto. intros [H | H]; auto; discriminate.
        - destruct (decide (proxy_id proxy = pid)) as [Ep|Ep].
          + rewrite (bool_decide_eq_true_2 _ Ep). simpl.
            destruct (negb success && is_blocked error) eqn:Eb.
            * rewrite elem_of_union, elem_of_singleton.
              destruct (decide (u = url)) as [Eu|Eu].
              -- rewrite (bool_decide_eq_true_2 _ Eu). simpl.
                 apply andb_true_iff in Eb as [-> ->]. simpl. split; auto.
              -- rewrite (bool_decide_eq_false_2 _ Eu). simpl.
                 split; [intros [H | H]; [congruence | auto] |].
                 intros [H | H]; [auto | discriminate].
            * split; [auto |]. intros [H | H]; [exact H |].
              rewrite <- andb_assoc in H.
              apply andb_true_iff in H as [_ H]. congruence.
          + rewrite (bool_decide_eq_false_2 _ Ep). simpl.
            split; [auto |]. intros [H | H]; [exact H | discriminate]. }
      rewrite Hs. split.
      + intros [[H | H] | (op' & Hin & H)]; eauto.
      + intros [H | (op' & [<- | Hin] & H)]; eauto. }
  rewrite H. simpl. split; [| auto].
  intros [Hin | Hex]; [| exact Hex]. apply not_elem_of_empty in Hin. contradiction.
Qed.

Lemma unit_cost_range (proxy : Proxy) : 0.0001 <= unit_cost proxy <= 0.01.
Proof.
  unfold unit_cost, proxy_costs.
  repeat match goal with |- context [if ?b then _ else _] => destruct b end;
    simpl; lra.
Qed.

Lemma step_total_cost (st : SmartProxyManager.State)
    (op : SmartProxyManager.Op) :
  total_cost (SmartProxyManager.step st op)
  = match op with
    | OpGetOptimalProxy _ (Some proxy) _ => total_cost st + unit_cost proxy
    | _ => total_cost st
    end.
Proof. destruct op as [now [proxy|] url | ? ? ? ? ? ? ?]; reflexivity. Qed.

Lemma run_total_cost (ops : list SmartProxyManager.Op)
    (st : SmartProxyManager.State) :
  total_cost st <= total_cost (SmartProxyManager.run ops st)
  /\ (selected ops = [] ->
      total_cost (SmartProxyManager.run ops st) = total_cost st)
  /\ (selected ops <> [] ->
      total_cost st + 0.0001 <= total_cost (SmartProxyManager.run ops st)).
Proof.
  unfold SmartProxyManager.run. revert st.
  induction ops as [|op ops IH]; intros st.
  - simpl. split; [lra |]. split; [reflexivity | congruence].
  - simpl foldl. destruct (IH (SmartProxyManager.step st op)) as (IH1 & IH2 & IH3).
    rewrite step_total_cost in IH1, IH2, IH3.
    destruct op as [now [proxy|] url | ? ? ? ? ? ? ?]; simpl selected;
      try (split; [| split]; assumption).
    pose proof (unit_cost_range proxy).
    split; [lra |]. split; [discriminate |]. intros _. lra.
Qed.

(** X20. The cost ledger starts at 0 and never decreases: a selection
    adds the unit price of the proxy's class, which is 0.0001 at least
    and 0.01 at most, a report adds nothing, and once a proxy has been
    selected the ledger holds 0.0001 or more. *)
Theorem total_cost_never_decreases (residential : list Proxy)
    (ops ops' : list SmartProxyManager.Op) :
  let st := SmartProxyManager.run ops (SmartProxyManager.init residential) in
  total_cost (SmartProxyManager.init residential) == 0
  /\ total_cost st <= total_cost (SmartProxyManager.run ops' st)
  /\ (selected ops' = [] ->
      total_cost (SmartProxyManager.run ops' st) = total_cost st)
  /\ (selected ops <> [] -> 0.0001 <= total_cost st)
  /\ (forall op,
        total_cost (SmartProxyManager.step st op)
        = match op with
          | OpGetOptimalProxy _ (Some proxy) _ => total_cost st + unit_cost proxy
          | _ => total_cost st
          end)
  /\ (forall proxy, 0.0001 <= unit_cost proxy <= 0.01).
Proof.
  intros st.
  destruct (run_total_cost ops' st) as (H1 & H2 & _).
  destruct (run_total_cost ops (SmartProxyManager.init residential))
    as (_ & _ & H3).
  fold st in H3. simpl in H3.
  split; [reflexivity |]. split; [exact H1 |]. split; [exact H2 |].
  split; [intros H; specialize (H3 H); lra |].
  split; [apply step_total_cost | apply unit_cost_range].
Qed.

(** Three selections of a residential proxy and a report in between. *)
Example total_cost_example :
  total_cost
    (SmartProxyManager.run
       [OpGetOptimalProxy 2000 (Some proxy_a) "shop.example";
        OpGetOptimalProxy 2040 (Some proxy_a) "shop.example";
        OpReportProxyResult 2041 2041 proxy_a "shop.example" true (Some 0.8) None;
        OpGetOptimalProxy 2080 (Some proxy_a) "shop.example"]
       (SmartProxyManager.init [proxy_a; proxy_b]))
  == 3 * unit_cost proxy_a.
Proof. vm_compute. reflexivity. Qed.

End RegistryMore.

(** ** More on pruning *)

Section PruningMore.

Local Open Scope string_scope.

Lemma pooled_pruned (failure_threshold : Q) (hm : gmap (option string) Health)
    (pools : list (string * list Proxy)) :
  pooled (pruned failure_threshold hm <$> pools)
  = List.filter (stays failure_threshold hm) (pooled pools).
Proof.
  induction pools as [|pool pools IH]; [reflexivity |].
  rewrite fmap_cons, !pooled_cons, List.filter_app, IH. reflexivity.
Qed.

Lemma filter_ids_nodup (f : Proxy -> bool) (l : list Proxy) :
  NoDup (proxy_id <$> l) -> NoDup (proxy_id <$> List.filter f l).
Proof.
  induction l as [|x l IH]; simpl; intros H; [exact H |].
  apply NoDup_cons in H as [Hx Hl].
  destruct (f x); [| apply IH, Hl].
  rewrite fmap_cons. apply NoDup_cons. split; [| apply IH, Hl].
  intros Hin. apply Hx.
  apply list_elem_of_fmap in Hin as (y & -> & Hy).
  apply list_elem_of_fmap_2. apply list_elem_of_In in Hy.
  apply List.filter_In in Hy as [Hy _]. apply list_elem_of_In, Hy.
Qed.

Lemma filter_split_length {A : Type} (f : A -> bool) (l : list A) :
  (List.length (List.filter f l)
   + List.length (List.filter (fun x => negb (f x)) l))%nat
  = List.length l.
Proof.
  induction l as [|x l IH]; simpl; [reflexivity |].
  destruct (f x); simpl; lia.
Qed.

Lemma filter_all {A : Type} (f : A -> bool) (l : list A) :
  (forall x, In x l -> f x = true) -> List.filter f l = l.
Proof.
  induction l as [|x l IH]; simpl; intros H; [reflexivity |].
  rewrite (H x) by (left; reflexivity). f_equal. apply IH.
  intros y Hy. apply H. right. exact Hy.
Qed.

Lemma filter_none {A : Type} (f : A -> bool) (l : list A) :
  (forall x, In x l -> f x = false) -> List.filter f l = [].
Proof.
  induction l as [|x l IH]; simpl; intros H; [reflexivity |].
  rewrite (H x) by (left; reflexivity). apply IH.
  intros y Hy. apply H. right. exact Hy.
Qed.

(** X21. Pruning twice is pruning once: in a registry whose pooled
    proxies have distinct ids, a second call of [cleanup_failed_proxies]
    with the same threshold, right after the first, removes nothing and
    returns 0. *)
Theorem cleanup_idempotent (failure_threshold : Q)
    (st : SmartProxyManager.State) :
  NoDup (proxy_id <$> all_proxies st) ->
  exists n st1 st2,
    cleanup_failed_proxies failure_threshold st = Some (n, st1)
    /\ cleanup_failed_proxies failure_threshold st1 = Some (0%nat, st2)
    /\ proxy_pools st2 = proxy_pools st1.
Proof.
  intros Hnd.
  destruct (cleanup_loop failure_threshold (proxy_health st) (proxy_pools st)
              0%nat [] (proxy_health st) Hnd)
    as (hm1 & E1 & _ & Hkept & _); [reflexivity |].
  assert (Hstay : forall p, In p (List.filter (stays failure_threshold (proxy_health st))
                                    (pooled (proxy_pools st))) ->
            health_of hm1 (proxy_id p) = health_of (proxy_health st) (proxy_id p)).
  { intros p Hp. apply List.filter_In in Hp as [_ Hs]. apply Hkept.
    intros q _ Hq E. unfold stays in Hs. unfold leaves in Hq.
    rewrite E in Hq. rewrite Hq in Hs. discriminate. }
  destruct (cleanup_loop failure_threshold hm1
              (pruned failure_threshold (proxy_health st) <$> proxy_pools st)
              0%nat [] hm1) as (hm2 & E2 & _); [| reflexivity |].
  { rewrite pooled_pruned. apply filter_ids_nodup, Hnd. }
  rewrite pooled_pruned in E2.
  rewrite (filter_none (leaves failure_threshold hm1)) in E2.
  2: { intros p Hp. unfold leaves. rewrite (Hstay p Hp).
       apply List.filter_In in Hp as [_ Hs]. unfold stays in Hs.
       apply negb_true_iff, Hs. }
  eexists _, _, _. split; [| split].
  - unfold cleanup_failed_proxies. rewrite E1. reflexivity.
  - unfold cleanup_failed_proxies. simpl. rewrite E2. reflexivity.
  - simpl. rewrite <- list_fmap_compose. apply list_fmap_ext.
    intros i [name ps] Hi. unfold pruned, compose. simpl. f_equal.
    apply filter_all. intros p Hp. unfold stays.
    assert (Hin : In p (List.filter (stays failure_threshold (proxy_health st))
                          (pooled (proxy_pools st)))).
    { apply List.filter_In in Hp as [Hp Hs]. apply List.filter_In.
      split; [| exact Hs].
      unfold pooled. apply in_concat. exists ps. split; [| exact Hp].
      apply list_elem_of_In, list_elem_of_fmap.
      exists (name, ps). split; [reflexivity |].
      eapply list_elem_of_lookup_2, Hi. }
    rewrite (Hstay p Hin). apply List.filter_In in Hin as [_ Hs]. exact Hs.
Qed.

Lemma cleanup_idempotent_witness :
  exists n st1 st2,
    cleanup_failed_proxies 0.3 st_worn = Some (n, st1)
    /\ cleanup_failed_proxies 0.3 st1 = Some (0%nat, st2)
    /\ proxy_pools st2 = proxy_pools st1.
Proof.
  apply (cleanup_idempotent 0.3 st_worn).
  apply (bool_decide_unpack _). vm_compute. reflexivity.
Defined.

(** X22. The count that [cleanup_failed_proxies] returns is the number
    of proxies that left the pools; the pools keep their names and their
    order, and the proxies that stay keep theirs. *)
Theorem cleanup_count_is_shrink (failure_threshold : Q)
    (st : SmartProxyManager.State) :
  NoDup (proxy_id <$> all_proxies st) ->
  exists n st1,
    cleanup_failed_proxies failure_threshold st = Some (n, st1)
    /\ (List.length (all_proxies st1) + n)%nat = List.length (all_proxies st)
    /\ fst <$> proxy_pools st1 = fst <$> proxy_pools st
    /\ all_proxies st1 `sublist_of` all_proxies st.
Proof.
  intros Hnd. unfold cleanup_failed_proxies.
  destruct (cleanup_loop failure_threshold (proxy_health st) (proxy_pools st)
              0%nat [] (proxy_health st) Hnd) as (hm1 & -> & _);
    [reflexivity |].
  simpl. eexists _, _. split; [reflexivity |].
  unfold all_proxies. simpl. rewrite pooled_pruned. split; [| split].
  - rewrite <- (filter_split_length (leaves failure_threshold (proxy_health st))
                  (pooled (proxy_pools st))).
    rewrite Nat.add_comm. f_equal.
  - rewrite <- list_fmap_compose. apply list_fmap_ext. intros i [name ps] _.
    reflexivity.
  - generalize (pooled (proxy_pools st)). intros l.
    induction l as [|x l IH]; simpl; [constructor |].
    destruct (stays _ _ x); [apply sublist_skip | apply sublist_cons]; exact IH.
Qed.

Lemma cleanup_count_is_shrink_witness :
  exists n st1,
    cleanup_failed_proxies 0.3 st_worn = Some (n, st1)
    /\ (List.length (all_proxies st1) + n)%nat = List.length (all_proxies st_worn)
    /\ fst <$> proxy_pools st1 = fst <$> proxy_pools st_worn
    /\ all_proxies st1 `sublist_of` all_proxies st_worn.
Proof.
  apply (cleanup_count_is_shrink 0.3 st_worn).
  apply (bool_decide_unpack _). vm_compute. reflexivity.
Defined.

End PruningMore.

(** ** The proxy selector *)

Section Selector.

Local Open Scope string_scope.

Lemma same_records_refl (st : SmartProxyManager.State) : same_records st st.
Proof. repeat split. Qed.

Lemma touch_health_same (st0 st : SmartProxyManager.State) (pid : option string) :
  same_records st0 st -> same_records st0 (touch_health pid st).
Proof.
  intros (Hp & Hh & Hs & Hc). unfold touch_health. repeat split; try assumption.
  intros pid'. simpl. rewrite health_of_touch. apply Hh.
Qed.

Lemma touch_site_same (st0 st : SmartProxyManager.State) (url : string)
    (pid : option string) :
  same_records st0 st -> same_records st0 (touch_site url pid st).
Proof.
  intros (Hp & Hh & Hs & Hc). unfold touch_site. repeat split; try assumption.
  intros url' pid'. rewrite site_of_set_site.
  destruct (decide _) as [[<- <-]|]; apply Hs.
Qed.

Lemma touch_all_same (proxies : list Proxy) (st0 st : SmartProxyManager.State) :
  same_records st0 st -> same_records st0 (touch_all proxies st).
Proof.
  unfold touch_all. revert st.
  induction proxies as [|p ps IH]; simpl; intros st H; [exact H |].
  apply IH, touch_health_same, H.
Qed.

Lemma touch_scored_same (url : string) (proxies : list Proxy)
    (st0 st : SmartProxyManager.State) :
  same_records st0 st -> same_records st0 (foldl (touch_scored url) st proxies).
Proof.
  revert st. induction proxies as [|p ps IH]; simpl; intros st H; [exact H |].
  apply IH. unfold touch_scored. destruct (Qeq_bool _ 0).
  - apply touch_health_same, touch_site_same, H.
  - apply touch_site_same, H.
Qed.

(** The inner loop of the filter, under way. *)
Lemma filter_proxy_loop (clock : Proxy -> Q) (requirements : Requirements)
    (st0 : SmartProxyManager.State) (ps : list Proxy)
    (acc : list Proxy * SmartProxyManager.State) :
  same_records st0 (snd acc) ->
  let r := foldl (filter_proxy clock requirements) acc ps in
  fst r
  = (fst acc
     ++ List.filter
          (fun p => admits (clock p) requirements
                      (health_of (proxy_health st0) (proxy_id p)) p) ps)%list
  /\ same_records st0 (snd r).
Proof.
  revert acc. induction ps as [|p ps IH]; intros acc Hacc; cbv zeta.
  - simpl. rewrite app_nil_r. auto.
  - simpl foldl.
    assert (Hh : health_of (proxy_health (snd acc)) (proxy_id p)
                 = health_of (proxy_health st0) (proxy_id p))
      by (apply Hacc).
    destruct (IH (filter_proxy clock requirements acc p)) as [H1 H2].
    { unfold filter_proxy. destruct (admits _ _ _ _); simpl;
        apply touch_health_same, Hacc. }
    cbv zeta in H1. rewrite H1. split; [| exact H2].
    unfold filter_proxy. rewrite Hh. simpl.
    destruct (admits _ _ _ _); simpl; [rewrite <- app_assoc |]; reflexivity.
Qed.

(** The filter as a list comprehension over the pools. *)
Lemma filter_proxies_reads (clock : Proxy -> Q) (requirements : Requirements)
    (st : SmartProxyManager.State) :
  fst (_filter_proxies clock requirements st) = admitted clock requirements st
  /\ same_records st (snd (_filter_proxies clock requirements st))
  /\ admitted clock requirements st `sublist_of` _get_all_proxies st.
Proof.
  assert (Hloop : forall pools acc,
    same_records st (snd acc) ->
    let r := foldl (filter_pool clock requirements) acc pools in
    fst r
    = (fst acc
       ++ concat
            ((fun pool =>
                if pool_admitted requirements (fst pool)
                then List.filter
                       (fun p => admits (clock p) requirements
                                   (health_of (proxy_health st) (proxy_id p)) p)
                       (snd pool)
                else []) <$> pools))%list
    /\ same_records st (snd r)).
  { induction pools as [|pool pools IH]; intros acc Hacc; cbv zeta.
    - simpl. rewrite app_nil_r. auto.
    - simpl foldl. rewrite fmap_cons. simpl concat.
      unfold filter_pool at 2 4.
      destruct (pool_admitted requirements (fst pool)).
      + destruct (filter_proxy_loop clock requirements st (snd pool) acc Hacc)
          as [H1 H2]. cbv zeta in H1, H2.
        destruct (IH _ H2) as [H3 H4]. cbv zeta in H3, H4.
        rewrite H3, H1, <- app_assoc. auto.
      + destruct (IH _ Hacc) as [H3 H4]. auto. }
  destruct (Hloop (proxy_pools st) ([], st) (same_records_refl st)) as [H1 H2].
  split; [exact H1 |]. split; [exact H2 |]. clear H1 H2 Hloop.
  unfold admitted, _get_all_proxies.
  generalize (proxy_pools st). intros pools.
  induction pools as [|pool pools IH]; simpl; [constructor |].
  apply sublist_app; [| exact IH].
  destruct (pool_admitted _ _).
  - generalize (snd pool). intros l. induction l as [|x l IHl]; simpl;
      [constructor |].
    destruct (admits _ _ _ _); [apply sublist_skip | apply sublist_cons];
      exact IHl.
  - apply sublist_nil_l.
Qed.

(** X23. [_filter_proxies] returns, pool after pool and in order, the
    proxies of the admitted pools that pass the tests on success rate,
    response time, country and cooldown, a sublist of all proxies; it
    changes no record of the registry. *)
Theorem filter_proxies_spec (clock : Proxy -> Q) (requirements : Requirements)
    (st : SmartProxyManager.State) :
  fst (_filter_proxies clock requirements st) = admitted clock requirements st
  /\ same_records st (snd (_filter_proxies clock requirements st))
  /\ admitted clock requirements st `sublist_of` _get_all_proxies st.
Proof. apply filter_proxies_reads. Qed.

Lemma insert_by_elem {A K : Type} (lt : K -> K -> bool) (key : A -> K)
    (x y : A) (l : list A) :
  In y (insert_by lt key x l) <-> y = x \/ In y l.
Proof.
  induction l as [|z l IH]; simpl; [intuition |].
  destruct (lt (key z) (key x)); simpl; rewrite ?IH; intuition.
Qed.

Lemma sorted_by_elem {A K : Type} (lt : K -> K -> bool) (key : A -> K)
    (y : A) (l : list A) :
  In y (sorted_by lt key l) <-> In y l.
Proof.
  unfold sorted_by. induction l as [|x l IH]; simpl; [tauto |].
  rewrite insert_by_elem, IH. intuition.
Qed.

(** The head of the stable sort is a least element, for an order that is
    asymmetric and whose complement is transitive. *)
Lemma sorted_by_head {A K : Type} (lt : K -> K -> bool) (key : A -> K)
    (l : list A) :
  (forall a b, lt a b = true -> lt b a = false) ->
  (forall a b c, lt a b = false -> lt b c = false -> lt a c = false) ->
  match head (sorted_by lt key l) with
  | Some x => In x l /\ forall y, In y l -> lt (key y) (key x) = false
  | None => l = []
  end.
Proof.
  intros Hasym Htrans. unfold sorted_by.
  induction l as [|a l IH]; simpl; [reflexivity |].
  destruct (foldr (insert_by lt key) [] l) as [|y t] eqn:E; simpl in *.
  - subst l. split; [auto |]. intros z [<- | []].
    destruct (lt (key a) (key a)) eqn:El; [| reflexivity].
    rewrite (Hasym _ _ El) in El. discriminate.
  - destruct IH as [Hy Hmin].
    destruct (lt (key y) (key a)) eqn:El; simpl.
    + split; [auto |]. intros z [<- | Hz]; [apply Hasym, El | apply Hmin, Hz].
    + split; [auto |]. intros z [<- | Hz].
      * destruct (lt (key a) (key a)) eqn:Ea; [| reflexivity].
        rewrite (Hasym _ _ Ea) in Ea. discriminate.
      * eapply Htrans; [apply Hmin, Hz | exact El].
Qed.

Lemma min_by_spec {A : Type} (key : A -> nat) (l : list A) :
  match min_by key l with
  | Some x => In x l /\ forall y, In y l -> (key x <= key y)%nat
  | None => l = []
  end.
Proof.
  destruct l as [|a l]; simpl; [reflexivity |].
  assert (H : forall l best,
    let x := foldl (fun best y => if (key y <? key best)%nat then y else best)
                   best l in
    (x = best \/ In x l) /\ (key x <= key best)%nat
    /\ forall y, In y l -> (key x <= key y)%nat).
  { clear. induction l as [|z l IH]; intros best; cbv zeta; simpl.
    - split; [auto |]. split; [lia | tauto].
    - destruct (IH (if (key z <? key best)%nat then z else best))
        as (H1 & H2 & H3). cbv zeta in *.
      destruct (key z <? key best)%nat eqn:E;
        [apply Nat.ltb_lt in E | apply Nat.ltb_ge in E].
      + split; [destruct H1 as [-> | H1]; auto |]. split; [lia |].
        intros y [<- | Hy]; [lia | apply H3, Hy].
      + split; [destruct H1 as [-> | H1]; auto |]. split; [lia |].
        intros y [<- | Hy]; [lia | apply H3, Hy]. }
  destruct (H l a) as (H1 & H2 & H3). cbv zeta in *.
  split; [destruct H1 as [-> | H1]; auto |].
  intros y [<- | Hy]; [exact H2 | apply H3, Hy].
Qed.

Lemma used_before_asym (a b : option Q) :
  used_before a b = true -> used_before b a = false.
Proof.
  destruct a as [x|], b as [y|]; simpl; try reflexivity; try discriminate.
  intros H. apply Qltb_lt in H. apply Qltb_ge. lra.
Qed.

Lemma used_before_trans (a b c : option Q) :
  used_before a b = false -> used_before b c = false -> used_before a c = false.
Proof.
  destruct a as [x|], b as [y|], c as [z|]; simpl; try reflexivity;
    try discriminate.
  intros H1 H2. apply Qltb_ge in H1, H2. apply Qltb_ge. lra.
Qed.

(** Each plain strategy chooses one of the proxies it is given, and none
    only when it is given none; it changes no record. *)
Lemma plain_strategy_chooses
    (f : list Proxy -> string -> SmartProxyManager.State
         -> option Proxy * SmartProxyManager.State)
    (l : list Proxy) (url : string) (st : SmartProxyManager.State) :
  In f plain_strategies ->
  same_records st (snd (f l url st))
  /\ match fst (f l url st) with
     | Some p => In p l
     | None => l = []
     end.
Proof.
  intros [<- | [<- | [<- | []]]].
  - unfold _round_robin_selection. destruct l as [|a l]; [split; [apply same_records_refl | reflexivity] |].
    split; [apply touch_all_same, same_records_refl |].
    cbn [fst].
    pose proof (sorted_by_head used_before
                  (fun p => last_used (health_of (proxy_health st) (proxy_id p)))
                  (a :: l) used_before_asym used_before_trans) as H.
    destruct (head _); [apply H | discriminate H].
  - unfold _least_used_selection. destruct l as [|a l]; [split; [apply same_records_refl | reflexivity] |].
    split; [apply touch_all_same, same_records_refl |].
    cbn [fst].
    pose proof (min_by_spec
                  (fun p => total_requests (health_of (proxy_health st) (proxy_id p)))
                  (a :: l)) as H.
    destruct (min_by _ _); [apply H | discriminate H].
  - unfold _best_performing_selection. destruct l as [|a l]; [split; [apply same_records_refl | reflexivity] |].
    split; [apply touch_scored_same, same_records_refl |].
    cbn [fst].
    pose proof (sorted_by_elem (fun a b => Qltb b a) (site_score url st)) as Hel.
    destruct (sorted_by _ _ (a :: l)) as [|x t] eqn:E; simpl.
    + assert (In a []) as []. rewrite <- E. apply Hel. left. reflexivity.
    + apply (proj1 (Hel x (a :: l))). rewrite E. left. reflexivity.
Qed.

Lemma same_records_trans (st0 st1 st2 : SmartProxyManager.State) :
  same_records st0 st1 -> same_records st1 st2 -> same_records st0 st2.
Proof.
  intros (Hp & Hh & Hs & Hc) (Hp' & Hh' & Hs' & Hc'). repeat split.
  - congruence.
  - intros pid. rewrite Hh'. apply Hh.
  - intros url pid. rewrite Hs'. apply Hs.
  - congruence.
Qed.

Lemma sorted_by_ext {A K : Type} (lt : K -> K -> bool) (key key' : A -> K)
    (l : list A) :
  (forall x, key x = key' x) -> sorted_by lt key l = sorted_by lt key' l.
Proof.
  intros H. unfold sorted_by. induction l as [|a l IH]; simpl; [reflexivity |].
  rewrite IH. generalize (foldr (insert_by lt key') [] l). intros s.
  induction s as [|y t IHt]; simpl; [reflexivity |].
  rewrite !H, IHt. reflexivity.
Qed.

Lemma min_by_ext {A : Type} (key key' : A -> nat) (l : list A) :
  (forall x, key x = key' x) -> min_by key l = min_by key' l.
Proof.
  intros H. destruct l as [|a l]; simpl; [reflexivity |]. f_equal.
  generalize a. induction l as [|y l IH]; simpl; intros best; [reflexivity |].
  rewrite !H. apply IH.
Qed.

(** What a plain strategy chooses depends on the records only, not on
    the entries that reads have left behind. *)
Lemma plain_strategy_reads
    (f : list Proxy -> string -> SmartProxyManager.State
         -> option Proxy * SmartProxyManager.State)
    (l : list Proxy) (url : string) (st st1 : SmartProxyManager.State) :
  In f plain_strategies -> same_records st st1 ->
  fst (f l url st1) = fst (f l url st).
Proof.
  intros Hf (_ & Hh & Hs & _).
  destruct Hf as [<- | [<- | [<- | []]]]; destruct l as [|a l]; try reflexivity;
    cbn [fst _round_robin_selection _least_used_selection
         _best_performing_selection].
  - f_equal. apply sorted_by_ext. intros x. rewrite Hh. reflexivity.
  - apply min_by_ext. intros x. rewrite Hh. reflexivity.
  - f_equal. apply sorted_by_ext. intros x. unfold site_score.
    rewrite Hs, Hh. reflexivity.
Qed.

(** [select_with] for a plain strategy: the choice is the strategy's
    among the candidates, read from the records at the call, and the
    state is that after the usage update of the chosen proxy. *)
Lemma select_with_choice
    (f : list Proxy -> string -> SmartProxyManager.State
         -> option Proxy * SmartProxyManager.State)
    (clock : Proxy -> Q) (now : Q) (url : string) (requirements : Requirements)
    (st : SmartProxyManager.State) :
  In f plain_strategies ->
  fst (select_with f clock now url requirements st)
  = match candidates clock requirements st with
    | [] => None
    | l => fst (f l url st)
    end
  /\ exists st2,
       same_records st st2
       /\ snd (select_with f clock now url requirements st)
          = match fst (select_with f clock now url requirements st) with
            | Some p => _update_proxy_usage now p url st2
            | None => st2
            end.
Proof.
  intros Hf. unfold select_with, candidates.
  destruct (filter_proxies_reads clock requirements st) as (Ha & Hsame & _).
  destruct (_filter_proxies clock requirements st) as [available st1].
  simpl in Ha, Hsame. subst available.
  assert (Hall : _get_all_proxies st1 = _get_all_proxies st).
  { unfold _get_all_proxies. destruct Hsame as (-> & _). reflexivity. }
  rewrite Hall.
  assert (Hgoal : forall l,
    fst (let '(selected_proxy, st2) := f l url st1 in
         get_optimal_proxy now selected_proxy url st2) = fst (f l url st)
    /\ exists st2, same_records st st2
         /\ snd (let '(selected_proxy, st2) := f l url st1 in
                 get_optimal_proxy now selected_proxy url st2)
            = match fst (let '(selected_proxy, st2) := f l url st1 in
                         get_optimal_proxy now selected_proxy url st2) with
              | Some p => _update_proxy_usage now p url st2
              | None => st2
              end).
  { intros l.
    destruct (plain_strategy_chooses f l url st1 Hf) as [Hsame2 _].
    pose proof (plain_strategy_reads f l url st st1 Hf Hsame) as Hread.
    destruct (f l url st1) as [sel st2]. simpl in Hsame2, Hread. subst sel.
    split.
    - destruct (fst (f l url st)); reflexivity.
    - exists st2. split; [eapply same_records_trans; eassumption |].
      destruct (fst (f l url st)); reflexivity. }
  destruct (admitted clock requirements st) as [|x xs].
  - destruct (_get_all_proxies st) as [|a l'].
    + simpl. split; [reflexivity |]. exists st1. auto.
    + apply Hgoal.
  - apply Hgoal.
Qed.

Lemma candidates_spec (clock : Proxy -> Q) (requirements : Requirements)
    (st : SmartProxyManager.State) :
  (candidates clock requirements st = [] <-> _get_all_proxies st = [])
  /\ (forall p, In p (candidates clock requirements st) ->
                In p (_get_all_proxies st)).
Proof.
  destruct (filter_proxies_reads clock requirements st) as (_ & _ & Hsub).
  unfold candidates. destruct (admitted clock requirements st) as [|x xs] eqn:E.
  - split; [tauto | auto].
  - split.
    + split; [discriminate |]. intros Hall. rewrite Hall in Hsub.
      apply sublist_nil_r in Hsub. discriminate.
    + intros p Hp. apply list_elem_of_In. eapply sublist_subseteq; [exact Hsub |].
      apply list_elem_of_In, Hp.
Qed.

Lemma update_usage_health (now : Q) (p : Proxy) (url : string)
    (st : SmartProxyManager.State) :
  let h := health_of (proxy_health st) (proxy_id p) in
  let h' := health_of (proxy_health (_update_proxy_usage now p url st))
              (proxy_id p) in
  total_requests h' = (total_requests h + 1)%nat /\ last_used h' = Some now.
Proof.
  cbv zeta. unfold _update_proxy_usage. simpl. rewrite health_of_insert.
  destruct (decide (proxy_id p = proxy_id p)); [| congruence]. auto.
Qed.

(** X24. Selection with one of the plain strategies (round robin, least
    used, best performing) returns no proxy exactly when the pools are
    empty, whatever the requirements: when no proxy passes the filter it
    falls back to all proxies. A proxy that is returned is one of the
    pooled proxies; its request count has gone up by one and its last use
    is the time of the call. *)
Theorem select_with_returns
    (f : list Proxy -> string -> SmartProxyManager.State
         -> option Proxy * SmartProxyManager.State)
    (clock : Proxy -> Q) (now : Q) (url : string) (requirements : Requirements)
    (st : SmartProxyManager.State) :
  In f plain_strategies ->
  let r := select_with f clock now url requirements st in
  (fst r = None <-> _get_all_proxies st = [])
  /\ (forall p,
        fst r = Some p ->
        In p (_get_all_proxies st)
        /\ total_requests (health_of (proxy_health (snd r)) (proxy_id p))
           = (total_requests (health_of (proxy_health st) (proxy_id p)) + 1)%nat
        /\ last_used (health_of (proxy_health (snd r)) (proxy_id p)) = Some now).
Proof.
  intros Hf r. subst r.
  destruct (select_with_choice f clock now url requirements st Hf)
    as (Hfst & st2 & Hsame & Hsnd).
  destruct (candidates_spec clock requirements st) as [Hnil Hin].
  split.
  - rewrite Hfst. destruct (candidates clock requirements st) as [|a l] eqn:E.
    + split; [intros _; apply Hnil; reflexivity | reflexivity].
    + split.
      * intros Hnone.
        destruct (plain_strategy_chooses f (a :: l) url st Hf) as [_ H].
        rewrite Hnone in H. discriminate.
      * intros Hall. apply Hnil in Hall. discriminate.
  - intros p Hp. rewrite Hp in Hsnd. rewrite Hsnd. split.
    + apply Hin. rewrite Hfst in Hp.
      destruct (candidates clock requirements st) as [|a l] eqn:E;
        [discriminate |].
      destruct (plain_strategy_chooses f (a :: l) url st Hf) as [_ H].
      rewrite Hp in H. exact H.
    + destruct (update_usage_health now p url st2) as [H1 H2]. cbv zeta in *.
      destruct Hsame as (_ & Hh & _). rewrite H1, H2, Hh. auto.
Qed.

Lemma select_with_returns_witness :
  let r := select_with _round_robin_selection (fun _ => 2010) 2010
             "shop.example" wants_us st_used_once in
  (fst r = None <-> _get_all_proxies st_used_once = [])
  /\ (forall p,
        fst r = Some p ->
        In p (_get_all_proxies st_used_once)
        /\ total_requests (health_of (proxy_health (snd r)) (proxy_id p))
           = (total_requests
                (health_of (proxy_health st_used_once) (proxy_id p)) + 1)%nat
        /\ last_used (health_of (proxy_health (snd r)) (proxy_id p))
           = Some 2010).
Proof.
  apply (select_with_returns _round_robin_selection (fun _ => 2010) 2010
           "shop.example" wants_us st_used_once).
  simpl. tauto.
Defined.

Lemma admitted_elem (clock : Proxy -> Q) (requirements : Requirements)
    (st : SmartProxyManager.State) (p : Proxy) :
  In p (admitted clock requirements st) ->
  admits (clock p) requirements (health_of (proxy_health st) (proxy_id p)) p
  = true
  /\ exists pool, In pool (proxy_pools st) /\ In p (snd pool)
                  /\ pool_admitted requirements (fst pool) = true.
Proof.
  unfold admitted. intros H. apply in_concat in H as (l & Hl & Hp).
  apply list_elem_of_In, list_elem_of_fmap in Hl as (pool & -> & Hpool).
  destruct (pool_admitted requirements (fst pool)) eqn:E; [| destruct Hp].
  apply List.filter_In in Hp as [Hp Ha]. split; [exact Ha |].
  exists pool. split; [apply list_elem_of_In, Hpool |]. auto.
Qed.

(** X25. When at least one proxy passes the filter, the proxy that a
    plain strategy returns passes every test of it: its pool is admitted,
    it is in the wanted country, its success rate is not below the wanted
    minimum, the mean of its recorded response times (when it has any) is
    not above the wanted maximum, and its last use is at least 30 seconds
    back. *)
Theorem select_with_meets_requirements
    (f : list Proxy -> string -> SmartProxyManager.State
         -> option Proxy * SmartProxyManager.State)
    (clock : Proxy -> Q) (now : Q) (url : string) (requirements : Requirements)
    (st : SmartProxyManager.State) (p : Proxy) :
  In f plain_strategies ->
  admitted clock requirements st <> [] ->
  fst (select_with f clock now url requirements st) = Some p ->
  (exists pool, In pool (proxy_pools st) /\ In p (snd pool)
                /\ pool_admitted requirements (fst pool) = true)
  /\ (forall g, wanted (geo requirements) = Some g -> country p = Some g)
  /\ (forall m, given (min_success_rate requirements) = Some m ->
                m * 100 <= success_rate (health_of (proxy_health st) (proxy_id p)))
  /\ (forall m, given (max_response_time requirements) = Some m ->
                avg_response_time (health_of (proxy_health st) (proxy_id p)) <> [] ->
                mean (avg_response_time (health_of (proxy_health st) (proxy_id p)))
                <= m)
  /\ (forall t, last_used (health_of (proxy_health st) (proxy_id p)) = Some t ->
                30 <= clock p - t).
Proof.
  intros Hf Hne Hp.
  destruct (select_with_choice f clock now url requirements st Hf) as (Hfst & _).
  rewrite Hp in Hfst. unfold candidates in Hfst.
  destruct (admitted clock requirements st) as [|x xs] eqn:E; [congruence |].
  destruct (plain_strategy_chooses f (x :: xs) url st Hf) as [_ H].
  rewrite <- Hfst in H. rewrite <- E in H.
  apply admitted_elem in H as [Ha Hpool]. split; [exact Hpool |].
  unfold admits in Ha.
  apply andb_true_iff in Ha as [Ha Hcool].
  apply andb_true_iff in Ha as [Ha Hgeo].
  apply andb_true_iff in Ha as [Hrate Hresp].
  split; [| split; [| split]].
  - intros g Hg. rewrite Hg in Hgeo. apply bool_decide_eq_true in Hgeo. exact Hgeo.
  - intros m Hm. rewrite Hm in Hrate. apply negb_true_iff, Qltb_ge in Hrate.
    exact Hrate.
  - intros m Hm Htimes. rewrite Hm in Hresp.
    destruct (avg_response_time (health_of (proxy_health st) (proxy_id p)))
      as [|t times]; [congruence |].
    apply negb_true_iff, Qltb_ge in Hresp. exact Hresp.
  - intros t Ht. rewrite Ht in Hcool. apply negb_true_iff, Qltb_ge in Hcool.
    exact Hcool.
Qed.

Lemma select_with_meets_requirements_witness :
  (exists pool, In pool (proxy_pools st_used_once) /\ In proxy_b (snd pool)
                /\ pool_admitted wants_us (fst pool) = true)
  /\ (forall g, wanted (geo wants_us) = Some g -> country proxy_b = Some g)
  /\ (forall m, given (min_success_rate wants_us) = Some m ->
                m * 100
                <= success_rate
                     (health_of (proxy_health st_used_once) (proxy_id proxy_b)))
  /\ (forall m, given (max_response_time wants_us) = Some m ->
                avg_response_time
                  (health_of (proxy_health st_used_once) (proxy_id proxy_b)) <> [] ->
                mean (avg_response_time
                        (health_of (proxy_health st_used_once) (proxy_id proxy_b)))
                <= m)
  /\ (forall t,
        last_used (health_of (proxy_health st_used_once) (proxy_id proxy_b))
        = Some t -> 30 <= 2010 - t).
Proof.
  apply (select_with_meets_requirements _least_used_selection (fun _ => 2010)
           2010 "shop.example" wants_us st_used_once proxy_b).
  - simpl. tauto.
  - intros H. vm_compute in H. discriminate.
  - vm_compute. reflexivity.
Defined.

(** X26. The least-used strategy returns a candidate with the smallest
    request count: no candidate has fewer total requests than the proxy
    returned. *)
Theorem least_used_is_least (clock : Proxy -> Q) (now : Q) (url : string)
    (requirements : Requirements) (st : SmartProxyManager.State) (p q : Proxy) :
  fst (select_with _least_used_selection clock now url requirements st)
  = Some p ->
  In q (candidates clock requirements st) ->
  (total_requests (health_of (proxy_health st) (proxy_id p))
   <= total_requests (health_of (proxy_health st) (proxy_id q)))%nat.
Proof.
  intros Hp Hq.
  destruct (select_with_choice _least_used_selection clock now url requirements
              st) as (Hfst & _); [simpl; tauto |].
  rewrite Hp in Hfst.
  destruct (candidates clock requirements st) as [|a l]; [destruct Hq |].
  cbn [fst _least_used_selection] in Hfst.
  pose proof (min_by_spec
                (fun p => total_requests (health_of (proxy_health st) (proxy_id p)))
                (a :: l)) as H.
  rewrite <- Hfst in H. destruct H as [_ H]. apply (H q Hq).
Qed.

Lemma least_used_is_least_witness :
  (total_requests (health_of (proxy_health st_used_once) (proxy_id proxy_b))
   <= total_requests (health_of (proxy_health st_used_once) (proxy_id proxy_a)))%nat.
Proof.
  apply (least_used_is_least (fun _ => 2100) 2100 "shop.example"
           no_requirements st_used_once proxy_b proxy_a).
  - vm_compute. reflexivity.
  - vm_compute. tauto.
Defined.

(** X27. Round robin returns a candidate whose last use is the oldest:
    when any candidate was never used, the proxy returned was never used,
    and otherwise no candidate was last used before it. *)
Theorem round_robin_is_oldest (clock : Proxy -> Q) (now : Q) (url : string)
    (requirements : Requirements) (st : SmartProxyManager.State) (p q : Proxy) :
  fst (select_with _round_robin_selection clock now url requirements st)
  = Some p ->
  In q (candidates clock requirements st) ->
  match last_used (health_of (proxy_health st) (proxy_id p)),
        last_used (health_of (proxy_health st) (proxy_id q)) with
  | None, _ => True
  | Some tp, Some tq => tp <= tq
  | Some _, None => False
  end.
Proof.
  intros Hp Hq.
  destruct (select_with_choice _round_robin_selection clock now url requirements
              st) as (Hfst & _); [simpl; tauto |].
  rewrite Hp in Hfst.
  destruct (candidates clock requirements st) as [|a l]; [destruct Hq |].
  cbn [fst _round_robin_selection] in Hfst.
  pose proof (sorted_by_head used_before
                (fun p => last_used (health_of (proxy_health st) (proxy_id p)))
                (a :: l) used_before_asym used_before_trans) as H.
  rewrite <- Hfst in H. destruct H as [_ H]. specialize (H q Hq).
  destruct (last_used (health_of (proxy_health st) (proxy_id p))) as [tp|],
    (last_used (health_of (proxy_health st) (proxy_id q))) as [tq|];
    simpl in H; try exact I; try discriminate.
  apply Qltb_ge in H. exact H.
Qed.

Lemma round_robin_is_oldest_witness :
  match last_used (health_of (proxy_health st_used_once) (proxy_id proxy_b)),
        last_used (health_of (proxy_health st_used_once) (proxy_id proxy_a)) with
  | None, _ => True
  | Some tp, Some tq => tp <= tq
  | Some _, None => False
  end.
Proof.
  apply (round_robin_is_oldest (fun _ => 2100) 2100 "shop.example"
           no_requirements st_used_once proxy_b proxy_a).
  - vm_compute. reflexivity.
  - vm_compute. tauto.
Defined.

(** X28. The best-performing strategy returns a candidate with the
    highest score for the site, the score being the per-site success rate
    or, when that is 0, the global rate in percent. *)
Theorem best_performing_is_best (clock : Proxy -> Q) (now : Q) (url : string)
    (requirements : Requirements) (st : SmartProxyManager.State) (p q : Proxy) :
  fst (select_with _best_performing_selection clock now url requirements st)
  = Some p ->
  In q (candidates clock requirements st) ->
  site_score url st q <= site_score url st p.
Proof.
  intros Hp Hq.
  destruct (select_with_choice _best_performing_selection clock now url
              requirements st) as (Hfst & _); [simpl; tauto |].
  rewrite Hp in Hfst.
  destruct (candidates clock requirements st) as [|a l]; [destruct Hq |].
  cbn [fst _best_performing_selection] in Hfst.
  pose proof (sorted_by_head (fun a b => Qltb b a) (site_score url st) (a :: l))
    as H.
  rewrite <- Hfst in H. destruct H as [_ H].
  - intros x y Hxy. apply Qltb_lt in Hxy. apply Qltb_ge. lra.
  - intros x y z H1 H2. apply Qltb_ge in H1, H2. apply Qltb_ge. lra.
  - specialize (H q Hq). apply Qltb_ge in H. exact H.
Qed.

Lemma best_performing_is_best_witness :
  site_score "shop.example" st_used_once proxy_b
  <= site_score "shop.example" st_used_once proxy_a.
Proof.
  apply (best_performing_is_best (fun _ => 2100) 2100 "shop.example"
           no_requirements st_used_once proxy_a proxy_b).
  - vm_compute. reflexivity.
  - vm_compute. tauto.
Defined.

(** X29. The estimated difficulty of a site is 2, 3 or 4, within the
    documented scale of 1 to 5, and does not depend on the letter case of
    the url. *)
Theorem estimate_site_difficulty_range (url : string) :
  (2 <= _estimate_site_difficulty url <= 4)%Z
  /\ _estimate_site_difficulty (lower url) = _estimate_site_difficulty url.
Proof.
  split.
  - unfold _estimate_site_difficulty, difficult_patterns. simpl.
    repeat match goal with |- context [if ?b then _ else _] => destruct b end;
      simpl; lia.
  - unfold _estimate_site_difficulty. rewrite lower_idem. reflexivity.
Qed.

End Selector.
